(** * HadesMangaDL: the discovery-and-download pipeline

    A shallow embedding of [app/utils.py], [app/scraping.py], [app/worker.py]
    and [app/api.py], and the properties of the pipeline proved over it.

    Python values are modelled as follows.
    - A [str] is the list of its Unicode code points ([pystr]).  The
      character classes of the Unicode database are known on ASCII and are
      carried by the class [PyRuntime] beyond it.
    - A value read with [json.loads] is a [json] tree.
    - The Redis set of watched series is the list of its members in the
      order [smembers] hands them out, without repetition.
    - What the outside world answers (FlareSolverr, gallery-dl, the file
      system, the scraped pages) is an argument of the function that asks. *)

From Stdlib Require Import NArith ZArith Ascii String List Lia Bool.
From Stdlib Require Import DecimalString Sorted.
From stdpp Require Import base decidable option list gmap.
Import ListNotations.

Set Warnings "-register-all".

Local Open Scope N_scope.

(** ** Python strings *)

Definition pystr := list N.

Definition py (s : string) : pystr :=
  List.map N_of_ascii (list_ascii_of_string s).
Arguments py s%_string.

(** A value read with [json.loads]. *)
Inductive json :=
| JNull
| JBool (b : bool)
| JInt (z : Z)
| JFloat (repr : pystr)   (* a float, kept as the text [repr] prints *)
| JStr (s : pystr)
| JList (l : list json)
| JDict (kv : list (pystr * json)).

(** What the model takes from the Python runtime without computing it: the
    character classes and the lower-casing of the Unicode database for a
    code point above 127, the text [str] prints for a list or a dict, and
    [int] on a [str] ([None] when it raises [ValueError]). *)
Class PyRuntime := {
  uni_isalnum : N -> bool;
  uni_isspace : N -> bool;
  uni_lower : N -> pystr;
  repr_container : json -> pystr;
  int_of_str : pystr -> option Z
}.

(** [int] on a string of decimal digits. *)
Definition int_of_digits (s : pystr) : option Z :=
  match s with
  | [] => None
  | _ =>
      fold_left (fun acc c =>
                   match acc with
                   | Some z =>
                       if (48 <=? c) && (c <=? 57)
                       then Some (10 * z + Z.of_N (c - 48))%Z else None
                   | None => None
                   end) s (Some 0%Z)
  end.

(** A runtime for running the model on ASCII text: no character above 127
    is alphanumeric, whitespace or has a lower case, a container prints as
    nothing, and [int] reads decimal digits only. *)
Definition ascii_only : PyRuntime :=
  {| uni_isalnum := fun _ => false;
     uni_isspace := fun _ => false;
     uni_lower := fun c => [c];
     repr_container := fun _ => [];
     int_of_str := int_of_digits |}.

(** Characters are written by their code: 32 is the space, 43 [+],
    45 [-], 46 [.], 47 [/], 48 to 57 the digits, 65 to 90 and 97 to 122
    the letters, 92 the backslash, 95 [_]. *)
Definition in_range (lo hi c : N) : bool := (lo <=? c) && (c <=? hi).

Definition isdigit (c : N) : bool := in_range 48 57 c.

Definition isalnum `{PyRuntime} (c : N) : bool :=
  if c <? 128
  then in_range 48 57 c || in_range 65 90 c || in_range 97 122 c
  else uni_isalnum c.

Definition isspace `{PyRuntime} (c : N) : bool :=
  if c <? 128
  then in_range 9 13 c || in_range 28 32 c
  else uni_isspace c.

Fixpoint dropwhile {A} (p : A -> bool) (l : list A) : list A :=
  match l with
  | [] => []
  | x :: r => if p x then dropwhile p r else l
  end.

Definition lstrip_by (p : N -> bool) (s : pystr) : pystr := dropwhile p s.
Definition rstrip_by (p : N -> bool) (s : pystr) : pystr :=
  rev (dropwhile p (rev s)).

(** [s.strip()] *)
Definition strip `{PyRuntime} (s : pystr) : pystr :=
  rstrip_by isspace (lstrip_by isspace s).

(** [s.strip(chars)] *)
Definition strip_chars (chars s : pystr) : pystr :=
  let p c := existsb (N.eqb c) chars in
  rstrip_by p (lstrip_by p s).

(** [s.split(sep)] for a separator of one character. *)
Fixpoint split (sep : N) (s : pystr) : list pystr :=
  match s with
  | [] => [[]]
  | c :: r =>
      if c =? sep then [] :: split sep r
      else match split sep r with
           | [] => [[c]]
           | h :: t => (c :: h) :: t
           end
  end.

(** [s.zfill(width)]: zeros go after a leading sign. *)
Definition zfill (width : nat) (s : pystr) : pystr :=
  if (width <=? length s)%nat then s
  else
    let fill := repeat 48 (width - length s) in
    match s with
    | c :: r => if (c =? 43) || (c =? 45) then c :: fill ++ r else fill ++ s
    | [] => fill
    end.

(** [str(n)] for an [int]. *)
Definition str_of_Z (z : Z) : pystr :=
  py (NilZero.string_of_int (Z.to_int z)).

Fixpoint startswith (p s : pystr) : bool :=
  match p, s with
  | [], _ => true
  | _ :: _, [] => false
  | a :: p', b :: s' => (a =? b) && startswith p' s'
  end.

Definition endswith (p s : pystr) : bool := startswith (rev p) (rev s).

Fixpoint str_eqb (a b : pystr) : bool :=
  match a, b with
  | [], [] => true
  | x :: a', y :: b' => (x =? y) && str_eqb a' b'
  | _, _ => false
  end.

(** [a <= b] on [str]: code points compared from the left. *)
Fixpoint str_leb (a b : pystr) : bool :=
  match a, b with
  | [], _ => true
  | _ :: _, [] => false
  | x :: a', y :: b' => (x <? y) || ((x =? y) && str_leb a' b')
  end.

Definition str_le (a b : pystr) : Prop := str_leb a b = true.

(** [sorted(l, key=key)]: the stable sort. *)
Fixpoint insert_by {A} (key : A -> pystr) (x : A) (l : list A) : list A :=
  match l with
  | [] => [x]
  | y :: r => if str_leb (key x) (key y) then x :: l else y :: insert_by key x r
  end.

Definition sorted_by {A} (key : A -> pystr) (l : list A) : list A :=
  fold_right (insert_by key) [] l.

Definition sorted (l : list pystr) : list pystr := sorted_by (fun s => s) l.

Definition str_dec : forall a b : pystr, {a = b} + {a <> b} :=
  List.list_eq_dec N.eq_dec.

(** [x in l] *)
Definition str_in (x : pystr) (l : list pystr) : bool := existsb (str_eqb x) l.

(** ** app/utils.py *)

(** [c.isalnum() or c in (' ', '.', '_', '-')] *)
Definition safe_char `{PyRuntime} (c : N) : bool :=
  isalnum c || existsb (N.eqb c) [32; 46; 95; 45].

Definition sanitize_filename `{PyRuntime} (name : json) : pystr :=
  match name with
  | JStr s => strip (List.filter safe_char s)
  | _ => []
  end.

(** ** Python values *)

(** What a function does when it does not return: the exception leaves it.
    [UntypedUrl] is no exception of Python: it ends a run at the point where
    the code goes on with a chapter whose url is not a string, which the
    chapter lists of this development do not hold. *)
Inductive exn := TypeError | KeyError | IndexError | ValueError
               | AttributeError | RecursionError | Exception
               | HTTPException (status_code : nat)
               | UntypedUrl.

Inductive result (A : Type) :=
| Ok (a : A)
| Raise (e : exn).
Arguments Ok {A} a.
Arguments Raise {A} e.

Definition nonempty {A} (l : list A) : bool :=
  match l with [] => false | _ => true end.

Definition present {A} (o : option A) : bool :=
  match o with Some _ => true | None => false end.

(** [bool(v)] *)
Definition truthy (v : json) : bool :=
  match v with
  | JNull => false
  | JBool b => b
  | JInt z => negb (z =? 0)%Z
  | JFloat r => negb (str_eqb r (py "0.0") || str_eqb r (py "-0.0"))
  | JStr s => nonempty s
  | JList l => nonempty l
  | JDict kv => nonempty kv
  end.

(** [str(v)] *)
Definition py_str `{PyRuntime} (v : json) : pystr :=
  match v with
  | JNull => py "None"
  | JBool true => py "True"
  | JBool false => py "False"
  | JInt z => str_of_Z z
  | JFloat r => r
  | JStr s => s
  | JList _ | JDict _ => repr_container v
  end.

(** [d.get(k)]: [None] when the key is absent. *)
Definition dict_get (k : pystr) (kv : list (pystr * json)) : json :=
  match List.find (fun p => str_eqb (fst p) k) kv with
  | Some p => snd p
  | None => JNull
  end.

(** [d.get(k, default)] *)
Definition dict_get_default (k : pystr) (default : json)
    (kv : list (pystr * json)) : json :=
  match List.find (fun p => str_eqb (fst p) k) kv with
  | Some p => snd p
  | None => default
  end.

(** [k in d] *)
Definition dict_has (k : pystr) (kv : list (pystr * json)) : bool :=
  present (List.find (fun p => str_eqb (fst p) k) kv).

(** [v == s] for a [str] [s] *)
Definition eq_str (v : json) (s : pystr) : bool :=
  match v with JStr t => str_eqb t s | _ => false end.

(** [d[k] = v]: a key keeps the place it was first given. *)
Fixpoint dict_set {V} (k : pystr) (v : V) (kv : list (pystr * V))
    : list (pystr * V) :=
  match kv with
  | [] => [(k, v)]
  | (k', v') :: r =>
      if str_eqb k' k then (k', v) :: r else (k', v') :: dict_set k v r
  end.

(** [d.update(other)] *)
Definition dict_update {V} (d other : list (pystr * V)) : list (pystr * V) :=
  fold_left (fun acc p => dict_set (fst p) (snd p) acc) other d.

(** ** app/scraping.py: the chapter extractor *)

Record chapter := { url : pystr; name : pystr }.

(** The label of a chapter, from the text of its ordinal, split at the
    decimal points. *)
Definition padded_name (chapter_str : pystr) : pystr :=
  match split 46 chapter_str with
  | [int_part] => zfill 4 int_part
  | [int_part; dec_part] => zfill 4 int_part ++ [46] ++ dec_part
  | _ => chapter_str
  end.

Definition chapter_name (chapter_str : pystr) : pystr :=
  py "Chapter " ++ padded_name chapter_str.

(** The ordinal of a record: [chapter] with [chapter_minor] appended when
    it has one, else [num]. *)
Definition chapter_num_raw `{PyRuntime} (kv : list (pystr * json)) : json :=
  let main_chapter := dict_get (py "chapter") kv in
  let minor_chapter := dict_get (py "chapter_minor") kv in
  match main_chapter with
  | JNull => dict_get (py "num") kv
  | _ =>
      if truthy minor_chapter && nonempty (strip (py_str minor_chapter))
      then JStr (py_str main_chapter ++ strip (py_str minor_chapter))
      else main_chapter
  end.

(** The state of the extractor: the chapters so far and the first record
    met ([JNull] until then).  The code appends a chapter for every url that
    is truthy; where the url is not a string the run ends here with
    [UntypedUrl]. *)
Definition process_chapter_data `{PyRuntime} (data : json)
    (st : list chapter * json) : result (list chapter * json) :=
  match data with
  | JDict kv =>
      let '(chapters, first_meta) := st in
      let first_meta := if truthy first_meta then first_meta else data in
      let chapter_url := dict_get (py "url") kv in
      match chapter_num_raw kv with
      | JNull => Ok (chapters, first_meta)
      | raw =>
          if truthy chapter_url then
            match chapter_url with
            | JStr chapter_url =>
                Ok (chapters ++ [{| url := chapter_url;
                                    name := chapter_name (py_str raw) |}],
                    first_meta)
            | _ => Raise UntypedUrl
            end
          else Ok (chapters, first_meta)
      end
  | _ => Ok st
  end.

(** [len(v)] *)
Definition py_len (v : json) : result nat :=
  match v with
  | JStr s => Ok (length s)
  | JList l => Ok (length l)
  | JDict kv => Ok (length kv)
  | _ => Raise TypeError
  end.

(** A gallery-dl message [[kind, url, record]]: the record with the url of
    the message written into it. *)
Definition message_record (l : list json) : option json :=
  match l with
  | _ :: message_url :: JDict item_data :: _ =>
      Some (JDict (dict_set (py "url") message_url item_data))
  | _ => None
  end.

(** One element of a list of messages (the loop body of the first shape). *)
Definition process_sublist `{PyRuntime} (sublist : json)
    (st : list chapter * json) : result (list chapter * json) :=
  match py_len sublist with
  | Raise e => Raise e
  | Ok n =>
      if (2 <? n)%nat then
        match sublist with
        | JList l =>
            match message_record l with
            | Some item_data => process_chapter_data item_data st
            | None => Ok st
            end
        | JDict _ => Raise KeyError
        | _ => Ok st
        end
      else Ok st
  end.

Fixpoint for_each {A S} (body : A -> S -> result S) (l : list A) (st : S)
    : result S :=
  match l with
  | [] => Ok st
  | x :: r =>
      match body x st with
      | Ok st' => for_each body r st'
      | Raise e => Raise e
      end
  end.

(** What [json.loads] does with a text: it returns a value, raises
    [JSONDecodeError], or raises another exception ([RecursionError] on a
    text nested too deep, [ValueError] on an integer of too many digits). *)
Inductive loaded :=
| Loaded (value : json)
| Undecodable
| Fails (e : exn).

(** What gallery-dl printed, as [json.loads] reads it: the whole text, and
    each line of the stripped text.  The lines are read only when the whole
    text is undecodable, which a text of two or more messages printed one
    per line is. *)
Record dump := {
  whole : loaded;
  lines : list loaded
}.

(** One line of the line-by-line reading; [JSONDecodeError] and
    [TypeError] make the loop go on to the next line. *)
Definition process_line `{PyRuntime} (line : loaded)
    (st : list chapter * json) : result (list chapter * json) :=
  match line with
  | Undecodable => Ok st
  | Fails TypeError => Ok st
  | Fails e => Raise e
  | Loaded (JList l) =>
      match message_record l with
      | Some item_data => process_chapter_data item_data st
      | None => process_chapter_data (JList l) st
      end
  | Loaded data => process_chapter_data data st
  end.

Definition extract_chapters_from_json `{PyRuntime} (stdout : dump)
    : result (list chapter * json) :=
  let start : list chapter * json := ([], JNull) in
  match whole stdout with
  | Loaded (JList []) => Ok start
  | Loaded (JList ((JList _ :: _) as full_json)) =>
      for_each process_sublist full_json start
  | Loaded (JList ((JDict _ :: _) as full_json)) =>
      for_each process_chapter_data full_json start
  | Loaded (JList _) => Ok start
  | Loaded ((JDict kv) as full_json) =>
      match dict_get (py "entries") kv with
      | JList entries => for_each process_chapter_data entries start
      | _ => process_chapter_data full_json start
      end
  | Loaded _ => Ok start
  | Undecodable => for_each process_line (lines stdout) start
  | Fails e => Raise e     (* [except json.JSONDecodeError] lets it through *)
  end.

(** ** Paths *)

(** [os.path.join(a, b)] *)
Definition path_join (a b : pystr) : pystr :=
  if startswith [47] b then b
  else if negb (nonempty a) || endswith [47] a then a ++ b
  else a ++ [47] ++ b.

(** [s.rfind(c)], counting from [i]. *)
Fixpoint rfind_from (c : N) (s : pystr) (i : nat) : option nat :=
  match s with
  | [] => None
  | x :: r =>
      match rfind_from c r (S i) with
      | Some j => Some j
      | None => if x =? c then Some i else None
      end
  end.

Definition rfind (c : N) (s : pystr) : option nat := rfind_from c s 0.

(** [os.path.splitext(p)[0]]: the last dot starts the extension unless
    only dots come before it in the file name. *)
Definition splitext_root (p : pystr) : pystr :=
  match rfind 46 p with
  | None => p
  | Some dotIndex =>
      let filenameIndex :=
        match rfind 47 p with None => 0%nat | Some sepIndex => S sepIndex end in
      if (filenameIndex <=? dotIndex)%nat
         && existsb (fun c => negb (c =? 46))
              (firstn (dotIndex - filenameIndex) (skipn filenameIndex p))
      then firstn dotIndex p
      else p
  end.

(** [sub in s] *)
Fixpoint contains (sub s : pystr) : bool :=
  startswith sub s ||
  match s with
  | [] => false
  | _ :: r => contains sub r
  end.

(** [s.lower()] *)
Definition lower `{PyRuntime} (s : pystr) : pystr :=
  flat_map (fun c => if c <? 128
                     then [if in_range 65 90 c then c + 32 else c]
                     else uni_lower c) s.

Definition _normalize_status `{PyRuntime} (status : json) : pystr :=
  match status with
  | JStr s =>
      let normalized_status := strip (lower s) in
      if existsb (fun w => contains w normalized_status)
           [py "continuing"; py "ongoing"; py "publishing"]
      then py "Continuing"
      else if existsb (fun w => contains w normalized_status)
                [py "ended"; py "completed"; py "finished"]
      then py "Ended"
      else py "Continuing"
  | _ => py "Continuing"
  end.

(** ** app/worker.py: jobs and what the pipeline keeps *)

(** A task put on the queue. *)
Inductive job :=
| Download (chapter_url series_path chapter_label : pystr)
    (use_flaresolverr : bool)
| Discover (series_folder_name : pystr) (series_urls : list pystr)
    (library_path : pystr) (use_flaresolverr : bool)
| DiscoverAny (series_folder_name series_urls : json)
    (library_path : pystr) (use_flaresolverr : json)
| RecordCheck (frequency : pystr)
| BulkAdd (urls : list pystr) (library frequency : pystr).

(** The [metadata] object of [series.json] (its constant fields left out). *)
Record document := {
  publisher : json;
  display_name : json;
  year : Z;
  description_text : pystr;
  description_formatted : pystr;
  comic_image : pystr;
  total_issues : nat;
  status : pystr
}.

(** The directory of a series: [series.json], [cover.jpg] (the address it
    was fetched from) and the names of the other files. *)
Record series_dir := {
  series_json : option document;
  cover_jpg : option json;
  files : list pystr
}.

Definition empty_dir : series_dir :=
  {| series_json := None; cover_jpg := None; files := [] |}.

(** [os.makedirs(path, exist_ok=True)] *)
Definition makedirs (d : option series_dir) : series_dir :=
  match d with Some dir => dir | None => empty_dir end.

(** [os.listdir(series_path)] *)
Definition listdir (d : series_dir) : list pystr :=
  files d
  ++ (if present (series_json d) then [py "series.json"] else [])
  ++ (if present (cover_jpg d) then [py "cover.jpg"] else []).

(** [libraries] of app/services.py *)
Definition LIBRARIES : list (pystr * pystr) :=
  [ (py "comics", py "/downloads/comics");
    (py "artbooks", py "/downloads/artbooks");
    (py "manga", py "/downloads/manga") ].

Definition libraries_get (library : pystr) : option pystr :=
  match List.find (fun p => str_eqb (fst p) library) LIBRARIES with
  | Some p => Some (snd p)
  | None => None
  end.

(** [LIBRARIES.get(key)] for a value read from JSON: a list or a dict
    cannot be hashed, and a value that is not a string is no key. *)
Definition libraries_lookup (key : json) : result (option pystr) :=
  match key with
  | JList _ | JDict _ => Raise TypeError
  | JStr library => Ok (libraries_get library)
  | _ => Ok None
  end.

(** The strings of a list, when all its elements are strings. *)
Fixpoint strings (l : list json) : option (list pystr) :=
  match l with
  | [] => Some []
  | JStr s :: r =>
      match strings r with Some ss => Some (s :: ss) | None => None end
  | _ :: _ => None
  end.

(** [process_series.s(folder, urls, path, flag)] with arguments read from
    JSON: the discovery of a folder named by a string over addresses that
    are strings is a [Discover] job; with arguments of other types the job
    is kept with the values as they are. *)
Definition discover_job (series_folder_name series_urls : json)
    (library_path : pystr) (use_flaresolverr : json) : job :=
  match series_folder_name, series_urls, use_flaresolverr with
  | JStr folder, JList l, JBool flag =>
      match strings l with
      | Some urls => Discover folder urls library_path flag
      | None =>
          DiscoverAny series_folder_name series_urls library_path
            use_flaresolverr
      end
  | _, _, _ =>
      DiscoverAny series_folder_name series_urls library_path use_flaresolverr
  end.

(** ** [process_series]: discovery for one series *)

(** One entry of [sites_config.json]: the host of its search address. *)
Record site := { hostname : pystr }.

Definition site_for (sites_config_list : list site) (u : pystr) : option site :=
  List.find (fun s => contains (hostname s) u) sites_config_list.

(** What [_create_flaresolverr_session] returns. *)
Record session := {
  session_args : list pystr;
  cookie_file : pystr;
  user_agent : pystr;
  session_cookies : list (pystr * pystr)
}.

(** What the world answers for one source address. *)
Record answer := {
  flaresolverr : option session;         (* [None]: the session call raises *)
  returncode : Z;                        (* of [gallery-dl --dump-json] *)
  stdout : dump;
  page_metadata : list (pystr * json)    (* [_scrape_series_metadata_from_html] *)
}.

Record world := {
  sites_config : option (list site);     (* [None]: no file, or not JSON *)
  answer_for : pystr -> answer;
  scraped_cover : pystr -> json;         (* [_scrape_cover_url_from_html] *)
  cover_download : json -> bool          (* the cover is fetched and written *)
}.

(** A member of the Redis set of watched series as the scheduler reads it:
    text on which [json.loads] raises [JSONDecodeError], text on which it
    raises another exception, a value that is not an object, or an object
    with the keys and values it has. *)
Inductive member :=
| Unparseable (raw : pystr)
| Unloadable (raw : pystr) (e : exn)
| NotAnObject (value : json)
| Object (kv : list (pystr * json)).

(** What [print] writes. *)
Inductive event :=
| Discovering (series_url : pystr)
| DiscoveryFailed (series_url : pystr)
| CoverDownloaded
| CoverFailed
| Dispatched (n : nat)
| RunningCheck (frequency : pystr)
| SkippingMalformed (entry_json : member)
| CheckError (frequency : pystr).

(** The variables the loop over the sources updates. *)
Record found := {
  all_discovered_chapters : list chapter;
  first_chapter_meta : json;
  scraped_html_metadata : list (pystr * json);
  flaresolverr_user_agent : pystr;
  flaresolverr_session_cookies : list (pystr * pystr);
  printed : list event
}.

Definition nothing_found : found :=
  {| all_discovered_chapters := []; first_chapter_meta := JNull;
     scraped_html_metadata := []; flaresolverr_user_agent := [];
     flaresolverr_session_cookies := []; printed := [] |}.

Definition with_printed (f : found) (more : list event) : found :=
  {| all_discovered_chapters := all_discovered_chapters f;
     first_chapter_meta := first_chapter_meta f;
     scraped_html_metadata := scraped_html_metadata f;
     flaresolverr_user_agent := flaresolverr_user_agent f;
     flaresolverr_session_cookies := flaresolverr_session_cookies f;
     printed := printed f ++ more |}.

(** [if not flaresolverr_user_agent: ...] and the same for the cookies. *)
Definition with_session (f : found) (s : session) : found :=
  {| all_discovered_chapters := all_discovered_chapters f;
     first_chapter_meta := first_chapter_meta f;
     scraped_html_metadata := scraped_html_metadata f;
     flaresolverr_user_agent :=
       if nonempty (flaresolverr_user_agent f)
       then flaresolverr_user_agent f else user_agent s;
     flaresolverr_session_cookies :=
       if nonempty (flaresolverr_session_cookies f)
       then flaresolverr_session_cookies f else session_cookies s;
     printed := printed f |}.

(** The body of the loop over [series_urls]. *)
Definition discover_source `{PyRuntime} (use_flaresolverr : bool)
    (sites_config_list : list site) (w : world) (series_url : pystr)
    (f : found) : result found :=
  let a := answer_for w series_url in
  let f := with_printed f [Discovering series_url] in
  let with_flaresolverr :=
    if use_flaresolverr then
      match flaresolverr a with
      | None => Raise Exception
      | Some s => Ok (with_session f s)
      end
    else Ok f in
  match with_flaresolverr with
  | Raise e => Raise e
  | Ok f =>
      if negb (returncode a =? 0)%Z
      then Ok (with_printed f [DiscoveryFailed series_url])
      else
        match extract_chapters_from_json (stdout a) with
        | Raise e => Raise e
        | Ok (chapters_from_source, current_first_meta) =>
            Ok {| all_discovered_chapters :=
                    all_discovered_chapters f ++ chapters_from_source;
                  first_chapter_meta :=
                    if negb (truthy (first_chapter_meta f))
                       && truthy current_first_meta
                    then current_first_meta else first_chapter_meta f;
                  scraped_html_metadata :=
                    match site_for sites_config_list series_url with
                    | Some _ =>
                        dict_update (scraped_html_metadata f) (page_metadata a)
                    | None => scraped_html_metadata f
                    end;
                  flaresolverr_user_agent := flaresolverr_user_agent f;
                  flaresolverr_session_cookies :=
                    flaresolverr_session_cookies f;
                  printed := printed f |}
        end
  end.

(** The loop over [series_urls]: what was found, and the exception that
    ended the loop early if one did. *)
Fixpoint discover `{PyRuntime} (use_flaresolverr : bool)
    (sites_config_list : list site) (w : world) (series_urls : list pystr)
    (f : found) : found * option exn :=
  match series_urls with
  | [] => (f, None)
  | series_url :: rest =>
      match discover_source use_flaresolverr sites_config_list w series_url f
      with
      | Ok f' => discover use_flaresolverr sites_config_list w rest f'
      | Raise e => (with_printed f [Discovering series_url], Some e)
      end
  end.

(** [{chap['url']: chap for chap in chapters}.values()]: one chapter for
    each url, at the place the url was first met, as it was last met. *)
Definition by_url (chapters : list chapter) (d : list (pystr * chapter))
    : list (pystr * chapter) :=
  fold_left (fun d chap => dict_set (url chap) chap d) chapters d.

Definition unique_by_url (chapters : list chapter) : list chapter :=
  List.map snd (by_url chapters []).

(** The label given to a chapter whose label was met [count] times before. *)
Definition part_name (original_name : pystr) (count : nat) : pystr :=
  if (0 <? count)%nat
  then original_name ++ py " (Part " ++ str_of_Z (Z.of_nat (count + 1)) ++ py ")"
  else original_name.

(** The loop that renames the chapters whose label was already met. *)
Definition rename_step (st : list chapter * gmap pystr nat) (chap : chapter)
    : list chapter * gmap pystr nat :=
  let '(final_chapters, seen_names) := st in
  let original_name := name chap in
  let count := default 0%nat (seen_names !! original_name) in
  (final_chapters ++ [{| url := url chap;
                         name := part_name original_name count |}],
   <[original_name := (count + 1)%nat]> seen_names).

Definition final_chapters (chapters : list chapter) : list chapter :=
  fst (fold_left rename_step chapters ([], ∅)).

Definition unique_chapters (all_discovered : list chapter) : list chapter :=
  sorted_by name (final_chapters (unique_by_url all_discovered)).

(** What the renaming loop computes, said directly: the label of each
    chapter from the labels met before it. *)
Fixpoint renamed (before : list pystr) (chapters : list chapter)
    : list chapter :=
  match chapters with
  | [] => []
  | chap :: rest =>
      {| url := url chap;
         name := part_name (name chap)
                   (count_occ str_dec before (name chap)) |}
      :: renamed (before ++ [name chap]) rest
  end.

(** The order of the labels. *)
Definition name_le (a b : chapter) : Prop := str_leb (name a) (name b) = true.

(** The names of the archives in the directory, without [.cbz]. *)
Definition downloaded_cbz_names (d : series_dir) : list pystr :=
  List.map splitext_root
    (List.filter (fun f => endswith (py ".cbz") f) (listdir d)).

(** The chapters with no archive yet. *)
Definition new_chapters `{PyRuntime} (chapters : list chapter) (d : series_dir)
    : list chapter :=
  List.filter
    (fun chap => negb (str_in (sanitize_filename (JStr (name chap)))
                         (downloaded_cbz_names d)))
    chapters.

(** The document written to [series.json]. *)
Definition filtered_metadata `{PyRuntime} (first_meta : json)
    (scraped : list (pystr * json)) (series_folder_name : pystr)
    (cover_url : json) (chapters : list chapter) : result document :=
  let metadata :=
    dict_update
      (match first_meta with
       | JDict kv => if nonempty kv then dict_update [] kv else []
       | _ => []
       end)
      scraped in
  let release :=
    dict_get_default (py "release")
      (dict_get_default (py "year") (JStr (py "0")) metadata) metadata in
  let description :=
    dict_get_default (py "description")
      (dict_get_default (py "description_text") (JStr []) metadata) metadata in
  (* [int(str(...).split('-')[0])] *)
  match int_of_str (hd [] (split 45 (py_str release))) with
  | None => Raise ValueError
  | Some y =>
      match description with
      | JStr text =>
          Ok {| publisher :=
                  dict_get_default (py "publisher")
                    (dict_get_default (py "author") (JStr (py "Unknown"))
                       metadata) metadata;
                display_name :=
                  dict_get_default (py "manga")
                    (dict_get_default (py "name") (JStr series_folder_name)
                       metadata) metadata;
                year := y;
                description_text :=   (* without carriage returns and newlines *)
                  List.filter (fun c => negb (c =? 13) && negb (c =? 10)) text;
                description_formatted := text;
                comic_image := if truthy cover_url then py "cover.jpg" else [];
                total_issues := length chapters;
                status :=
                  _normalize_status
                    (dict_get_default (py "status") (JStr (py "Continuing"))
                       metadata) |}
      | _ => Raise AttributeError
      end
  end.

(** What [process_series] returns. *)
Inductive reply :=
| Failed_config         (* "Could not load sites_config.json" *)
| Failed_no_chapters    (* "No chapters found from any of the series pages." *)
| Success_nothing_new   (* "No new chapters found." *)
| Running (new_chapters_queued : nat).

Definition reply_status (r : reply) : pystr :=
  match r with
  | Failed_config | Failed_no_chapters => py "Failed"
  | Success_nothing_new => py "Success"
  | Running _ => py "Running"
  end.

(** A run of [process_series]: what it returns or raises, the directory
    and the cached chapter list it leaves, the jobs it queues, what it
    prints. *)
Record run := {
  returned : result reply;
  dir_after : series_dir;
  cache_after : option (list pystr);
  queued : list job;
  log : list event
}.

(** The block that writes [series.json] when there is none: the directory
    it leaves, the exception that ended it early if one did, what it
    prints. *)
Definition write_series_json `{PyRuntime} (series_folder_name : pystr)
    (series_urls : list pystr) (use_flaresolverr : bool)
    (sites_config_list : list site) (w : world) (f : found)
    (chapters : list chapter) (d : series_dir)
    : series_dir * option exn * list event :=
  match series_json d with
  | Some _ => (d, None, [])
  | None =>
      let cover_url :=
        match first_chapter_meta f with
        | JDict kv =>
            if nonempty kv
            then if truthy (dict_get (py "cover") kv)
                 then dict_get (py "cover") kv
                 else dict_get (py "thumbnail") kv
            else JNull
        | _ => JNull
        end in
      (* [series_urls[0]] is read once for each configured site *)
      match series_urls, sites_config_list with
      | [], _ :: _ => (d, Some IndexError, [])
      | _, _ =>
          let cover_url :=
            match series_urls with
            | first_url :: _ =>
                if negb (truthy cover_url) && use_flaresolverr
                   && present (site_for sites_config_list first_url)
                then scraped_cover w first_url else cover_url
            | [] => cover_url
            end in
          let '(d1, printed1) :=
            if truthy cover_url then
              if cover_download w cover_url
              then ({| series_json := series_json d;
                       cover_jpg := Some cover_url;
                       files := files d |}, [CoverDownloaded])
              else (d, [CoverFailed])
            else (d, []) in
          match filtered_metadata (first_chapter_meta f)
                  (scraped_html_metadata f) series_folder_name cover_url
                  chapters with
          | Raise e => (d1, Some e, printed1)
          | Ok doc =>
              ({| series_json := Some doc;
                  cover_jpg := cover_jpg d1;
                  files := files d1 |}, None, printed1)
          end
      end
  end.

Definition process_series `{PyRuntime} (series_folder_name : pystr)
    (series_urls : list pystr) (library_path : pystr)
    (use_flaresolverr : bool) (w : world)
    (d : option series_dir) (cache : option (list pystr)) : run :=
  let series_path := path_join library_path series_folder_name in
  let d := makedirs d in
  match sites_config w with
  | None =>
      {| returned := Ok Failed_config; dir_after := d; cache_after := cache;
         queued := []; log := [] |}
  | Some sites_config_list =>
      match discover use_flaresolverr sites_config_list w series_urls
              nothing_found with
      | (f, Some e) =>
          {| returned := Raise e; dir_after := d; cache_after := cache;
             queued := []; log := printed f |}
      | (f, None) =>
          let chapters := unique_chapters (all_discovered_chapters f) in
          if negb (nonempty chapters) then
            {| returned := Ok Failed_no_chapters; dir_after := d;
               cache_after := cache; queued := []; log := printed f |}
          else
            let chapter_names := List.map name chapters in
            match write_series_json series_folder_name series_urls
                    use_flaresolverr sites_config_list w f chapters d with
            | (d, Some e, printed1) =>
                {| returned := Raise e; dir_after := d;
                   cache_after := Some chapter_names; queued := [];
                   log := printed f ++ printed1 |}
            | (d, None, printed1) =>
                let new := new_chapters chapters d in
                if negb (nonempty new) then
                  {| returned := Ok Success_nothing_new; dir_after := d;
                     cache_after := Some chapter_names; queued := [];
                     log := printed f ++ printed1 |}
                else
                  {| returned := Ok (Running (length new)); dir_after := d;
                     cache_after := Some chapter_names;
                     queued :=
                       List.map (fun chap =>
                                   Download (url chap) series_path (name chap)
                                     use_flaresolverr) new;
                     log := printed f ++ printed1
                            ++ [Dispatched (length new)] |}
            end
      end
  end.

(** ** [download_single_url]: one chapter *)

(** What the world answers during one execution of the task. *)
Record fetch := {
  direct_returncode : Z;
  direct_files : list pystr;          (* the working directory after it *)
  flaresolverr_args : list pystr;     (* [get_flaresolverr_session_args] *)
  flaresolverr_returncode : Z;
  flaresolverr_files : list pystr;    (* the working directory after it *)
  archive_written : bool;             (* packaging raises nothing *)
  zip_left : bool                     (* a packaging that raises leaves
                                         [<name>.zip] behind *)
}.

Inductive download_reply := Failed_empty | Completed.

Definition download_status (r : download_reply) : pystr :=
  match r with
  | Failed_empty => py "Failed"
  | Completed => py "Completed"
  end.

(** The two fetches: the content of the working directory when the fetch
    is taken to have succeeded. *)
Definition fetch_chapter (use_flaresolverr : bool) (w : fetch)
    : result (list pystr) :=
  let download_succeeded :=
    (direct_returncode w =? 0)%Z && nonempty (direct_files w) in
  if negb download_succeeded && use_flaresolverr then
    if negb (nonempty (flaresolverr_args w)) then Raise Exception
    else if negb (flaresolverr_returncode w =? 0)%Z then Raise Exception
    else Ok (flaresolverr_files w)
  else if negb download_succeeded then Raise Exception
  else Ok (direct_files w).

(** The body of the task inside [try]. *)
Definition download_body (use_flaresolverr : bool) (w : fetch)
    : result download_reply :=
  match fetch_chapter use_flaresolverr w with
  | Raise e => Raise e
  | Ok working_files =>
      if negb (nonempty working_files) then Ok Failed_empty
      else if archive_written w then Ok Completed
      else Raise Exception
  end.

Definition max_retries : nat := 3.

(** How an execution of the task ends for the queue. *)
Inductive task_end :=
| Done (r : download_reply)
| Retry                      (* [self.retry] asks for another execution *)
| Failure (e : exn).         (* [self.retry] gives the exception back *)

(** [self.retry(exc=exc)] in an execution that is retry number [retries]. *)
Definition self_retry (retries : nat) (e : exn) : task_end :=
  if (max_retries <? retries + 1)%nat then Failure e else Retry.

(** The directory with the entry named [f], and without it. *)
Definition with_file (f : pystr) (d : series_dir) : series_dir :=
  {| series_json := series_json d; cover_jpg := cover_jpg d;
     files := if str_in f (files d) then files d else files d ++ [f] |}.

Definition without_file (f : pystr) (d : series_dir) : series_dir :=
  {| series_json := series_json d; cover_jpg := cover_jpg d;
     files := List.filter (fun g => negb (str_eqb g f)) (files d) |}.

(** [shutil.make_archive] and [os.rename]: [<name>.zip] is written, over
    the one that was there, and becomes [<name>.cbz]. *)
Definition add_archive `{PyRuntime} (chapter_label : pystr) (d : series_dir)
    : series_dir :=
  let cbz_base_name := sanitize_filename (JStr chapter_label) in
  with_file (cbz_base_name ++ py ".cbz")
    (without_file (cbz_base_name ++ py ".zip") d).

(** The working directory is [series_path/safe_chapter_name]: for these
    names it is not below the directory of the series, and removing it at
    the end of the task removes the files of the series. *)
Definition not_a_subdirectory (safe_chapter_name : pystr) : bool :=
  str_in safe_chapter_name [[]; py "."; py ".."].

(** [finally]: the working directory is removed with what it holds.  An
    entry of that name found at the start is taken to be a directory, which
    [os.makedirs] accepts and the task then works in. *)
Definition remove_working_directory `{PyRuntime} (chapter_label : pystr)
    (d : series_dir) : series_dir :=
  let safe_chapter_name := sanitize_filename (JStr chapter_label) in
  if not_a_subdirectory safe_chapter_name then empty_dir
  else without_file safe_chapter_name d.

(** The packaging was reached and raised. *)
Definition packaging_failed (use_flaresolverr : bool) (w : fetch) : bool :=
  match fetch_chapter use_flaresolverr w with
  | Ok (_ :: _) => negb (archive_written w)
  | _ => false
  end.

(** One execution: how it ends, the directory after it, the addresses a
    notification was sent for. *)
Definition download_single_url `{PyRuntime} (retries : nat)
    (chapter_url chapter_label : pystr) (use_flaresolverr : bool)
    (w : fetch) (d : series_dir) : task_end * series_dir * list pystr :=
  let safe_chapter_name := sanitize_filename (JStr chapter_label) in
  let finally := remove_working_directory chapter_label in
  match download_body use_flaresolverr w with
  | Raise e =>
      (self_retry retries e,
       finally (if packaging_failed use_flaresolverr w && zip_left w
                then with_file (safe_chapter_name ++ py ".zip") d else d),
       [])
  | Ok Failed_empty => (Done Failed_empty, finally d, [])
  | Ok Completed =>
      (Done Completed, finally (add_archive chapter_label d), [chapter_url])
  end.

(** The directory of the series after an execution that completed. *)
Definition completed_download `{PyRuntime} (chapter_label : pystr)
    (d : series_dir) : series_dir :=
  remove_working_directory chapter_label (add_archive chapter_label d).

(** The queue: it executes the task again for as long as it asks to. *)
Record delivery := {
  ended : task_end;
  executions : nat;
  dir_left : series_dir;
  notified : list pystr
}.

Fixpoint deliver `{PyRuntime} (fuel retries : nat)
    (chapter_url chapter_label : pystr) (use_flaresolverr : bool)
    (ws : nat -> fetch) (d : series_dir) : option delivery :=
  match fuel with
  | O => None
  | S fuel' =>
      match download_single_url retries chapter_url chapter_label
              use_flaresolverr (ws retries) d with
      | (Retry, d', _) =>
          deliver fuel' (S retries) chapter_url chapter_label
            use_flaresolverr ws d'
      | (e, d', sent) =>
          Some {| ended := e; executions := S retries; dir_left := d';
                  notified := sent |}
      end
  end.

(** ** [refresh_series_metadata] *)

(** The directory and the cached chapter list it leaves, and the job it
    queues. *)
Definition refresh_series_metadata (series_folder_name : pystr)
    (series_urls : list pystr) (library_path : pystr)
    (use_flaresolverr : bool) (d : option series_dir)
    (cache : option (list pystr))
    : option series_dir * option (list pystr) * list job :=
  (match d with
   | Some dir => Some {| series_json := None; cover_jpg := cover_jpg dir;
                         files := files dir |}
   | None => None
   end,
   None,
   [Discover series_folder_name series_urls library_path use_flaresolverr]).

(** ** [refresh_cover_image] *)

Inductive cover_reply :=
| Cover_refreshed         (* "Cover image refreshed." *)
| No_site_configuration   (* "No site configuration found." *)
| Config_error            (* "sites_config.json error" *)
| No_cover_url            (* "No new cover image URL found." *)
| Cover_not_downloaded    (* "Could not download new cover" *)
| FlareSolverr_disabled.  (* "FlareSolverr was not enabled for this task." *)

Definition refresh_cover_image (source_url : pystr) (use_flaresolverr : bool)
    (w : world) (d : option series_dir) : cover_reply * series_dir :=
  let d := makedirs d in
  match sites_config w with
  | None => (Config_error, d)
  | Some sites_config_list =>
      match site_for sites_config_list source_url with
      | None => (No_site_configuration, d)
      | Some _ =>
          if use_flaresolverr then
            match flaresolverr (answer_for w source_url) with
            | None => (Cover_not_downloaded, d)
            | Some _ =>
                let cover_url := scraped_cover w source_url in
                if truthy cover_url then
                  if cover_download w cover_url
                  then (Cover_refreshed,
                        {| series_json := series_json d;
                           cover_jpg := Some cover_url;
                           files := files d |})
                  else (Cover_not_downloaded, d)
                else (No_cover_url, d)
            end
          else (FlareSolverr_disabled, d)
      end
  end.

(** ** The watch registry *)

(** A member of the Redis set [gallery_dl_watched_urls], as [json.loads]
    reads it.  The members are written with [json.dumps], which gives the
    same text for the same entry: removing the text of an entry removes
    the entry. *)
Record entry := {
  series_folder_name : pystr;
  series_urls : list pystr;
  library : pystr;
  use_flaresolverr : bool;
  frequency : pystr
}.

#[global] Instance entry_eq_dec : EqDecision entry.
Proof. solve_decision. Defined.

(** [redis_client.sadd] and [redis_client.srem] (with the number of members
    removed) on the set. *)
Definition sadd (e : entry) (members : list entry) : list entry :=
  if bool_decide (e ∈ members) then members else members ++ [e].

Definition srem (e : entry) (members : list entry) : list entry * nat :=
  (List.filter (fun m => negb (bool_decide (m = e))) members,
   if bool_decide (e ∈ members) then 1%nat else 0%nat).

(** The first member whose folder name is [folder]. *)
Definition find_entry (folder : pystr) (members : list entry) : option entry :=
  List.find (fun e => str_eqb (series_folder_name e) folder) members.

Definition with_urls (e : entry) (urls : list pystr) : entry :=
  {| series_folder_name := series_folder_name e; series_urls := urls;
     library := library e; use_flaresolverr := use_flaresolverr e;
     frequency := frequency e |}.

(** [l.remove(x)]: the first occurrence goes. *)
Fixpoint list_remove (x : pystr) (l : list pystr) : list pystr :=
  match l with
  | [] => []
  | y :: r => if str_eqb y x then r else y :: list_remove x r
  end.

(** [list(set(l))], in the order of first occurrence. *)
Fixpoint distinct (l : list pystr) : list pystr :=
  match l with
  | [] => []
  | x :: r => x :: List.filter (fun y => negb (str_eqb y x)) (distinct r)
  end.

(** ** app/api.py: the operations on the registry *)

Definition add_source_to_series (folder new_source_url : pystr)
    (members : list entry) : result (list entry) :=
  match find_entry folder members with
  | None => Raise (HTTPException 404)
  | Some found_entry =>
      let members := fst (srem found_entry members) in
      let found_entry :=
        if negb (str_in new_source_url (series_urls found_entry))
        then with_urls found_entry
               (sorted (series_urls found_entry ++ [new_source_url]))
        else found_entry in
      Ok (sadd found_entry members)
  end.

Definition remove_source_from_series (folder source_url_to_remove : pystr)
    (members : list entry) : result (list entry) :=
  match find_entry folder members with
  | None => Raise (HTTPException 404)
  | Some found_entry =>
      if negb (str_in source_url_to_remove (series_urls found_entry))
      then Raise (HTTPException 404)
      else
        let members := fst (srem found_entry members) in
        let found_entry :=
          with_urls found_entry
            (list_remove source_url_to_remove (series_urls found_entry)) in
        if nonempty (series_urls found_entry)
        then Ok (sadd found_entry members)
        else Ok members
  end.

Definition remove_watched_url (folder : pystr) (members : list entry)
    : result (list entry) :=
  match find_entry folder members with
  | None => Raise (HTTPException 404)
  | Some entry_to_remove =>
      let '(members, removed) := srem entry_to_remove members in
      if (0 <? removed)%nat then Ok members else Raise (HTTPException 500)
  end.

(** The title scraped for an address, if its site is configured. *)
Definition scraped_title (w : world) (sites_config_list : list site)
    (u : pystr) : option json :=
  match site_for sites_config_list u with
  | Some _ => Some (dict_get (py "title") (page_metadata (answer_for w u)))
  | None => None
  end.

(** The last segment of an address: [u.strip('/').split('/')[-1]]. *)
Definition last_segment (u : pystr) : pystr :=
  List.last (split 47 (strip_chars [47] u)) [].

(** [POST /api/download]: the registry it leaves, the jobs it queues and
    the folder name it answers.  [uuid8] is the random suffix. *)
Definition create_download_job `{PyRuntime} (source_urls : list pystr)
    (req_library : pystr) (req_folder_name : option pystr) (title : json)
    (req_use_flaresolverr : bool) (req_frequency : pystr)
    (w : world) (uuid8 : pystr) (members : list entry)
    : result (list entry * list job * pystr) :=
  match libraries_get req_library with
  | None => Raise (HTTPException 400)
  | Some destination_path =>
      let by_name :=
        match req_folder_name with
        | Some folder =>
            if nonempty folder then find_entry folder members else None
        | None => None
        end in
      let found_entry :=
        match by_name with
        | Some e => Some e
        | None =>
            if truthy title
            then find_entry (sanitize_filename title) members
            else None
        end in
      match found_entry with
      | Some found_entry =>
          let members := fst (srem found_entry members) in
          let updated_urls :=
            sorted (distinct (series_urls found_entry ++ source_urls)) in
          let found_entry :=
            {| series_folder_name := series_folder_name found_entry;
               series_urls := updated_urls;
               library := library found_entry;
               use_flaresolverr := use_flaresolverr found_entry;
               frequency :=
                 if nonempty req_frequency
                    && negb (str_eqb (frequency found_entry) req_frequency)
                 then req_frequency else frequency found_entry |} in
          Ok (sadd found_entry members,
              [RecordCheck (frequency found_entry);
               Discover (series_folder_name found_entry) updated_urls
                 destination_path req_use_flaresolverr],
              series_folder_name found_entry)
      | None =>
          let title :=
            match source_urls with
            | first_url :: _ =>
                if negb (truthy title) then
                  match sites_config w with
                  | Some sites_config_list =>
                      match scraped_title w sites_config_list first_url with
                      | Some scraped => if truthy scraped then scraped else title
                      | None => title
                      end
                  | None => title
                  end
                else title
            | [] => title
            end in
          let folder :=
            if truthy title then Ok (sanitize_filename title)
            else match source_urls with
                 | first_url :: _ =>
                     Ok (sanitize_filename (JStr (last_segment first_url))
                         ++ py "_" ++ uuid8)
                 | [] => Raise IndexError
                 end in
          match folder with
          | Raise e => Raise e
          | Ok folder =>
              let watched_entry :=
                {| series_folder_name := folder;
                   series_urls := sorted source_urls;
                   library := req_library;
                   use_flaresolverr := req_use_flaresolverr;
                   frequency := req_frequency |} in
              Ok (sadd watched_entry members,
                  [Discover folder source_urls destination_path
                     req_use_flaresolverr],
                  folder)
          end
      end
  end.

(** [POST /api/bulk_add] *)
Definition bulk_add (urls : list pystr) (req_library req_frequency : pystr)
    : result (list job) :=
  if negb (nonempty urls) then Raise (HTTPException 400)
  else match libraries_get req_library with
       | None => Raise (HTTPException 400)
       | Some _ => Ok [BulkAdd urls req_library req_frequency]
       end.

(** ** [check_for_updates_by_frequency]: one tick of a pool *)

(** What the task does to the world, in the order it does it. *)
Inductive effect :=
| RedisSet (key : pystr) (value : Z)
| Print (e : event)
| ApplyAsync (batch : list job).

Definition member_of_entry (e : entry) : member :=
  Object [ (py "series_folder_name", JStr (series_folder_name e));
           (py "series_urls", JList (List.map JStr (series_urls e)));
           (py "library", JStr (library e));
           (py "use_flaresolverr", JBool (use_flaresolverr e));
           (py "frequency", JStr (frequency e)) ].

(** [entry.get("frequency", "daily") == frequency] *)
Definition in_pool (pool : pystr) (kv : list (pystr * json)) : bool :=
  eq_str (dict_get_default (py "frequency") (JStr (py "daily")) kv) pool.

(** The body of the loop over the members: the jobs collected so far and
    what was printed, or the exception that leaves the loop.  The handler
    inside the loop takes [JSONDecodeError] and [KeyError] and prints the
    warning. *)
Definition check_member (pool : pystr) (entry_json : member)
    (st : list job * list effect) : result (list job * list effect) :=
  let '(update_tasks, done) := st in
  let skipped :=
    Ok (update_tasks, done ++ [Print (SkippingMalformed entry_json)]) in
  match entry_json with
  | Unparseable _ => skipped
  | Unloadable _ KeyError => skipped
  | Unloadable _ e => Raise e
  | NotAnObject _ => Raise AttributeError
  | Object kv =>
      if in_pool pool kv then
        if dict_has (py "library") kv then
          match libraries_lookup (dict_get (py "library") kv) with
          | Raise e => Raise e
          | Ok None => Ok st
          | Ok (Some destination_path) =>
              if truthy (dict_get (py "series_urls") kv)
                 && nonempty destination_path
                 && truthy (dict_get (py "series_folder_name") kv)
              then Ok (update_tasks
                       ++ [discover_job
                             (dict_get (py "series_folder_name") kv)
                             (dict_get (py "series_urls") kv)
                             destination_path
                             (dict_get_default (py "use_flaresolverr")
                                (JBool true) kv)],
                       done)
              else Ok st
          end
        else skipped
      else Ok st
  end.

Definition last_run_key (pool : pystr) : pystr := py "last_run:" ++ pool.

(** The loop over the members: where it stands when it ends, and the
    exception that ended it early if one did. *)
Fixpoint check_members (pool : pystr) (watched_urls_raw : list member)
    (st : list job * list effect) : list job * list effect * option exn :=
  match watched_urls_raw with
  | [] => (st, None)
  | entry_json :: rest =>
      match check_member pool entry_json st with
      | Ok st' => check_members pool rest st'
      | Raise e => (st, Some e)
      end
  end.

Definition check_for_updates_by_frequency (pool : pystr) (now : Z)
    (watched_urls_raw : list member) : list effect :=
  let start := [RedisSet (last_run_key pool) now; Print (RunningCheck pool)] in
  if negb (nonempty watched_urls_raw) then start
  else
    match check_members pool watched_urls_raw ([], start) with
    | (_, done, Some _) => done ++ [Print (CheckError pool)]
    | (update_tasks, done, None) =>
        if nonempty update_tasks
        then done ++ [ApplyAsync update_tasks;
                      Print (Dispatched (length update_tasks))]
        else done
    end.

(** The jobs a tick puts on the queue. *)
Definition fanned_out (trace : list effect) : list job :=
  flat_map (fun e => match e with ApplyAsync batch => batch | _ => [] end)
    trace.

(** ** [bulk_add_task] *)

(** [found_entry['series_urls'].append(url)] and [.sort()] on the first
    entry of [watched_entries] named [folder]: the list holds the entry
    itself, so the entry read from it later is the changed one. *)
Fixpoint append_source (folder u : pystr) (watched_entries : list entry)
    : list entry :=
  match watched_entries with
  | [] => []
  | e :: r =>
      if str_eqb (series_folder_name e) folder
      then with_urls e (sorted (series_urls e ++ [u])) :: r
      else e :: append_source folder u r
  end.

(** The variables of the loop over the addresses: the Redis set, the
    entries parsed before the loop, the jobs queued. *)
Record bulk := {
  redis_members : list entry;
  watched_entries : list entry;
  bulk_queued : list job
}.

Definition bulk_add_url `{PyRuntime} (req_library req_frequency : pystr)
    (sites_config_list : list site) (w : world)
    (watched_urls_raw : list entry) (st : bulk) (u : pystr) : bulk :=
  if negb (nonempty u) || negb (nonempty (strip u)) then st
  else
    match scraped_title w sites_config_list u with
    | None => st
    | Some title =>
        if negb (truthy title) then st
        else
          let sanitized_title := sanitize_filename title in
          match find_entry sanitized_title (watched_entries st) with
          | Some found_entry =>
              if negb (str_in u (series_urls found_entry)) then
                match List.find (fun raw => bool_decide (raw = found_entry))
                        watched_urls_raw with
                | Some original_entry_json =>
                    {| redis_members :=
                         sadd (with_urls found_entry
                                 (sorted (series_urls found_entry ++ [u])))
                           (fst (srem original_entry_json (redis_members st)));
                       watched_entries :=
                         append_source sanitized_title u (watched_entries st);
                       bulk_queued := bulk_queued st |}
                | None => st
                end
              else st
          | None =>
              let new_entry :=
                {| series_folder_name := sanitized_title;
                   series_urls := sorted [u];
                   library := req_library;
                   use_flaresolverr := true;
                   frequency := req_frequency |} in
              {| redis_members := sadd new_entry (redis_members st);
                 watched_entries := watched_entries st;
                 bulk_queued :=
                   match libraries_get req_library with
                   | Some destination_path =>
                       bulk_queued st
                       ++ [Discover sanitized_title [u] destination_path true]
                   | None => bulk_queued st
                   end |}
          end
    end.

Definition bulk_add_task `{PyRuntime} (urls : list pystr)
    (req_library req_frequency : pystr) (w : world) (members : list entry)
    : list entry * list job :=
  match sites_config w with
  | None => (members, [])
  | Some sites_config_list =>
      let st :=
        fold_left
          (bulk_add_url req_library req_frequency sites_config_list w members)
          urls
          {| redis_members := members; watched_entries := members;
             bulk_queued := [] |} in
      (redis_members st, bulk_queued st)
  end.

(** The directory once the downloads among [jobs] have all completed. *)
Definition archives_added `{PyRuntime} (jobs : list job) (d : series_dir)
    : series_dir :=
  fold_left (fun d j => match j with
                        | Download _ _ chapter_label _ =>
                            completed_download chapter_label d
                        | _ => d
                        end) jobs d.

(** A label the extractor gives. *)
Definition is_chapter_label (label : pystr) : Prop :=
  exists rest, label = py "Chapter " ++ rest.

Abbreviation labelled := (Forall (fun c => is_chapter_label (name c))).

(** The discovery a member is due at a tick of [pool]: one, for an object
    of the pool with a known library, addresses and a folder name. *)
Definition due (pool : pystr) (m : member) : list job :=
  match m with
  | Object kv =>
      if in_pool pool kv then
        match dict_get (py "library") kv with
        | JStr lib =>
            match libraries_get lib with
            | Some destination_path =>
                if truthy (dict_get (py "series_urls") kv)
                   && truthy (dict_get (py "series_folder_name") kv)
                then [discover_job
                        (dict_get (py "series_folder_name") kv)
                        (dict_get (py "series_urls") kv) destination_path
                        (dict_get_default (py "use_flaresolverr")
                           (JBool true) kv)]
                else []
            | None => []
            end
        | _ => []
        end
      else []
  | _ => []
  end.

(** The members a tick of [pool] warns about: text that does not parse,
    and an object of the pool without a library. *)
Definition warned (pool : pystr) (m : member) : bool :=
  match m with
  | Unparseable _ => true
  | Unloadable _ e => match e with KeyError => true | _ => false end
  | NotAnObject _ => false
  | Object kv => in_pool pool kv && negb (dict_has (py "library") kv)
  end.

(** The members that stop a tick of [pool]: text on which [json.loads]
    raises something other than [JSONDecodeError], a value that is not an
    object, and an object of the pool whose library is a list or an
    object. *)
Definition stops (pool : pystr) (m : member) : bool :=
  match m with
  | Unparseable _ => false
  | Unloadable _ e => match e with KeyError => false | _ => true end
  | NotAnObject _ => true
  | Object kv =>
      in_pool pool kv
      && match dict_get (py "library") kv with
         | JList _ | JDict _ => true
         | _ => false
         end
  end.

(** The invariant of the registry: every entry has an address. *)
Definition has_sources (members : list entry) : Prop :=
  Forall (fun e => series_urls e <> []) members.

(** ** app/api.py: what the endpoints show *)

(** [POST /api/get_title_from_url].  The body of [try] ends with the title
    or with an exception; [except Exception] then answers 500 for every
    exception, and the [HTTPException] raised inside [try] is one. *)
Definition get_title_from_url (request_url : pystr) (w : world) : result json :=
  let tried :=
    match sites_config w with
    | None => Raise Exception
    | Some sites_config_list =>
        match scraped_title w sites_config_list request_url with
        | None => Raise (HTTPException 400)
        | Some scraped =>
            if truthy scraped then Ok scraped else Raise (HTTPException 404)
        end
    end in
  match tried with
  | Ok title => Ok title
  | Raise _ => Raise (HTTPException 500)
  end.

(** What the endpoints read besides the registry: the chapter lists
    [process_series] caches under [chapters:<folder>], and the directory
    found at a path. *)
Record shelf := {
  cached_chapters : pystr -> option (list pystr);
  directory : pystr -> option series_dir
}.

(** A row of [GET /api/watched_urls] (the display name of the site left
    out). *)
Record watched := {
  watched_entry : entry;
  missing_chapters_count : nat;
  missing_chapters_list : list pystr
}.

(** The cached labels with no archive in the directory. *)
Definition missing_chapters `{PyRuntime} (all_chapter_names : list pystr)
    (d : series_dir) : list pystr :=
  List.filter
    (fun name => negb (str_in (sanitize_filename (JStr name))
                         (downloaded_cbz_names d)))
    all_chapter_names.

(** The body of the loop over the members: the row, or the exception that
    makes the loop go on to the next member. *)
Definition watched_row `{PyRuntime} (s : shelf) (parsed_entry : entry)
    : result watched :=
  let nothing_missing :=
    {| watched_entry := parsed_entry; missing_chapters_count := 0;
       missing_chapters_list := [] |} in
  match series_urls parsed_entry with
  | [] => Raise IndexError                    (* [series_urls[0]] *)
  | _ :: _ =>
      match cached_chapters s (series_folder_name parsed_entry) with
      | None => Ok nothing_missing
      | Some all_chapter_names =>
          match libraries_get (library parsed_entry) with
          | None => Raise TypeError           (* [os.path.join(None, ...)] *)
          | Some library_path =>
              let series_path :=
                path_join library_path (series_folder_name parsed_entry) in
              match directory s series_path with
              | Some d =>
                  if nonempty all_chapter_names then
                    let missing := missing_chapters all_chapter_names d in
                    Ok {| watched_entry := parsed_entry;
                          missing_chapters_count := length missing;
                          missing_chapters_list := sorted missing |}
                  else Ok nothing_missing
              | None => Ok nothing_missing
              end
          end
      end
  end.

Definition get_watched_urls `{PyRuntime} (s : shelf) (members : list entry)
    : list watched :=
  sorted_by (fun row => series_folder_name (watched_entry row))
    (flat_map (fun parsed_entry =>
                 match watched_row s parsed_entry with
                 | Ok row => [row]
                 | Raise _ => []
                 end) members).


(** ** The schedule *)

(** Times are counted in microseconds, as [datetime] counts them. *)
Definition seconds (n : Z) : Z := (1000000 * n)%Z.
Definition hours (n : Z) : Z := seconds (3600 * n).
Definition days (n : Z) : Z := hours (24 * n).
Definition weeks (n : Z) : Z := days (7 * n).

(** [celery_app.conf.beat_schedule]: the pool each entry checks and its
    period in seconds. *)
Definition beat_schedule : list (pystr * Z) :=
  [ (py "hourly", 3600%Z); (py "half_daily", 43200%Z);
    (py "daily", 86400%Z); (py "weekly", 604800%Z) ].

(** The keys of Redis that hold a time (as the text [isoformat] prints,
    which [fromisoformat] reads back). *)
Abbreviation clock := (gmap pystr Z).

(** The clock after the [redis_client.set] calls of a trace. *)
Definition clock_after (trace : list effect) (c : clock) : clock :=
  fold_left (fun c e => match e with
                        | RedisSet key value => <[key := value]> c
                        | _ => c
                        end) trace c.

Definition record_check_timestamp (pool : pystr) (now : Z) : list effect :=
  if nonempty pool then [RedisSet (last_run_key pool) now] else [].

(** [SCHEDULE_INTERVALS] of [get_schedule_status] *)
Definition SCHEDULE_INTERVALS : list (pystr * Z) :=
  [ (py "hourly", hours 1); (py "half_daily", hours 12);
    (py "daily", days 1); (py "weekly", weeks 1) ].

(** [GET /api/schedule_status]: the next run of each pool, [None] for a
    pool that has not run. *)
Definition get_schedule_status (c : clock) : list (pystr * option Z) :=
  List.map (fun p =>
              (fst p,
               match c !! last_run_key (fst p) with
               | Some last_run_time => Some (last_run_time + snd p)%Z
               | None => None
               end)) SCHEDULE_INTERVALS.

(** ** Notions used in the statements *)

(** A gallery-dl message, and the record the extractor reads from it. *)
Definition message (m : json * json * list (pystr * json)) : json :=
  JList [fst (fst m); snd (fst m); JDict (snd m)].

Definition record_of (m : json * json * list (pystr * json)) : json :=
  JDict (dict_set (py "url") (snd (fst m)) (snd m)).

(** What the extractor keeps true of its two variables: a chapter has an
    address and a label, the first record is nothing or a dict, and it is a
    dict with a key once there is a chapter. *)
Definition extracted (st : list chapter * json) : Prop :=
  Forall (fun c => url c <> [] /\ is_chapter_label (name c)) (fst st)
  /\ (snd st = JNull \/ exists kv, snd st = JDict kv)
  /\ (fst st <> [] -> truthy (snd st) = true).

(** The chapters one source contributes to a discovery. *)
Definition source_chapters `{PyRuntime} (w : world) (series_url : pystr)
    : list chapter :=
  if (returncode (answer_for w series_url) =? 0)%Z then
    match extract_chapters_from_json (stdout (answer_for w series_url)) with
    | Ok (chapters_from_source, _) => chapters_from_source
    | Raise _ => []
    end
  else [].

(** What a source makes the discovery print. *)
Definition source_events (w : world) (series_url : pystr) : list event :=
  Discovering series_url
  :: (if (returncode (answer_for w series_url) =? 0)%Z then []
      else [DiscoveryFailed series_url]).

(** What the download task leaves of the directory [d] of the series in
    [d'] when it works on the chapter [chapter_label]: [series.json], the
    cover and the entries it does not work with are as they were; the
    working directory is gone; an archive of the chapter that was there is
    still there.  When it completed, the archive is there and [<name>.zip]
    is not; when it did not, it has made no archive and removed no
    [<name>.zip]. *)
Definition worked_on `{PyRuntime} (chapter_label : pystr) (completed : bool)
    (d d' : series_dir) : Prop :=
  let safe_chapter_name := sanitize_filename (JStr chapter_label) in
  let zip := safe_chapter_name ++ py ".zip" in
  let cbz := safe_chapter_name ++ py ".cbz" in
  series_json d' = series_json d
  /\ cover_jpg d' = cover_jpg d
  /\ (forall f, f <> safe_chapter_name -> f <> zip -> f <> cbz ->
                (In f (files d') <-> In f (files d)))
  /\ ~ In safe_chapter_name (files d')
  /\ (In cbz (files d) -> In cbz (files d'))
  /\ (if completed then In cbz (files d') /\ ~ In zip (files d')
      else (In cbz (files d') -> In cbz (files d))
           /\ (In zip (files d) -> In zip (files d'))).

Definition is_completed (e : task_end) : bool :=
  match e with Done Completed => true | _ => false end.

(** The labels of the downloads among the jobs. *)
Definition download_labels (jobs : list job) : list pystr :=
  flat_map (fun j => match j with
                     | Download _ _ chapter_label _ => [chapter_label]
                     | _ => []
                     end) jobs.

(** The label of the chapter a job downloads. *)
Definition job_label (j : job) : pystr :=
  match j with
  | Download _ _ chapter_label _ => chapter_label
  | _ => []
  end.

(** [e'] watches the series of [e] with at least its addresses. *)
Definition covers (e e' : entry) : Prop :=
  series_folder_name e' = series_folder_name e
  /\ library e' = library e
  /\ use_flaresolverr e' = use_flaresolverr e
  /\ frequency e' = frequency e
  /\ incl (series_urls e) (series_urls e').

(** What the bulk import keeps true while it goes through the addresses:
    every series of [members] is still covered by the set, and the jobs
    queued are discoveries of one configured address of [urls] each, under
    the sanitized title of its page. *)
Definition importing `{PyRuntime} (urls : list pystr) (req_library : pystr)
    (w : world) (members : list entry) (st : bulk) : Prop :=
  (forall e, In e members ->
     exists e', In e' (redis_members st) /\ covers e e')
  /\ Forall (fun j =>
               exists u destination_path,
                 j = Discover
                       (sanitize_filename
                          (dict_get (py "title")
                             (page_metadata (answer_for w u))))
                       [u] destination_path true
                 /\ In u urls /\ strip u <> []
                 /\ libraries_get req_library = Some destination_path)
       (bulk_queued st).

(** What the bulk import keeps true of the entries it adds: an entry parsed
    before the loop continues a series of [members], and an entry of the set
    continues one or has its discovery queued. *)
Definition accounted (destination_path : pystr) (members : list entry)
    (st : bulk) : Prop :=
  (forall x, In x (watched_entries st) ->
     exists e, In e members /\ covers e x)
  /\ (forall e', In e' (redis_members st) ->
        (exists e, In e members /\ covers e e')
        \/ In (Discover (series_folder_name e') (series_urls e')
                 destination_path true) (bulk_queued st)).

(** The label of the chapter numbered [z]. *)
Definition numbered_label (z : Z) : pystr := chapter_name (str_of_Z z).

(** [a < b] on [str] *)
Definition str_ltb (a b : pystr) : bool := str_leb a b && negb (str_leb b a).

(** A name of ASCII letters, digits, spaces, periods, underscores and
    hyphens that neither starts nor ends with a space: a name
    [sanitize_filename] has nothing to change in. *)
Definition plain_char (c : N) : bool :=
  in_range 48 57 c || in_range 65 90 c || in_range 97 122 c
  || existsb (N.eqb c) [32; 46; 95; 45].

Definition plain_name (s : pystr) : bool :=
  forallb plain_char s
  && match s with c :: _ => negb (c =? 32) | [] => true end
  && match rev s with c :: _ => negb (c =? 32) | [] => true end.

(** The labels of [steps] consecutive chapter numbers from [z] on are
    plain names in strictly increasing order. *)
Fixpoint labels_increase (steps : nat) (z : Z) : bool :=
  match steps with
  | O => true
  | S steps' =>
      str_ltb (numbered_label z) (numbered_label (z + 1))
      && plain_name (numbered_label z)
      && plain_name (numbered_label (z + 1))
      && labels_increase steps' (z + 1)
  end.

(** No two entries of the registry share a folder name. *)
Definition unique_names (members : list entry) : Prop :=
  NoDup (List.map series_folder_name members).

(** The order of the rows of the listing. *)
Definition folder_le (a b : watched) : Prop :=
  str_le (series_folder_name (watched_entry a))
         (series_folder_name (watched_entry b)).

(** ** Worlds for the examples *)

(** Every source answers with one record, chapter 1 at [http://h/c1]; no
    site is configured; no anti-bot session can be had. *)
Definition one_chapter_world : world :=
  {| sites_config := Some [];
     answer_for := fun _ =>
       {| flaresolverr := None;
          returncode := 0;
          stdout :=
            {| whole := Loaded (JDict [ (py "url", JStr (py "http://h/c1"));
                                        (py "chapter", JInt 1) ]);
               lines := [] |};
          page_metadata := [] |};
     scraped_cover := fun _ => JNull;
     cover_download := fun _ => false |}.

(** Three watched series: two checked daily, one weekly. *)
Definition three_watched : list entry :=
  [ {| series_folder_name := py "A"; series_urls := [py "http://h/a"];
       library := py "manga"; use_flaresolverr := true;
       frequency := py "daily" |};
    {| series_folder_name := py "B"; series_urls := [py "http://h/b"];
       library := py "comics"; use_flaresolverr := false;
       frequency := py "weekly" |};
    {| series_folder_name := py "C";
       series_urls := [py "http://h/c"; py "http://k/c"];
       library := py "manga"; use_flaresolverr := true;
       frequency := py "daily" |} ].

(** The first of the three. *)
Definition series_A : entry :=
  {| series_folder_name := py "A"; series_urls := [py "http://h/a"];
     library := py "manga"; use_flaresolverr := true;
     frequency := py "daily" |}.


(** Two sources: FlareSolverr gives no session for the first, and the
    second answers with chapter 1. *)
Definition first_source_blocked : world :=
  {| sites_config := Some [];
     answer_for := fun u =>
       {| flaresolverr :=
            if str_eqb u (py "http://h/s1") then None
            else Some {| session_args := [py "--user-agent"; py "UA"];
                         cookie_file := py "/tmp/c.txt";
                         user_agent := py "UA";
                         session_cookies := [] |};
          returncode := 0;
          stdout :=
            {| whole := Loaded (JDict [ (py "url", JStr (py "http://k/c1"));
                                        (py "chapter", JInt 1) ]);
               lines := [] |};
          page_metadata := [] |};
     scraped_cover := fun _ => JNull;
     cover_download := fun _ => false |}.

(** One configured site, where every page has the title T. *)
Definition same_title_world : world :=
  {| sites_config := Some [ {| hostname := py "h.org" |} ];
     answer_for := fun _ =>
       {| flaresolverr := None;
          returncode := 0;
          stdout := {| whole := Undecodable; lines := [Undecodable] |};
          page_metadata := [ (py "title", JStr (py "T")) ] |};
     scraped_cover := fun _ => JNull;
     cover_download := fun _ => false |}.

(** * Properties *)

(** ** Strings *)

Lemma str_eqb_eq (a b : pystr) : str_eqb a b = true <-> a = b.
Proof.
  revert b; induction a as [|x a IH]; intros [|y b]; simpl;
    try (split; [discriminate | discriminate]); try tauto.
  rewrite andb_true_iff, N.eqb_eq, IH.
  split; [intros [-> ->]; reflexivity | intros [= -> ->]; auto].
Qed.

Lemma str_eqb_refl (a : pystr) : str_eqb a a = true.
Proof. apply str_eqb_eq; reflexivity. Qed.

Lemma str_eqb_neq (a b : pystr) : str_eqb a b = false <-> a <> b.
Proof.
  rewrite <- str_eqb_eq. destruct (str_eqb a b); split; congruence.
Qed.

Lemma str_in_In (x : pystr) (l : list pystr) : str_in x l = true <-> In x l.
Proof.
  unfold str_in. rewrite existsb_exists. split.
  - intros (y & Hy & E). apply str_eqb_eq in E. subst. exact Hy.
  - intros Hx. exists x. split; [exact Hx | apply str_eqb_refl].
Qed.

Lemma str_in_false (x : pystr) (l : list pystr) :
  str_in x l = false <-> ~ In x l.
Proof.
  rewrite <- str_in_In. destruct (str_in x l); split; congruence.
Qed.

Lemma dropwhile_split {A} (p : A -> bool) (l : list A) :
  exists a, l = a ++ dropwhile p l /\ Forall (fun x => p x = true) a.
Proof.
  induction l as [|x l (a & E & Ha)]; simpl.
  - exists []; split; [reflexivity | constructor].
  - destruct (p x) eqn:Px.
    + exists (x :: a); split; [simpl; congruence | constructor; assumption].
    + exists []; split; [reflexivity | constructor].
Qed.

Lemma dropwhile_head {A} (p : A -> bool) (l : list A) (c : A) :
  head (dropwhile p l) = Some c -> p c = false.
Proof.
  induction l as [|x l IH]; simpl; [discriminate |].
  destruct (p x) eqn:Px; [exact IH |]. simpl. intros [= <-]. exact Px.
Qed.

Lemma last_rev_head {A} (l : list A) : last (rev l) = head l.
Proof.
  destruct l as [|x l]; [reflexivity |]. simpl. apply last_snoc.
Qed.

Lemma rstrip_by_split (p : N -> bool) (s : pystr) :
  exists a, s = rstrip_by p s ++ a /\ Forall (fun x => p x = true) a.
Proof.
  unfold rstrip_by. destruct (dropwhile_split p (rev s)) as (a & E & Ha).
  exists (rev a). split.
  - rewrite <- rev_app_distr, <- E, rev_involutive. reflexivity.
  - apply List.Forall_rev. exact Ha.
Qed.

Lemma rstrip_by_last (p : N -> bool) (s : pystr) (c : N) :
  last (rstrip_by p s) = Some c -> p c = false.
Proof.
  unfold rstrip_by. rewrite last_rev_head. apply dropwhile_head.
Qed.

Lemma rstrip_by_head (p : N -> bool) (s : pystr) (c : N) :
  head (rstrip_by p s) = Some c -> head s = Some c.
Proof.
  destruct (rstrip_by_split p s) as (a & E & _).
  intros Hc. rewrite E. destruct (rstrip_by p s); [discriminate | exact Hc].
Qed.

(** [strip] takes whitespace off both ends and nothing else. *)
Lemma strip_split `{PyRuntime} (s : pystr) :
  exists lead trail,
    s = lead ++ strip s ++ trail
    /\ Forall (fun c => isspace c = true) lead
    /\ Forall (fun c => isspace c = true) trail.
Proof.
  unfold strip, lstrip_by.
  destruct (dropwhile_split isspace s) as (lead & E1 & H1).
  destruct (rstrip_by_split isspace (dropwhile isspace s)) as (trail & E2 & H2).
  exists lead, trail. split; [| split; assumption].
  rewrite <- E2. exact E1.
Qed.

Lemma strip_ends `{PyRuntime} (s : pystr) (c : N) :
  head (strip s) = Some c \/ last (strip s) = Some c -> isspace c = false.
Proof.
  unfold strip, lstrip_by. intros [Hc | Hc].
  - apply rstrip_by_head in Hc. eapply dropwhile_head; eassumption.
  - eapply rstrip_by_last; eassumption.
Qed.

Lemma strip_incl `{PyRuntime} (s : pystr) (c : N) : In c (strip s) -> In c s.
Proof.
  destruct (strip_split s) as (lead & trail & E & _).
  intros Hc. rewrite E. apply in_or_app. right. apply in_or_app. left.
  exact Hc.
Qed.

Lemma safe_char_not_separator `{PyRuntime} (c : N) :
  safe_char c = true -> c <> 47 /\ c <> 92 /\ c <> 0.
Proof.
  intros Hc. repeat split; intros ->; vm_compute in Hc; discriminate.
Qed.

(** ** [sanitize_filename] *)

Lemma sanitize_filename_chars `{PyRuntime} (s : pystr) (c : N) :
  In c (sanitize_filename (JStr s)) -> In c s /\ safe_char c = true.
Proof.
  simpl. intros Hc. apply strip_incl in Hc.
  apply List.filter_In in Hc. exact Hc.
Qed.

(** C10. [sanitize_filename] is defined on every value: it is the empty
    string on a value that is not a string, and on a string it is the
    string's characters that are alphanumeric or among space, [.], [_], [-],
    in their order, without the whitespace at either end; no path separator
    (nor the null character) is in it. *)
Theorem sanitize_filename_safe `{PyRuntime} (v : json) :
  match v with
  | JStr s =>
      (exists lead trail,
          List.filter safe_char s = lead ++ sanitize_filename v ++ trail
          /\ Forall (fun c => isspace c = true) lead
          /\ Forall (fun c => isspace c = true) trail)
      /\ (forall c, head (sanitize_filename v) = Some c
                    \/ last (sanitize_filename v) = Some c ->
                    isspace c = false)
      /\ (forall c, In c (sanitize_filename v) ->
                    In c s /\ (isalnum c = true \/ In c [32; 46; 95; 45]))
      /\ ~ In 47 (sanitize_filename v)
      /\ ~ In 92 (sanitize_filename v)
      /\ ~ In 0 (sanitize_filename v)
  | _ => sanitize_filename v = []
  end.
Proof.
  destruct v as [| | | |s| |]; try reflexivity.
  split; [apply strip_split |].
  split; [apply strip_ends |].
  split.
  - intros c Hc. apply sanitize_filename_chars in Hc as [Hs Hc].
    split; [exact Hs |]. unfold safe_char in Hc.
    apply orb_true_iff in Hc as [Hc | Hc]; [left; exact Hc | right].
    apply existsb_exists in Hc as (x & Hx & E). apply N.eqb_eq in E.
    subst. exact Hx.
  - repeat split; intros Hc; apply sanitize_filename_chars in Hc as [_ Hc];
      apply safe_char_not_separator in Hc; tauto.
Qed.

(** ** The label of a chapter *)

Lemma split_none (c : N) (s : pystr) : ~ In c s -> split c s = [s].
Proof.
  induction s as [|x s IH]; simpl; [reflexivity |]. intros Hn.
  destruct (N.eqb_spec x c) as [-> | _]; [tauto |].
  rewrite IH by tauto. reflexivity.
Qed.

Lemma split_at_first (c : N) (a r : pystr) :
  ~ In c a -> split c (a ++ c :: r) = a :: split c r.
Proof.
  induction a as [|x a IH]; simpl; intros Hn.
  - rewrite N.eqb_refl. reflexivity.
  - destruct (N.eqb_spec x c) as [-> | _]; [tauto |].
    rewrite IH by tauto. reflexivity.
Qed.

Lemma split_nonempty (c : N) (s : pystr) : split c s <> [].
Proof.
  destruct s as [|x s]; simpl; [discriminate |].
  destruct (x =? c); [discriminate |]. destruct (split c s); discriminate.
Qed.

Lemma first_occurrence (c : N) (s : pystr) :
  In c s -> exists a r, s = a ++ c :: r /\ ~ In c a.
Proof.
  induction s as [|x s IH]; simpl; [tauto |]. intros Hc.
  destruct (N.eq_dec x c) as [-> | Hx].
  - exists [], s. split; [reflexivity | simpl; tauto].
  - destruct IH as (a & r & -> & Ha); [tauto |].
    exists (x :: a), r. split; [reflexivity | simpl; tauto].
Qed.

Lemma count_occ_after_first (c : N) (a r : pystr) :
  ~ In c a ->
  count_occ N.eq_dec (a ++ c :: r) c = S (count_occ N.eq_dec r c).
Proof.
  intros Ha. rewrite count_occ_app, count_occ_cons_eq by reflexivity.
  apply (count_occ_not_In N.eq_dec) in Ha. rewrite Ha. reflexivity.
Qed.

Lemma zfill_digits (width : nat) (s : pystr) :
  forallb isdigit s = true -> zfill width s = repeat 48 (width - length s) ++ s.
Proof.
  unfold zfill. intros Hs. destruct (Nat.leb_spec width (length s)) as [Hl | Hl].
  - replace (width - length s)%nat with 0%nat by lia. reflexivity.
  - destruct s as [|c r]; [rewrite app_nil_r; reflexivity |].
    simpl in Hs. apply andb_true_iff in Hs as [Hc _].
    destruct (N.eqb_spec c 43) as [-> | _]; [discriminate |].
    destruct (N.eqb_spec c 45) as [-> | _]; [discriminate |].
    reflexivity.
Qed.

Lemma zfill_length (width : nat) (s : pystr) :
  length (zfill width s) = Nat.max width (length s).
Proof.
  unfold zfill. destruct (Nat.leb_spec width (length s)) as [Hl | Hl]; [lia |].
  destruct s as [|c r]; simpl in *.
  - rewrite repeat_length. lia.
  - destruct ((c =? 43) || (c =? 45)); simpl;
      rewrite length_app, repeat_length; simpl; lia.
Qed.

(** C4. The label of an ordinal is ["Chapter "] followed by: the ordinal
    filled with zeros to four characters when it has no decimal point; its
    integer part filled with zeros to four characters, the point and its
    fractional part as it is when it has one decimal point; the ordinal as
    it is when it has more.  Filling puts the zeros in front of the digits
    and leaves four or more characters alone. *)
Theorem chapter_name_padding (chapter_str : pystr) :
  chapter_name chapter_str = py "Chapter " ++ padded_name chapter_str
  /\ match count_occ N.eq_dec chapter_str 46 with
     | 0%nat => padded_name chapter_str = zfill 4 chapter_str
     | 1%nat =>
         exists int_part dec_part,
           chapter_str = int_part ++ [46] ++ dec_part
           /\ ~ In 46 int_part /\ ~ In 46 dec_part
           /\ padded_name chapter_str = zfill 4 int_part ++ [46] ++ dec_part
     | _ => padded_name chapter_str = chapter_str
     end
  /\ (forall digits, forallb isdigit digits = true ->
        zfill 4 digits = repeat 48 (4 - length digits) ++ digits)
  /\ (forall s, length (zfill 4 s) = Nat.max 4 (length s))
  /\ chapter_name (py "15") = py "Chapter 0015"
  /\ chapter_name (py "15.1") = py "Chapter 0015.1"
  /\ chapter_name (py "7") = py "Chapter 0007".
Proof.
  split; [reflexivity |].
  split; [| split; [apply zfill_digits | split; [apply zfill_length |
            repeat split; reflexivity]]].
  unfold padded_name.
  destruct (count_occ N.eq_dec chapter_str 46) as [|[|n]] eqn:Hn.
  - apply count_occ_not_In in Hn. rewrite split_none by exact Hn. reflexivity.
  - assert (Hin : In 46 chapter_str) by (apply (count_occ_In N.eq_dec); lia).
    destruct (first_occurrence _ _ Hin) as (a & r & -> & Ha).
    rewrite count_occ_after_first in Hn by exact Ha.
    assert (Hr : ~ In 46 r) by (apply (count_occ_not_In N.eq_dec); lia).
    exists a, r. rewrite split_at_first, split_none by assumption.
    repeat split; assumption.
  - assert (Hin : In 46 chapter_str) by (apply (count_occ_In N.eq_dec); lia).
    destruct (first_occurrence _ _ Hin) as (a & r & -> & Ha).
    rewrite count_occ_after_first in Hn by exact Ha.
    assert (Hin' : In 46 r) by (apply (count_occ_In N.eq_dec); lia).
    destruct (first_occurrence _ _ Hin') as (b & r' & -> & Hb).
    rewrite !split_at_first by assumption.
    destruct (split 46 r') eqn:E; [apply split_nonempty in E; contradiction |].
    reflexivity.
Qed.

(** ** Deduplication, renaming and order of the chapters *)

Lemma filter_filter {A} (f g : A -> bool) (l : list A) :
  List.filter f (List.filter g l) = List.filter (fun x => g x && f x) l.
Proof.
  induction l as [|x l IH]; simpl; [reflexivity |].
  destruct (g x); simpl; [destruct (f x) |]; rewrite IH; reflexivity.
Qed.

Lemma dict_set_keys {V} (k : pystr) (v : V) (d : list (pystr * V)) :
  List.map fst (dict_set k v d)
  = if str_in k (List.map fst d) then List.map fst d
    else List.map fst d ++ [k].
Proof.
  induction d as [|[k' v'] d IH]; simpl; [reflexivity |].
  unfold str_in in *. simpl.
  destruct (str_eqb k' k) eqn:E.
  - apply str_eqb_eq in E. subst. rewrite str_eqb_refl. reflexivity.
  - simpl. rewrite IH.
    assert (E' : str_eqb k k' = false).
    { apply str_eqb_neq. apply str_eqb_neq in E. congruence. }
    rewrite E'. simpl. destruct (existsb (str_eqb k) (List.map fst d));
      reflexivity.
Qed.

Lemma dict_set_values {V} (k : pystr) (v : V) (d : list (pystr * V)) (p : pystr * V) :
  In p (dict_set k v d) -> p = (k, v) \/ In p d.
Proof.
  induction d as [|[k' v'] d IH]; simpl.
  - intros [<- | []]. left. reflexivity.
  - destruct (str_eqb k' k) eqn:E; simpl.
    + apply str_eqb_eq in E. subst. intros [<- | Hp]; auto.
    + intros [<- | Hp]; auto. destruct (IH Hp); auto.
Qed.

Lemma by_url_keys (chapters : list chapter) (d : list (pystr * chapter)) :
  List.map fst (by_url chapters d)
  = List.map fst d
    ++ List.filter (fun u => negb (str_in u (List.map fst d)))
         (distinct (List.map url chapters)).
Proof.
  revert d; induction chapters as [|c r IH]; intros d; simpl.
  - rewrite app_nil_r. reflexivity.
  - unfold by_url in IH. rewrite IH, dict_set_keys.
    destruct (str_in (url c) (List.map fst d)) eqn:E; simpl.
    + f_equal. rewrite filter_filter. apply filter_ext. intros u.
      destruct (str_eqb u (url c)) eqn:Eu; [| reflexivity].
      apply str_eqb_eq in Eu. subst. rewrite E. reflexivity.
    + rewrite <- app_assoc. simpl. do 2 f_equal.
      rewrite filter_filter. apply filter_ext. intros u.
      unfold str_in. rewrite existsb_app. simpl. rewrite orb_false_r.
      rewrite negb_orb. apply andb_comm.
Qed.

Lemma by_url_values (chapters : list chapter) (d : list (pystr * chapter))
    (p : pystr * chapter) :
  In p (by_url chapters d) ->
  In p d \/ (In (snd p) chapters /\ fst p = url (snd p)).
Proof.
  revert d; induction chapters as [|c r IH]; intros d; simpl; [auto |].
  intros Hp. destruct (IH _ Hp) as [Hd | [Hr E]]; [| auto].
  destruct (dict_set_values _ _ _ _ Hd) as [-> | Hd']; simpl; auto.
Qed.

Lemma distinct_In (x : pystr) (l : list pystr) : In x (distinct l) <-> In x l.
Proof.
  induction l as [|y l IH]; simpl; [tauto |].
  rewrite List.filter_In, IH, negb_true_iff, str_eqb_neq.
  destruct (str_dec y x); intuition congruence.
Qed.

Lemma distinct_NoDup (l : list pystr) : NoDup (distinct l).
Proof.
  induction l as [|y l IH]; simpl; constructor.
  - rewrite list_elem_of_In, List.filter_In, negb_true_iff, str_eqb_neq. tauto.
  - apply NoDup_ListNoDup. apply List.NoDup_filter.
    apply NoDup_ListNoDup. exact IH.
Qed.

Lemma unique_by_url_urls (chapters : list chapter) :
  List.map url (unique_by_url chapters) = distinct (List.map url chapters).
Proof.
  unfold unique_by_url.
  transitivity (List.map fst (by_url chapters [])).
  - rewrite List.map_map. apply map_ext_in. intros p Hp.
    destruct (by_url_values _ _ _ Hp) as [[] | [_ E]]. symmetry. exact E.
  - rewrite by_url_keys. simpl. clear.
    induction (distinct (List.map url chapters)) as [|x l IH]; simpl; congruence.
Qed.

Lemma unique_by_url_In (chapters : list chapter) (c : chapter) :
  In c (unique_by_url chapters) -> In c chapters.
Proof.
  unfold unique_by_url. intros Hc.
  apply in_map_iff in Hc as (p & <- & Hp).
  destruct (by_url_values _ _ _ Hp) as [[] | [H _]]. exact H.
Qed.

Lemma rename_loop (chapters : list chapter) (done : list chapter)
    (before : list pystr) (seen_names : gmap pystr nat) :
  (forall n, default 0%nat (seen_names !! n) = count_occ str_dec before n) ->
  fst (fold_left rename_step chapters (done, seen_names))
  = done ++ renamed before chapters.
Proof.
  revert done before seen_names.
  induction chapters as [|c r IH]; intros done before seen_names Hseen; simpl.
  - rewrite app_nil_r. reflexivity.
  - rewrite (IH _ (before ++ [name c])).
    + rewrite <- app_assoc. simpl. rewrite Hseen. reflexivity.
    + intros n. rewrite count_occ_app. simpl.
      destruct (str_dec (name c) n) as [<- | Hn].
      * rewrite lookup_insert_eq. simpl. rewrite Hseen. lia.
      * rewrite lookup_insert_ne by exact Hn. rewrite Hseen. lia.
Qed.

Lemma final_chapters_renamed (chapters : list chapter) :
  final_chapters chapters = renamed [] chapters.
Proof.
  unfold final_chapters. rewrite (rename_loop _ [] []); [reflexivity |].
  intros n. rewrite lookup_empty. reflexivity.
Qed.

Lemma renamed_lookup (chapters : list chapter) (before : list pystr)
    (i : nat) (chap : chapter) :
  chapters !! i = Some chap ->
  renamed before chapters !! i
  = Some {| url := url chap;
            name := part_name (name chap)
                      (count_occ str_dec
                         (before ++ List.map name (take i chapters))
                         (name chap)) |}.
Proof.
  revert before i; induction chapters as [|c r IH]; intros before i;
    [discriminate |].
  destruct i as [|i]; simpl.
  - intros [= ->]. rewrite app_nil_r. reflexivity.
  - intros Hi. rewrite (IH _ _ Hi), <- app_assoc. reflexivity.
Qed.

Lemma renamed_urls (chapters : list chapter) (before : list pystr) :
  List.map url (renamed before chapters) = List.map url chapters.
Proof.
  revert before; induction chapters as [|c r IH]; intros before; simpl;
    [reflexivity |]. rewrite IH. reflexivity.
Qed.

Lemma str_leb_total (a b : pystr) : str_leb a b = false -> str_leb b a = true.
Proof.
  revert b; induction a as [|x a IH]; intros [|y b]; simpl; try discriminate;
    try reflexivity.
  intros H. apply orb_false_iff in H as [H1 H2].
  apply N.ltb_ge in H1. destruct (N.eqb_spec x y) as [-> | Hxy].
  - simpl in H2. rewrite N.eqb_refl, (IH _ H2). apply orb_true_r.
  - assert (E : (y <? x) = true) by (apply N.ltb_lt; lia).
    rewrite E. reflexivity.
Qed.

Lemma insert_by_sorted (x : chapter) (l : list chapter) :
  Sorted name_le l -> Sorted name_le (insert_by name x l).
Proof.
  induction l as [|y l IH]; simpl; intros Hl.
  - repeat constructor.
  - destruct (str_leb (name x) (name y)) eqn:E.
    + constructor; [exact Hl | constructor; exact E].
    + inversion Hl as [|? ? Hl' Hhd]; subst. constructor; [auto |].
      apply str_leb_total in E.
      destruct l as [|z l]; simpl; [constructor; exact E |].
      destruct (str_leb (name x) (name z)); constructor; [exact E |].
      inversion Hhd; assumption.
Qed.

Lemma insert_by_perm {A} (key : A -> pystr) (x : A) (l : list A) :
  Permutation (insert_by key x l) (x :: l).
Proof.
  induction l as [|y l IH]; simpl; [reflexivity |].
  destruct (str_leb (key x) (key y)); [reflexivity |].
  rewrite IH. apply perm_swap.
Qed.

Lemma sorted_by_sorted (l : list chapter) : Sorted name_le (sorted_by name l).
Proof.
  induction l as [|x l IH]; simpl; [constructor | apply insert_by_sorted, IH].
Qed.

Lemma sorted_by_perm {A} (key : A -> pystr) (l : list A) :
  Permutation (sorted_by key l) l.
Proof.
  induction l as [|x l IH]; simpl; [reflexivity |].
  rewrite insert_by_perm, IH. reflexivity.
Qed.

Lemma dict_set_fresh {V} (k : pystr) (v : V) (d : list (pystr * V)) :
  ~ In k (List.map fst d) -> dict_set k v d = d ++ [(k, v)].
Proof.
  induction d as [|[k' v'] d IH]; simpl; [reflexivity |]. intros Hk.
  destruct (str_eqb k' k) eqn:E.
  - apply str_eqb_eq in E. tauto.
  - rewrite IH by tauto. reflexivity.
Qed.

Lemma by_url_fresh (chapters : list chapter) (d : list (pystr * chapter)) :
  NoDup (List.map fst d ++ List.map url chapters) ->
  by_url chapters d = d ++ List.map (fun c => (url c, c)) chapters.
Proof.
  revert d; induction chapters as [|c r IH]; intros d Hd; simpl.
  - rewrite app_nil_r. reflexivity.
  - apply NoDup_ListNoDup in Hd.
    assert (Hc : ~ In (url c) (List.map fst d)).
    { apply List.NoDup_remove_2 in Hd. intros Hin. apply Hd.
      apply in_or_app. left. exact Hin. }
    rewrite dict_set_fresh by exact Hc. unfold by_url in IH. rewrite IH.
    + rewrite <- app_assoc. reflexivity.
    + apply NoDup_ListNoDup. rewrite List.map_app, <- app_assoc. exact Hd.
Qed.

Lemma unique_by_url_id (chapters : list chapter) :
  NoDup (List.map url chapters) -> unique_by_url chapters = chapters.
Proof.
  intros Hn. unfold unique_by_url. rewrite by_url_fresh by exact Hn.
  simpl. rewrite List.map_map. simpl. apply List.map_id.
Qed.

(** C3. The chapters gathered from the sources are first reduced to one
    for each url, in the order the urls were first met; then a chapter
    whose label was met [k] times before it gets [" (Part k+1)"] appended,
    so that two urls with one label give the label and the label with
    [" (Part 2)"]; and the result is sorted by label.  The ordinals 15, 15.1
    and 2 from three urls give ["Chapter 0002"], ["Chapter 0015"],
    ["Chapter 0015.1"]. *)
Theorem chapters_deduplicated_renamed_sorted (all_discovered : list chapter) :
  let deduplicated := unique_by_url all_discovered in
  unique_chapters all_discovered = sorted_by name (final_chapters deduplicated)
  /\ List.map url deduplicated = distinct (List.map url all_discovered)
  /\ NoDup (List.map url deduplicated)
  /\ (forall chap, In chap deduplicated -> In chap all_discovered)
  /\ List.map url (final_chapters deduplicated) = List.map url deduplicated
  /\ (forall i chap,
        deduplicated !! i = Some chap ->
        final_chapters deduplicated !! i
        = Some {| url := url chap;
                  name := part_name (name chap)
                            (count_occ str_dec
                               (List.map name (take i deduplicated))
                               (name chap)) |})
  /\ (forall label, part_name label 0 = label
                    /\ part_name label 1 = label ++ py " (Part 2)"
                    /\ part_name label 2 = label ++ py " (Part 3)")
  /\ Sorted name_le (unique_chapters all_discovered)
  /\ Permutation (unique_chapters all_discovered) (final_chapters deduplicated)
  /\ (forall u1 u2 label,
        u1 <> u2 ->
        unique_chapters [ {| url := u1; name := label |};
                          {| url := u2; name := label |} ]
        = [ {| url := u1; name := label |};
            {| url := u2; name := label ++ py " (Part 2)" |} ])
  /\ (forall u1 u2 u3,
        u1 <> u2 -> u1 <> u3 -> u2 <> u3 ->
        List.map name
          (unique_chapters [ {| url := u1; name := chapter_name (py "15") |};
                             {| url := u2; name := chapter_name (py "15.1") |};
                             {| url := u3; name := chapter_name (py "2") |} ])
        = [py "Chapter 0002"; py "Chapter 0015"; py "Chapter 0015.1"]).
Proof.
  intros deduplicated. subst deduplicated.
  split; [reflexivity |].
  split; [apply unique_by_url_urls |].
  split; [rewrite unique_by_url_urls; apply distinct_NoDup |].
  split; [apply unique_by_url_In |].
  split; [rewrite final_chapters_renamed; apply renamed_urls |].
  split; [intros i chap Hi; rewrite final_chapters_renamed;
          apply (renamed_lookup _ [] _ _ Hi) |].
  split; [intros label; repeat split; reflexivity |].
  split; [apply sorted_by_sorted |].
  split; [apply sorted_by_perm |].
  split.
  - intros u1 u2 label Hu. unfold unique_chapters.
    rewrite unique_by_url_id.
    + rewrite final_chapters_renamed. simpl.
      destruct (str_dec label label) as [_ | []]; [| reflexivity].
      change (part_name label 1) with (label ++ py " (Part 2)").
      change (part_name label 0) with label.
      assert (Hl : str_leb label (label ++ py " (Part 2)") = true).
      { clear. induction label as [|x l IH]; simpl; [reflexivity |].
        rewrite N.eqb_refl, IH. apply orb_true_r. }
      simpl. rewrite Hl. reflexivity.
    + simpl. repeat constructor; rewrite ?list_elem_of_In; simpl;
        intuition congruence.
  - intros u1 u2 u3 H12 H13 H23. unfold unique_chapters.
    rewrite unique_by_url_id.
    + reflexivity.
    + simpl. repeat constructor; rewrite ?list_elem_of_In; simpl;
        intuition congruence.
Qed.

(** ** The labels the pipeline gives *)

Lemma Ok_inj {A} (a b : A) : Ok a = Ok b -> a = b.
Proof. intros [= ->]. reflexivity. Qed.

Lemma fold_left_invariant {A S} (P : S -> Prop) (step : S -> A -> S)
    (l : list A) (st : S) :
  (forall st x, P st -> P (step st x)) -> P st -> P (fold_left step l st).
Proof.
  intros Hstep. revert st. induction l as [|x r IH]; intros st Hst; simpl;
    [exact Hst | apply IH, Hstep, Hst].
Qed.

Lemma for_each_invariant {A S} (P : S -> Prop) (body : A -> S -> result S)
    (l : list A) (st st' : S) :
  (forall x st st', P st -> body x st = Ok st' -> P st') ->
  P st -> for_each body l st = Ok st' -> P st'.
Proof.
  intros Hbody. revert st. induction l as [|x r IH]; intros st Hst; simpl.
  - intros E. apply Ok_inj in E. subst st'. exact Hst.
  - destruct (body x st) as [st1 |] eqn:E; [| discriminate].
    apply IH. eapply Hbody; eassumption.
Qed.

Lemma dict_get_nil (k : pystr) : dict_get k [] = JNull.
Proof. reflexivity. Qed.

Lemma process_chapter_data_extracted `{PyRuntime} (data : json)
    (st st' : list chapter * json) :
  extracted st -> process_chapter_data data st = Ok st' -> extracted st'.
Proof.
  intros Hst. destruct data as [| | | | | |kv];
    try (intros E; apply Ok_inj in E; subst st'; exact Hst).
  destruct st as [chapters first_meta].
  destruct Hst as (Hall & Hmeta & Htruthy). simpl in Hall, Hmeta, Htruthy.
  assert (Hmeta' : forall fm, fm = (if truthy first_meta then first_meta
                                    else JDict kv) ->
                   fm = JNull \/ exists kv', fm = JDict kv').
  { intros fm ->. destruct (truthy first_meta); [exact Hmeta | eauto]. }
  assert (Hkeep : extracted
                    (chapters,
                     if truthy first_meta then first_meta else JDict kv)).
  { split; [exact Hall | split; [apply Hmeta'; reflexivity |]]. simpl.
    intros Hne. rewrite (Htruthy Hne). apply Htruthy, Hne. }
  unfold process_chapter_data. cbv zeta.
  destruct (truthy (dict_get (py "url") kv)) eqn:Eu;
    [| destruct (chapter_num_raw kv); intros E; apply Ok_inj in E;
       subst st'; exact Hkeep].
  destruct (dict_get (py "url") kv) as [| | | |chapter_url| |] eqn:Ed;
    try (destruct (chapter_num_raw kv); intros E;
         solve [discriminate E | apply Ok_inj in E; subst st'; exact Hkeep]).
  destruct (chapter_num_raw kv) eqn:Er; intros E; apply Ok_inj in E;
    subst st'; try exact Hkeep.
  all: split; [| split; [apply Hmeta'; reflexivity |]]; simpl.
  all: try (intros _; destruct (truthy first_meta) eqn:Et; [exact Et |];
            destruct kv; [cbv in Ed; discriminate Ed | reflexivity]).
  all: apply Forall_app; split; [exact Hall |].
  all: constructor; [| constructor]; simpl.
  all: split; [intros ->; discriminate Eu | eexists; reflexivity].
Qed.

Lemma process_sublist_extracted `{PyRuntime} (sublist : json)
    (st st' : list chapter * json) :
  extracted st -> process_sublist sublist st = Ok st' -> extracted st'.
Proof.
  intros Hst. unfold process_sublist.
  destruct (py_len sublist) as [n |]; [| discriminate].
  destruct (2 <? n)%nat; [| intros E; apply Ok_inj in E; subst; exact Hst].
  destruct sublist as [| | | | |l|kv]; try discriminate;
    try (intros E; apply Ok_inj in E; subst; exact Hst).
  destruct (message_record l);
    [apply process_chapter_data_extracted; exact Hst |].
  intros E; apply Ok_inj in E; subst; exact Hst.
Qed.

Lemma process_line_extracted `{PyRuntime} (line : loaded)
    (st st' : list chapter * json) :
  extracted st -> process_line line st = Ok st' -> extracted st'.
Proof.
  intros Hst. unfold process_line.
  destruct line as [[| | | | |items|]| |e];
    try (apply process_chapter_data_extracted; exact Hst);
    try (intros E; apply Ok_inj in E; subst; exact Hst).
  - destruct (message_record items);
      apply process_chapter_data_extracted; exact Hst.
  - destruct e; try discriminate.
    intros E; apply Ok_inj in E; subst; exact Hst.
Qed.

Lemma extract_chapters_extracted `{PyRuntime} (out : dump)
    (st : list chapter * json) :
  extract_chapters_from_json out = Ok st -> extracted st.
Proof.
  assert (H0 : extracted ([], JNull)).
  { split; [constructor | split; [left; reflexivity | intros []; reflexivity]]. }
  assert (Heach : forall l,
             for_each process_chapter_data l ([], JNull) = Ok st ->
             extracted st).
  { intros l. apply for_each_invariant; [| exact H0].
    intros x s1 s2. apply process_chapter_data_extracted. }
  unfold extract_chapters_from_json. intros E.
  destruct (whole out) as [full_json | |]; [| | discriminate].
  - destruct full_json as [| | | | |items|kv];
      try (apply Ok_inj in E; rewrite <- E; exact H0).
    + destruct items as [|first rest]; [apply Ok_inj in E; rewrite <- E; exact H0 |].
      destruct first as [| | | | |sub|kv];
        try (apply Ok_inj in E; rewrite <- E; exact H0).
      * eapply for_each_invariant; [| exact H0 | exact E].
        intros x s1 s2. apply process_sublist_extracted.
      * eapply Heach, E.
    + destruct (dict_get (py "entries") kv) as [| | | | |entries|];
        try (eapply process_chapter_data_extracted; [exact H0 | exact E]).
      eapply Heach, E.
  - eapply for_each_invariant; [| exact H0 | exact E].
    intros x s1 s2. apply process_line_extracted.
Qed.

Lemma extract_chapters_labels `{PyRuntime} (out : dump)
    (chapters : list chapter) (meta : json) :
  extract_chapters_from_json out = Ok (chapters, meta) ->
  labelled chapters.
Proof.
  intros E. apply extract_chapters_extracted in E. destruct E as (Hall & _).
  eapply List.Forall_impl; [| exact Hall]. intros c Hc. apply Hc.
Qed.

Lemma discover_source_labels `{PyRuntime} (flag : bool) (sites : list site)
    (w : world) (u : pystr) (f f' : found) :
  labelled (all_discovered_chapters f) ->
  discover_source flag sites w u f = Ok f' ->
  labelled (all_discovered_chapters f').
Proof.
  intros Hf. unfold discover_source.
  assert (Hf1 : forall f1,
             (if flag
              then match flaresolverr (answer_for w u) with
                   | None => Raise Exception
                   | Some s => Ok (with_session (with_printed f [Discovering u]) s)
                   end
              else Ok (with_printed f [Discovering u])) = Ok f1 ->
             all_discovered_chapters f1 = all_discovered_chapters f).
  { intros f1. destruct flag; [destruct (flaresolverr (answer_for w u)) |];
      intros [= <-]; reflexivity. }
  destruct (if flag then _ else _) as [f1 |]; [| discriminate].
  specialize (Hf1 f1 eq_refl).
  destruct (negb (returncode (answer_for w u) =? 0)%Z).
  - intros [= <-]. simpl. rewrite Hf1. exact Hf.
  - destruct (extract_chapters_from_json _) as [[chs meta] |] eqn:E;
      [| discriminate].
    intros [= <-]. simpl. rewrite Hf1. apply Forall_app. split; [exact Hf |].
    eapply extract_chapters_labels; exact E.
Qed.

Lemma discover_labels `{PyRuntime} (flag : bool) (sites : list site)
    (w : world) (urls : list pystr) (f f' : found) (e : option exn) :
  labelled (all_discovered_chapters f) ->
  discover flag sites w urls f = (f', e) ->
  labelled (all_discovered_chapters f').
Proof.
  revert f. induction urls as [|u r IH]; intros f Hf; simpl.
  - intros [= <- _]. exact Hf.
  - destruct (discover_source flag sites w u f) as [f1 |] eqn:E.
    + apply IH. eapply discover_source_labels; eassumption.
    + intros [= <- _]. exact Hf.
Qed.

Lemma part_name_label (label : pystr) (count : nat) :
  is_chapter_label label -> is_chapter_label (part_name label count).
Proof.
  intros [rest ->]. unfold part_name. destruct (0 <? count)%nat.
  - eexists. rewrite <- app_assoc. reflexivity.
  - eexists. reflexivity.
Qed.

Lemma renamed_labels (chapters : list chapter) (before : list pystr) :
  labelled chapters ->
  labelled (renamed before chapters).
Proof.
  intros Hc. revert before. induction Hc as [|c r Hc _ IH]; intros before;
    simpl; constructor; [apply part_name_label, Hc | apply IH].
Qed.

Lemma unique_chapters_labels (all_discovered : list chapter) :
  labelled all_discovered ->
  labelled (unique_chapters all_discovered).
Proof.
  intros Hall. unfold unique_chapters.
  rewrite (sorted_by_perm name), final_chapters_renamed.
  apply renamed_labels. apply List.Forall_forall. intros c Hc.
  apply unique_by_url_In in Hc. rewrite List.Forall_forall in Hall. auto.
Qed.

(** ** Archive names *)

Lemma dropwhile_snoc_stop {A} (p : A -> bool) (l : list A) (c : A) :
  p c = false -> dropwhile p (l ++ [c]) = dropwhile p l ++ [c].
Proof.
  intros Hc. induction l as [|x l IH]; simpl; [rewrite Hc; reflexivity |].
  destruct (p x); [exact IH | reflexivity].
Qed.

Lemma rstrip_by_cons_stop (p : N -> bool) (c : N) (s : pystr) :
  p c = false -> rstrip_by p (c :: s) = c :: rstrip_by p s.
Proof.
  intros Hc. unfold rstrip_by. simpl.
  rewrite dropwhile_snoc_stop by exact Hc. rewrite rev_app_distr. reflexivity.
Qed.

(** The archive of a chapter label is named by a text that starts with
    the letter C and has no path separator. *)
Lemma sanitize_chapter_label `{PyRuntime} (label : pystr) :
  is_chapter_label label ->
  exists rest, sanitize_filename (JStr label) = 67 :: rest.
Proof.
  intros [rest ->]. unfold sanitize_filename, strip, lstrip_by.
  rewrite List.filter_app.
  change (List.filter safe_char (py "Chapter "))
    with (67 :: py "hapter ").
  rewrite <- app_comm_cons.
  assert (E : forall l, dropwhile isspace (67 :: l) = 67 :: l) by reflexivity.
  rewrite E, rstrip_by_cons_stop by reflexivity. eexists. reflexivity.
Qed.

Lemma rfind_from_None (c : N) (s : pystr) (i : nat) :
  ~ In c s -> rfind_from c s i = None.
Proof.
  revert i. induction s as [|x s IH]; intros i Hs; simpl; [reflexivity |].
  rewrite IH by (simpl in Hs; tauto).
  destruct (N.eqb_spec x c) as [-> | _]; [simpl in Hs; tauto | reflexivity].
Qed.

Lemma rfind_from_last (c : N) (a b : pystr) (i : nat) :
  ~ In c b -> rfind_from c (a ++ c :: b) i = Some (i + length a)%nat.
Proof.
  intros Hb. revert i. induction a as [|x a IH]; intros i; simpl.
  - rewrite rfind_from_None by exact Hb. rewrite N.eqb_refl. f_equal. lia.
  - rewrite IH. f_equal. lia.
Qed.

Lemma splitext_root_cbz (s : pystr) (c : N) (rest : pystr) :
  s = c :: rest -> c <> 46 -> ~ In 47 s ->
  splitext_root (s ++ py ".cbz") = s.
Proof.
  intros -> Hc Hsep. unfold splitext_root, rfind.
  change (py ".cbz") with (46 :: py "cbz").
  rewrite rfind_from_last by (vm_compute; intuition discriminate).
  rewrite rfind_from_None.
  - simpl. rewrite firstn_app, Nat.sub_diag, firstn_all. simpl.
    destruct (N.eqb_spec c 46) as [-> | _]; [contradiction |]. simpl.
    rewrite app_nil_r. reflexivity.
  - intros Hin. apply in_app_or in Hin as [Hin | Hin]; [contradiction |].
    vm_compute in Hin. intuition discriminate.
Qed.

Lemma startswith_app (p s : pystr) : startswith p (p ++ s) = true.
Proof.
  induction p as [|x p IH]; simpl; [reflexivity |].
  rewrite N.eqb_refl. exact IH.
Qed.

Lemma endswith_app (p s : pystr) : endswith p (s ++ p) = true.
Proof. unfold endswith. rewrite rev_app_distr. apply startswith_app. Qed.

Lemma sanitize_no_separator `{PyRuntime} (label : pystr) :
  ~ In 47 (sanitize_filename (JStr label)).
Proof.
  intros Hc. apply sanitize_filename_chars in Hc as [_ Hc].
  apply safe_char_not_separator in Hc. tauto.
Qed.

(** The archive names a directory shows are those of its [files]. *)
Lemma downloaded_cbz_names_files (d : series_dir) :
  downloaded_cbz_names d
  = List.map splitext_root
      (List.filter (fun f => endswith (py ".cbz") f) (files d)).
Proof.
  unfold downloaded_cbz_names, listdir. rewrite !List.filter_app.
  destruct (series_json d), (cover_jpg d); simpl; rewrite ?app_nil_r;
    reflexivity.
Qed.

Lemma with_file_In (f g : pystr) (d : series_dir) :
  In g (files (with_file f d)) <-> In g (files d) \/ g = f.
Proof.
  unfold with_file. cbn [files]. destruct (str_in f (files d)) eqn:Ein.
  - apply str_in_In in Ein. split; [auto | intros [Hg | ->]; assumption].
  - rewrite in_app_iff. simpl. intuition congruence.
Qed.

Lemma without_file_In (f g : pystr) (d : series_dir) :
  In g (files (without_file f d)) <-> In g (files d) /\ g <> f.
Proof.
  unfold without_file. cbn [files]. rewrite List.filter_In, negb_true_iff.
  rewrite str_eqb_neq. reflexivity.
Qed.

Lemma app_neq_self (s t : pystr) : t <> [] -> s ++ t <> s.
Proof.
  intros Ht E. apply (f_equal (@length N)) in E. rewrite length_app in E.
  destruct t; [congruence | simpl in E; lia].
Qed.

Lemma endswith_cbz_zip (s : pystr) : endswith (py ".cbz") (s ++ py ".zip") = false.
Proof. unfold endswith. rewrite rev_app_distr. reflexivity. Qed.

(** The entries of the directory of the series after an execution that
    completed. *)
Lemma completed_download_files `{PyRuntime} (label : pystr) (d : series_dir)
    (g : pystr) :
  not_a_subdirectory (sanitize_filename (JStr label)) = false ->
  In g (files (completed_download label d))
  <-> g = sanitize_filename (JStr label) ++ py ".cbz"
      \/ (In g (files d) /\ g <> sanitize_filename (JStr label)
          /\ g <> sanitize_filename (JStr label) ++ py ".zip").
Proof.
  intros Hs. unfold completed_download, remove_working_directory.
  rewrite Hs. rewrite without_file_In. unfold add_archive.
  rewrite with_file_In, without_file_In.
  pose proof (app_neq_self (sanitize_filename (JStr label)) (py ".cbz")) as Hne.
  split.
  - intros [[[Hg Hz] | ->] Hn]; auto.
  - intros [-> | (Hg & Hn & Hz)]; [split; [auto | apply Hne; discriminate] |].
    auto.
Qed.

Lemma labelled_subdirectory `{PyRuntime} (label : pystr) :
  is_chapter_label label ->
  not_a_subdirectory (sanitize_filename (JStr label)) = false.
Proof.
  intros Hl. destruct (sanitize_chapter_label label Hl) as [rest E].
  rewrite E. reflexivity.
Qed.

Lemma completed_download_names `{PyRuntime} (label : pystr) (d : series_dir)
    (n : pystr) :
  is_chapter_label label ->
  endswith (py ".cbz") (sanitize_filename (JStr label)) = false ->
  In n (downloaded_cbz_names d) ->
  In n (downloaded_cbz_names (completed_download label d)).
Proof.
  intros Hl He. rewrite !downloaded_cbz_names_files, !in_map_iff.
  intros (f & En & Hf). exists f. split; [exact En |].
  apply List.filter_In in Hf as [Hf Hc]. apply List.filter_In.
  split; [| exact Hc].
  apply completed_download_files; [apply labelled_subdirectory, Hl |].
  right. split; [exact Hf |].
  split; intros ->; [congruence |].
  rewrite endswith_cbz_zip in Hc. discriminate.
Qed.

Lemma completed_download_name `{PyRuntime} (label : pystr) (d : series_dir) :
  is_chapter_label label ->
  In (sanitize_filename (JStr label))
    (downloaded_cbz_names (completed_download label d)).
Proof.
  intros Hl. destruct (sanitize_chapter_label label Hl) as [rest E].
  rewrite downloaded_cbz_names_files. apply in_map_iff.
  exists (sanitize_filename (JStr label) ++ py ".cbz"). split.
  - eapply splitext_root_cbz; [exact E | discriminate |].
    apply sanitize_no_separator.
  - apply List.filter_In. split; [| apply endswith_app].
    apply completed_download_files; [apply labelled_subdirectory, Hl |].
    left. reflexivity.
Qed.

Lemma completed_download_series_json `{PyRuntime} (label : pystr)
    (d : series_dir) :
  is_chapter_label label ->
  series_json (completed_download label d) = series_json d
  /\ cover_jpg (completed_download label d) = cover_jpg d.
Proof.
  intros Hl. unfold completed_download, remove_working_directory.
  rewrite (labelled_subdirectory label Hl). split; reflexivity.
Qed.

(** A download that ends "Completed" leaves the archive of its chapter. *)
Lemma download_completed_adds_archive `{PyRuntime} (retries : nat)
    (u label : pystr) (flag : bool) (fw : fetch) (d : series_dir) :
  fst (fst (download_single_url retries u label flag fw d)) = Done Completed ->
  snd (fst (download_single_url retries u label flag fw d))
  = completed_download label d.
Proof.
  unfold download_single_url.
  destruct (download_body flag fw) as [[|] | e]; simpl;
    try discriminate; [reflexivity |].
  unfold self_retry. destruct (max_retries <? retries + 1)%nat; discriminate.
Qed.

Lemma archives_added_names `{PyRuntime} (jobs : list job) (d : series_dir)
    (n : pystr) :
  Forall (fun label =>
            is_chapter_label label
            /\ endswith (py ".cbz") (sanitize_filename (JStr label)) = false)
    (download_labels jobs) ->
  In n (downloaded_cbz_names d) ->
  In n (downloaded_cbz_names (archives_added jobs d)).
Proof.
  revert d. induction jobs as [|j r IH]; intros d Hj Hn; simpl; [exact Hn |].
  destruct j; try (apply IH; assumption).
  cbn [download_labels flat_map app] in Hj. inversion Hj as [|? ? [Hl He] Hr].
  apply IH; [exact Hr |]. apply completed_download_names; assumption.
Qed.

Lemma archives_added_name `{PyRuntime} (jobs : list job) (d : series_dir)
    (u p label : pystr) (flag : bool) :
  Forall (fun label =>
            is_chapter_label label
            /\ endswith (py ".cbz") (sanitize_filename (JStr label)) = false)
    (download_labels jobs) ->
  In (Download u p label flag) jobs ->
  In (sanitize_filename (JStr label))
    (downloaded_cbz_names (archives_added jobs d)).
Proof.
  revert d. induction jobs as [|j r IH]; intros d Hall Hj; [contradiction |].
  destruct Hj as [-> | Hj]; simpl.
  - cbn [download_labels flat_map app] in Hall.
    inversion Hall as [|? ? [Hl He] Hr].
    apply archives_added_names; [exact Hr |].
    apply completed_download_name, Hl.
  - apply IH; [| exact Hj]. destruct j; try exact Hall.
    cbn [download_labels flat_map app] in Hall.
    inversion Hall; assumption.
Qed.

Lemma archives_added_series_json `{PyRuntime} (jobs : list job) (d : series_dir) :
  Forall is_chapter_label (download_labels jobs) ->
  series_json (archives_added jobs d) = series_json d.
Proof.
  revert d. induction jobs as [|j r IH]; intros d Hall; simpl; [reflexivity |].
  destruct j; try (apply IH; exact Hall).
  cbn [download_labels flat_map app] in Hall. inversion Hall as [|? ? Hl Hr].
  rewrite IH by exact Hr. apply completed_download_series_json, Hl.
Qed.

(** ** The chapters of a discovery *)

Lemma discover_nil `{PyRuntime} (flag : bool) (sites : list site) (w : world)
    (f : found) :
  discover flag sites w [] f = (f, None).
Proof. reflexivity. Qed.

Lemma discover_cons `{PyRuntime} (flag : bool) (sites : list site) (w : world)
    (u : pystr) (rest : list pystr) (f : found) :
  discover flag sites w (u :: rest) f
  = match discover_source flag sites w u f with
    | Ok f' => discover flag sites w rest f'
    | Raise e => (with_printed f [Discovering u], Some e)
    end.
Proof. reflexivity. Qed.

Lemma discover_source_collects `{PyRuntime} (flag : bool) (sites : list site)
    (w : world) (u : pystr) (f f' : found) :
  discover_source flag sites w u f = Ok f' ->
  all_discovered_chapters f' = all_discovered_chapters f ++ source_chapters w u
  /\ printed f' = printed f ++ source_events w u.
Proof.
  unfold discover_source, source_chapters, source_events.
  assert (Hf1 : forall f1,
             (if flag
              then match flaresolverr (answer_for w u) with
                   | None => Raise Exception
                   | Some s => Ok (with_session (with_printed f [Discovering u]) s)
                   end
              else Ok (with_printed f [Discovering u])) = Ok f1 ->
             all_discovered_chapters f1 = all_discovered_chapters f
             /\ printed f1 = printed f ++ [Discovering u]).
  { intros f1. destruct flag; [destruct (flaresolverr (answer_for w u)) |];
      intros [= <-]; split; reflexivity. }
  destruct (if flag then _ else _) as [f1 |]; [| discriminate].
  destruct (Hf1 f1 eq_refl) as [Hc Hp].
  destruct (returncode (answer_for w u) =? 0)%Z; cbn [negb].
  - destruct (extract_chapters_from_json _) as [[chs meta] |];
      [| discriminate].
    intros [= <-]. cbn [all_discovered_chapters printed].
    rewrite Hc, Hp. split; reflexivity.
  - intros [= <-]. cbn [with_printed all_discovered_chapters printed].
    rewrite Hc, Hp, app_nil_r, <- app_assoc. split; reflexivity.
Qed.

Lemma discover_collects `{PyRuntime} (flag : bool) (sites : list site)
    (w : world) (urls : list pystr) (f f' : found) :
  discover flag sites w urls f = (f', None) ->
  all_discovered_chapters f'
  = all_discovered_chapters f ++ flat_map (source_chapters w) urls
  /\ printed f' = printed f ++ flat_map (source_events w) urls.
Proof.
  revert f. induction urls as [|u r IH]; intros f.
  - rewrite discover_nil. intros [= <-]. cbn [flat_map].
    rewrite !app_nil_r. split; reflexivity.
  - rewrite discover_cons.
    destruct (discover_source flag sites w u f) as [f1 |] eqn:E;
      [| discriminate].
    intros Hr. destruct (IH _ Hr) as [Hc Hp].
    destruct (discover_source_collects _ _ _ _ _ _ E) as [Hc1 Hp1].
    cbn [flat_map]. rewrite Hc, Hp, Hc1, Hp1, <- !app_assoc.
    split; reflexivity.
Qed.

(** ** The missing chapters *)

Lemma missing_chapters_names `{PyRuntime} (chapters : list chapter)
    (d : series_dir) :
  missing_chapters (List.map name chapters) d
  = List.map name (new_chapters chapters d).
Proof.
  unfold missing_chapters, new_chapters.
  induction chapters as [|c r IH]; [reflexivity |]. cbn [List.map List.filter].
  destruct (negb _); cbn [List.map]; rewrite IH; reflexivity.
Qed.

Lemma new_chapters_In `{PyRuntime} (chapters : list chapter) (d : series_dir)
    (chap : chapter) :
  In chap (new_chapters chapters d)
  <-> In chap chapters
      /\ ~ In (sanitize_filename (JStr (name chap))) (downloaded_cbz_names d).
Proof.
  unfold new_chapters. rewrite List.filter_In, negb_true_iff, str_in_false.
  reflexivity.
Qed.

Lemma new_chapters_same_archives `{PyRuntime} (chapters : list chapter)
    (d1 d2 : series_dir) :
  (forall n, In n (downloaded_cbz_names d1) <-> In n (downloaded_cbz_names d2)) ->
  new_chapters chapters d1 = new_chapters chapters d2.
Proof.
  intros Hsame. unfold new_chapters. apply filter_ext. intros chap. f_equal.
  destruct (str_in _ (downloaded_cbz_names d2)) eqn:E.
  - apply str_in_In. apply Hsame. apply str_in_In. exact E.
  - apply str_in_false. rewrite Hsame. apply str_in_false. exact E.
Qed.

Lemma new_chapters_nil `{PyRuntime} (chapters : list chapter) (d : series_dir) :
  new_chapters chapters d = []
  <-> forall chap, In chap chapters ->
        In (sanitize_filename (JStr (name chap))) (downloaded_cbz_names d).
Proof.
  split.
  - intros Hnil chap Hc. apply str_in_In.
    destruct (str_in _ (downloaded_cbz_names d)) eqn:E; [reflexivity |].
    assert (Hin : In chap (new_chapters chapters d)).
    { apply new_chapters_In. split; [exact Hc | apply str_in_false, E]. }
    rewrite Hnil in Hin. contradiction.
  - intros Hall. destruct (new_chapters chapters d) as [|chap r] eqn:E;
      [reflexivity |].
    assert (Hin : In chap (new_chapters chapters d)) by (rewrite E; left; reflexivity).
    apply new_chapters_In in Hin as [Hc Hn]. elim Hn. apply Hall, Hc.
Qed.

(** ** Runs of [process_series] *)

#[local] Arguments new_chapters : simpl never.
#[local] Arguments unique_chapters : simpl never.
#[local] Arguments write_series_json : simpl never.
#[local] Arguments discover : simpl never.

(** The cases of the block that writes [series.json], once it is known
    that there is none. *)
Ltac write_series_json_cases urls sites w :=
  destruct urls as [|? ?], sites as [|? ?]; try discriminate;
  try reflexivity;
  match goal with
  | |- context [if truthy ?c then _ else _] =>
      destruct (truthy c); [destruct (cover_download w c) |]
  end;
  destruct (filtered_metadata _ _ _ _ _); try discriminate.

Lemma write_series_json_files `{PyRuntime} (folder : pystr)
    (urls : list pystr) (flag : bool) (sites : list site) (w : world)
    (f : found) (chapters : list chapter) (d : series_dir) :
  files (fst (fst (write_series_json folder urls flag sites w f chapters d)))
  = files d.
Proof.
  unfold write_series_json. destruct (series_json d); [reflexivity |].
  write_series_json_cases urls sites w; reflexivity.
Qed.

Lemma write_series_json_present `{PyRuntime} (folder : pystr)
    (urls : list pystr) (flag : bool) (sites : list site) (w : world)
    (f : found) (chapters : list chapter) (d : series_dir) (doc : document) :
  series_json d = Some doc ->
  write_series_json folder urls flag sites w f chapters d = (d, None, []).
Proof. intros E. unfold write_series_json. rewrite E. reflexivity. Qed.

Lemma write_series_json_written `{PyRuntime} (folder : pystr)
    (urls : list pystr) (flag : bool) (sites : list site) (w : world)
    (f : found) (chapters : list chapter) (d d' : series_dir)
    (pr : list event) :
  write_series_json folder urls flag sites w f chapters d = (d', None, pr) ->
  exists doc, series_json d' = Some doc.
Proof.
  unfold write_series_json. destruct (series_json d) as [doc |] eqn:E.
  - intros [= <- _]. eauto.
  - write_series_json_cases urls sites w; intros [= <- _]; eauto.
Qed.


(** A run in which the block that writes [series.json] raises: the chapter
    list is cached and nothing is queued. *)
Lemma process_series_write_raises `{PyRuntime} (folder : pystr)
    (urls : list pystr) (lib : pystr) (flag : bool) (w : world)
    (d : option series_dir) (cache : option (list pystr))
    (sites : list site) (f : found) (d1 : series_dir) (e : exn)
    (pr : list event) :
  let chapters := unique_chapters (all_discovered_chapters f) in
  sites_config w = Some sites ->
  discover flag sites w urls nothing_found = (f, None) ->
  chapters <> [] ->
  write_series_json folder urls flag sites w f chapters (makedirs d)
  = (d1, Some e, pr) ->
  process_series folder urls lib flag w d cache
  = {| returned := Raise e; dir_after := d1;
       cache_after := Some (List.map name chapters); queued := [];
       log := printed f ++ pr |}.
Proof.
  intros chapters Es Ed Hne Ew. subst chapters. unfold process_series.
  rewrite Es, Ed.
  destruct (unique_chapters (all_discovered_chapters f)) as [|c0 cs];
    [contradiction |].
  cbn [nonempty negb]. rewrite Ew. reflexivity.
Qed.

(** What a run that returns has done. *)
Lemma process_series_returns `{PyRuntime} (folder : pystr)
    (urls : list pystr) (lib : pystr) (flag : bool) (w : world)
    (d : option series_dir) (cache : option (list pystr)) (x : reply) :
  let r := process_series folder urls lib flag w d cache in
  returned r = Ok x ->
  (sites_config w = None /\ x = Failed_config /\ queued r = [])
  \/ exists sites f,
       sites_config w = Some sites
       /\ discover flag sites w urls nothing_found = (f, None)
       /\ let chapters := unique_chapters (all_discovered_chapters f) in
          (chapters = [] /\ x = Failed_no_chapters /\ queued r = [])
          \/ exists pr,
               chapters <> []
               /\ write_series_json folder urls flag sites w f chapters
                    (makedirs d) = (dir_after r, None, pr)
               /\ cache_after r = Some (List.map name chapters)
               /\ queued r
                  = List.map (fun chap => Download (url chap)
                                            (path_join lib folder) (name chap) flag)
                      (new_chapters chapters (dir_after r))
               /\ x = match new_chapters chapters (dir_after r) with
                      | [] => Success_nothing_new
                      | new => Running (length new)
                      end.
Proof.
  unfold process_series.
  destruct (sites_config w) as [sites |]; simpl;
    [| intros [= <-]; left; auto].
  destruct (discover flag sites w urls nothing_found) as [f [e |]] eqn:Ed;
    simpl; [discriminate |].
  destruct (unique_chapters (all_discovered_chapters f)) as [|c0 cs] eqn:Ec;
    simpl.
  { intros [= <-]. right. exists sites, f.
    split; [reflexivity | split; [exact Ed |]]. rewrite Ec. auto. }
  destruct (write_series_json folder urls flag sites w f (c0 :: cs) (makedirs d))
    as [[d1 [e |]] pr] eqn:Ew; simpl; [discriminate |].
  destruct (new_chapters (c0 :: cs) d1) as [|n0 ns] eqn:En; simpl;
    intros [= <-]; right; exists sites, f;
    (split; [reflexivity | split; [exact Ed |]]); rewrite Ec; right;
    exists pr; simpl; rewrite ?En; repeat split; try discriminate;
    try reflexivity; exact Ew.
Qed.

(** What a run does once its sources are read and [series.json] is there. *)
Lemma process_series_runs `{PyRuntime} (folder : pystr)
    (urls : list pystr) (lib : pystr) (flag : bool) (w : world)
    (d : option series_dir) (cache : option (list pystr))
    (sites : list site) (f : found) (d1 : series_dir) (pr : list event) :
  let r := process_series folder urls lib flag w d cache in
  let chapters := unique_chapters (all_discovered_chapters f) in
  sites_config w = Some sites ->
  discover flag sites w urls nothing_found = (f, None) ->
  chapters <> [] ->
  write_series_json folder urls flag sites w f chapters (makedirs d)
  = (d1, None, pr) ->
  returned r = Ok (match new_chapters chapters d1 with
                   | [] => Success_nothing_new
                   | new => Running (length new)
                   end)
  /\ queued r = List.map (fun chap => Download (url chap)
                                        (path_join lib folder) (name chap) flag)
                  (new_chapters chapters d1)
  /\ dir_after r = d1.
Proof.
  intros r chapters Es Ed Ec Ew. subst r chapters. unfold process_series.
  rewrite Es, Ed.
  destruct (unique_chapters (all_discovered_chapters f)) as [|c0 cs] eqn:E;
    [contradiction |].
  simpl. rewrite Ew.
  destruct (new_chapters (c0 :: cs) d1) as [|n0 ns]; simpl; auto.
Qed.

Lemma write_series_json_archives `{PyRuntime} (folder : pystr)
    (urls : list pystr) (flag : bool) (sites : list site) (w : world)
    (f : found) (chapters : list chapter) (d d1 : series_dir)
    (e : option exn) (pr : list event) :
  write_series_json folder urls flag sites w f chapters d = (d1, e, pr) ->
  downloaded_cbz_names d1 = downloaded_cbz_names d.
Proof.
  intros Ew. rewrite !downloaded_cbz_names_files.
  rewrite <- (write_series_json_files folder urls flag sites w f chapters d).
  rewrite Ew. reflexivity.
Qed.

Lemma process_series_no_config `{PyRuntime} (folder : pystr)
    (urls : list pystr) (lib : pystr) (flag : bool) (w : world)
    (d : option series_dir) (cache : option (list pystr)) :
  sites_config w = None ->
  process_series folder urls lib flag w d cache
  = {| returned := Ok Failed_config; dir_after := makedirs d;
       cache_after := cache; queued := []; log := [] |}.
Proof. intros E. unfold process_series. rewrite E. reflexivity. Qed.

Lemma process_series_no_chapters `{PyRuntime} (folder : pystr)
    (urls : list pystr) (lib : pystr) (flag : bool) (w : world)
    (d : option series_dir) (cache : option (list pystr))
    (sites : list site) (f : found) :
  sites_config w = Some sites ->
  discover flag sites w urls nothing_found = (f, None) ->
  unique_chapters (all_discovered_chapters f) = [] ->
  process_series folder urls lib flag w d cache
  = {| returned := Ok Failed_no_chapters; dir_after := makedirs d;
       cache_after := cache; queued := []; log := printed f |}.
Proof.
  intros Es Ed Ec. unfold process_series. rewrite Es, Ed, Ec. reflexivity.
Qed.

Lemma process_series_queues_labels `{PyRuntime} (folder : pystr)
    (urls : list pystr) (lib : pystr) (flag : bool) (w : world)
    (d : option series_dir) (cache : option (list pystr)) (j : job) :
  In j (queued (process_series folder urls lib flag w d cache)) ->
  exists chap,
    j = Download (url chap) (path_join lib folder) (name chap) flag
    /\ is_chapter_label (name chap).
Proof.
  unfold process_series.
  destruct (sites_config w) as [sites |]; [| intros []].
  destruct (discover flag sites w urls nothing_found) as [f [e |]] eqn:Ed;
    [intros [] |].
  destruct (negb (nonempty (unique_chapters (all_discovered_chapters f))));
    [intros [] |].
  destruct (write_series_json _ _ _ _ _ _ _ _) as [[d1 [e |]] pr];
    [intros [] |].
  destruct (negb (nonempty (new_chapters _ d1))); [intros [] |].
  simpl. intros Hj. apply in_map_iff in Hj as (chap & <- & Hc).
  exists chap. split; [reflexivity |].
  apply new_chapters_In in Hc as [Hc _].
  assert (Hall : labelled
                   (unique_chapters (all_discovered_chapters f))).
  { apply unique_chapters_labels.
    eapply discover_labels; [| exact Ed]. constructor. }
  rewrite List.Forall_forall in Hall. apply Hall, Hc.
Qed.

Lemma process_series_download_labels `{PyRuntime} (folder : pystr)
    (urls : list pystr) (lib : pystr) (flag : bool) (w : world)
    (d : option series_dir) (cache : option (list pystr)) :
  Forall is_chapter_label
    (download_labels (queued (process_series folder urls lib flag w d cache))).
Proof.
  apply List.Forall_forall. intros label Hin. unfold download_labels in Hin.
  apply in_flat_map in Hin. destruct Hin as (j & Hj & Hin).
  apply process_series_queues_labels in Hj as (chap & -> & Hl).
  destruct Hin as [<- | []]. exact Hl.
Qed.

(** The ways a run goes: the configuration does not load, the discovery
    raises, no chapter is found, the block that writes [series.json] raises,
    and the run to its end. *)
Lemma process_series_cases `{PyRuntime} (folder : pystr) (urls : list pystr)
    (lib : pystr) (flag : bool) (w : world) (d : option series_dir)
    (cache : option (list pystr)) :
  let r := process_series folder urls lib flag w d cache in
  (sites_config w = None
   /\ r = {| returned := Ok Failed_config; dir_after := makedirs d;
             cache_after := cache; queued := []; log := [] |})
  \/ exists sites f,
       sites_config w = Some sites
       /\ ((exists e,
              discover flag sites w urls nothing_found = (f, Some e)
              /\ r = {| returned := Raise e; dir_after := makedirs d;
                        cache_after := cache; queued := [];
                        log := printed f |})
           \/ (discover flag sites w urls nothing_found = (f, None)
               /\ let chapters := unique_chapters (all_discovered_chapters f) in
                  (chapters = []
                   /\ r = {| returned := Ok Failed_no_chapters;
                             dir_after := makedirs d; cache_after := cache;
                             queued := []; log := printed f |})
                  \/ (chapters <> []
                      /\ exists d1 pr,
                           (exists e,
                              write_series_json folder urls flag sites w f
                                chapters (makedirs d) = (d1, Some e, pr)
                              /\ r = {| returned := Raise e; dir_after := d1;
                                        cache_after :=
                                          Some (List.map name chapters);
                                        queued := [];
                                        log := printed f ++ pr |})
                           \/ (write_series_json folder urls flag sites w f
                                 chapters (makedirs d) = (d1, None, pr)
                               /\ returned r
                                  = Ok (match new_chapters chapters d1 with
                                        | [] => Success_nothing_new
                                        | new => Running (length new)
                                        end)
                               /\ dir_after r = d1
                               /\ cache_after r = Some (List.map name chapters)
                               /\ queued r
                                  = List.map
                                      (fun chap =>
                                         Download (url chap)
                                           (path_join lib folder) (name chap)
                                           flag)
                                      (new_chapters chapters d1))))).
Proof.
  unfold process_series.
  destruct (sites_config w) as [sites |]; [| left; auto].
  right. exists sites.
  destruct (discover flag sites w urls nothing_found) as [f [e |]] eqn:Ed;
    exists f; (split; [reflexivity |]); [left; eauto |].
  right. split; [reflexivity |].
  destruct (unique_chapters (all_discovered_chapters f)) as [|c0 cs] eqn:Ec;
    cbn [nonempty negb]; [left; auto |].
  right. split; [discriminate |].
  destruct (write_series_json folder urls flag sites w f (c0 :: cs) (makedirs d))
    as [[d1 [e |]] pr] eqn:Ew; exists d1, pr; [left; eauto |].
  right. split; [reflexivity |].
  destruct (new_chapters (c0 :: cs) d1) as [|n0 ns] eqn:En;
    cbn [nonempty negb returned dir_after cache_after queued];
    rewrite ?En; auto.
Qed.

(** The block that writes [series.json] ends the same way when it is run
    again over the directory it left. *)
Lemma write_series_json_again `{PyRuntime} (folder : pystr)
    (urls : list pystr) (flag : bool) (sites : list site) (w : world)
    (f : found) (chapters : list chapter) (d d1 : series_dir)
    (e : option exn) (pr : list event) :
  write_series_json folder urls flag sites w f chapters d = (d1, e, pr) ->
  exists pr',
    write_series_json folder urls flag sites w f chapters d1 = (d1, e, pr').
Proof.
  unfold write_series_json at 1. destruct (series_json d) as [doc |] eqn:E.
  { intros [= <- <- <-]. exists []. unfold write_series_json. rewrite E.
    reflexivity. }
  destruct urls as [|first_url rest], sites as [|site0 sites];
    try (intros [= <- <- <-]; eexists; unfold write_series_json; rewrite E;
         reflexivity).
  all: match goal with
       | |- context [if truthy ?c then _ else _] =>
           destruct (truthy c) eqn:Et; [destruct (cover_download w c) eqn:Ec |]
       end.
  all: destruct (filtered_metadata _ _ _ _ _) eqn:Ef.
  all: intros [= <- <- <-]; eexists; unfold write_series_json;
    cbn [series_json cover_jpg files]; rewrite ?E; cbv zeta;
    rewrite ?Et, ?Ec, ?Ef; reflexivity.
Qed.

(** C1.  The missing-chapter delta of a run is the list of the discovered
    chapters whose sanitized label is the base name of no [.cbz] archive of
    the directory: its labels are computed from the labels of the chapters
    and the archive names, and a directory with the same archive names
    gives the same delta.  A run that returns "Running" has queued the
    download of each chapter of the delta, a run that returns "Success" has
    an empty delta, and every other run queues nothing; a run over a
    directory with [series.json], whose sources are read without an
    exception and give a chapter, returns one of the two.  The second of two
    runs with nothing changed in between (the same answers of the sources,
    the directory and the cached list as the first run left them) ends as
    the first did and queues exactly the downloads the first queued: none
    is newly queued.  And once the downloads a run queued have completed,
    for chapters whose sanitized label does not end in ".cbz", the next run
    queues nothing. *)
Theorem missing_chapters_delta `{PyRuntime} (folder : pystr)
    (urls : list pystr) (lib : pystr) (flag : bool) (w : world)
    (d : option series_dir) (cache : option (list pystr)) :
  let r1 := process_series folder urls lib flag w d cache in
  let r2 := process_series folder urls lib flag w (Some (dir_after r1))
              (cache_after r1) in
  let chapters := unique_chapters (flat_map (source_chapters w) urls) in
  let delta := new_chapters chapters (makedirs d) in
  let download chap :=
    Download (url chap) (path_join lib folder) (name chap) flag in
  (forall chap,
      In chap delta
      <-> In chap chapters
          /\ ~ In (sanitize_filename (JStr (name chap)))
                 (downloaded_cbz_names (makedirs d)))
  /\ List.map name delta
     = missing_chapters (List.map name chapters) (makedirs d)
  /\ (forall d2,
        (forall a, In a (downloaded_cbz_names d2)
                   <-> In a (downloaded_cbz_names (makedirs d))) ->
        new_chapters chapters d2 = delta)
  /\ (forall n, returned r1 = Ok (Running n) ->
                n = length delta /\ delta <> []
                /\ queued r1 = List.map download delta)
  /\ (returned r1 = Ok Success_nothing_new ->
      chapters <> [] /\ delta = [] /\ queued r1 = [])
  /\ ((forall n, returned r1 <> Ok (Running n)) ->
      returned r1 <> Raise UntypedUrl -> queued r1 = [])
  /\ (forall sites f,
        sites_config w = Some sites ->
        discover flag sites w urls nothing_found = (f, None) ->
        chapters <> [] ->
        present (series_json (makedirs d)) = true ->
        returned r1 = Ok (match delta with
                          | [] => Success_nothing_new
                          | _ => Running (length delta)
                          end))
  /\ returned r2 = returned r1
  /\ queued r2 = queued r1
  /\ (forall j, In j (queued r2) -> In j (queued r1))
  /\ dir_after r2 = dir_after r1
  /\ cache_after r2 = cache_after r1
  /\ (forall x1,
        let r3 := process_series folder urls lib flag w
                    (Some (archives_added (queued r1) (dir_after r1)))
                    (cache_after r1) in
        returned r1 = Ok x1 ->
        Forall (fun label =>
                  endswith (py ".cbz") (sanitize_filename (JStr label))
                  = false)
          (download_labels (queued r1)) ->
        queued r3 = []
        /\ returned r3 = Ok (match x1 with
                             | Running _ => Success_nothing_new
                             | _ => x1
                             end)).
Proof.
  intros r1 r2 chapters delta download.
  assert (Hfound : forall sites f,
             discover flag sites w urls nothing_found = (f, None) ->
             unique_chapters (all_discovered_chapters f) = chapters).
  { intros sites f Ed. apply discover_collects in Ed as [Ed _].
    rewrite Ed. reflexivity. }
  assert (Hsecond : returned r2 = returned r1 /\ queued r2 = queued r1
                    /\ dir_after r2 = dir_after r1
                    /\ cache_after r2 = cache_after r1).
  { subst r2. destruct (process_series_cases folder urls lib flag w d cache)
      as [(Es & Hr) | (sites & f & Es & [(e & Ed & Hr) | (Ed & Hr)])];
      fold r1 in Hr.
    - rewrite Hr. cbn [dir_after cache_after].
      rewrite process_series_no_config by exact Es. auto.
    - rewrite Hr. cbn [dir_after cache_after].
      unfold process_series. rewrite Es, Ed. auto.
    - cbv zeta in Hr.
      destruct Hr as [(Hc & Hr) | (Hne & d1 & pr & [(e & Ew & Hr) | Hr])].
      + rewrite Hr. cbn [dir_after cache_after].
        rewrite (process_series_no_chapters _ _ _ _ _ _ _ sites f)
          by assumption.
        auto.
      + rewrite Hr. cbn [dir_after cache_after returned queued].
        destruct (write_series_json_again _ _ _ _ _ _ _ _ _ _ _ Ew)
          as [pr' Ew'].
        unfold process_series. rewrite Es, Ed.
        destruct (unique_chapters (all_discovered_chapters f)) as [|c0 cs];
          [contradiction |].
        cbn [nonempty negb makedirs]. rewrite Ew'. auto.
      + destruct Hr as (Ew & Hret & Hdir & Hcache & Hq).
        destruct (write_series_json_again _ _ _ _ _ _ _ _ _ _ _ Ew)
          as [pr' Ew'].
        rewrite Hdir, Hcache.
        destruct (process_series_runs folder urls lib flag w (Some d1)
                    (Some (List.map name
                             (unique_chapters (all_discovered_chapters f))))
                    sites f d1 pr' Es Ed Hne Ew') as (Hret2 & Hq2 & Hdir2).
        rewrite Hret2, Hq2, Hdir2, Hret, Hq.
        split; [reflexivity | split; [reflexivity | split; [reflexivity |]]].
        unfold process_series. rewrite Es, Ed.
        destruct (unique_chapters (all_discovered_chapters f)) as [|c0 cs];
          [contradiction |].
        cbn [nonempty negb makedirs]. rewrite Ew'.
        destruct (negb (nonempty (new_chapters (c0 :: cs) d1))); reflexivity. }
  assert (Hrun : forall x, returned r1 = Ok x ->
             x = Failed_config \/ x = Failed_no_chapters
             \/ (chapters <> []
                 /\ x = match delta with
                        | [] => Success_nothing_new
                        | _ => Running (length delta)
                        end
                 /\ queued r1 = List.map download delta)).
  { intros x Hx. pose proof (process_series_returns _ _ _ _ _ _ _ _ Hx) as Hr.
    fold r1 in Hr.
    destruct Hr as [(_ & -> & _) | (sites & f & Es & Ed & Hr)]; [auto |].
    cbv zeta in Hr. rewrite (Hfound sites f Ed) in Hr.
    destruct Hr as [(_ & -> & _) | (pr & Hne & Ew & _ & Hq & ->)]; [auto |].
    right. right.
    assert (Hd : new_chapters chapters (dir_after r1) = delta).
    { apply new_chapters_same_archives. intros a.
      rewrite (write_series_json_archives _ _ _ _ _ _ _ _ _ _ _ Ew).
      reflexivity. }
    rewrite Hd in Hq |- *. split; [exact Hne |]. split; [| exact Hq].
    destruct delta; reflexivity. }
  split; [intros chap; apply new_chapters_In |].
  split; [symmetry; apply missing_chapters_names |].
  split; [intros d2 Hsame; apply new_chapters_same_archives; exact Hsame |].
  split.
  { intros n Hn. destruct (Hrun _ Hn) as [[=] | [[=] | (_ & Hx & Hq)]].
    destruct delta as [|c0 cs] eqn:Ed; [discriminate |].
    injection Hx as ->. split; [reflexivity |].
    split; [discriminate | exact Hq]. }
  split.
  { intros Hs. destruct (Hrun _ Hs) as [[=] | [[=] | (Hne & Hx & Hq)]].
    destruct delta as [|c0 cs] eqn:Ed; [| discriminate]. auto. }
  split.
  { intros Hnot _.
    destruct (process_series_cases folder urls lib flag w d cache)
      as [(_ & Hr) | (s0 & f0 & _ & [(e0 & _ & Hr) | (_ & Hr)])];
      fold r1 in Hr.
    - rewrite Hr. reflexivity.
    - rewrite Hr. reflexivity.
    - cbv zeta in Hr.
      destruct Hr as [(_ & Hr) | (_ & d1 & pr & [(e0 & _ & Hr) | Hr])].
      + rewrite Hr. reflexivity.
      + rewrite Hr. reflexivity.
      + destruct Hr as (_ & Hret & _ & _ & Hq). rewrite Hq.
        destruct (new_chapters _ d1) as [|c0 cs]; [reflexivity |].
        elim (Hnot _ Hret). }
  split.
  { intros sites f Es Ed Hne Hp.
    destruct (series_json (makedirs d)) as [doc |] eqn:Hdoc; [| discriminate].
    rewrite <- (Hfound sites f Ed) in Hne.
    destruct (process_series_runs folder urls lib flag w d cache sites f
                (makedirs d) [] Es Ed Hne
                (write_series_json_present _ _ _ _ _ _ _ _ doc Hdoc))
      as (Hret & _).
    fold r1 in Hret. rewrite Hret, (Hfound sites f Ed). fold delta.
    destruct delta; reflexivity. }
  destruct Hsecond as (H1 & H2 & H3 & H4).
  split; [exact H1 |]. split; [exact H2 |].
  split; [intros j Hj; rewrite <- H2; exact Hj |].
  split; [exact H3 |]. split; [exact H4 |].
  intros x1 r3 Hx1 Hcbz.
  pose proof (process_series_download_labels folder urls lib flag w d cache)
    as Hlabels.
  fold r1 in Hlabels.
  pose proof (process_series_returns _ _ _ _ _ _ _ _ Hx1) as Hr.
  fold r1 in Hr.
  assert (Hsame : queued r1 = [] ->
                  queued r3 = [] /\ returned r3 = Ok x1).
  { intros Hq. subst r3. rewrite Hq. cbn [archives_added fold_left].
    fold r2. rewrite H1, H2. auto. }
  destruct Hr as [(_ & -> & Hq) | (sites & f & Es & Ed & Hr)];
    [apply Hsame, Hq |].
  cbv zeta in Hr.
  destruct Hr as [(_ & -> & Hq) | (pr & Hne & Ew & Hcache & Hq & Hx)];
    [apply Hsame, Hq |].
  set (found_chapters := unique_chapters (all_discovered_chapters f)) in *.
  destruct (write_series_json_written _ _ _ _ _ _ _ _ _ _ Ew) as [doc Hdoc].
  set (d' := archives_added (queued r1) (dir_after r1)) in *.
  assert (Ew2 : write_series_json folder urls flag sites w f found_chapters
                  (makedirs (Some d')) = (d', None, [])).
  { apply (write_series_json_present _ _ _ _ _ _ _ _ doc).
    simpl. unfold d'. rewrite archives_added_series_json by exact Hlabels.
    exact Hdoc. }
  destruct (process_series_runs folder urls lib flag w (Some d')
              (cache_after r1) sites f d' [] Es Ed Hne Ew2)
    as (Hret & Hqueue & _).
  fold r3 in Hret, Hqueue. fold found_chapters in Hret, Hqueue.
  assert (Hall : Forall (fun label =>
                           is_chapter_label label
                           /\ endswith (py ".cbz")
                                (sanitize_filename (JStr label)) = false)
                   (download_labels (queued r1))).
  { rewrite List.Forall_forall in Hlabels, Hcbz |- *. auto. }
  assert (Hnil : new_chapters found_chapters d' = []).
  { apply new_chapters_nil. intros chap Hc.
    destruct (str_in (sanitize_filename (JStr (name chap)))
                (downloaded_cbz_names (dir_after r1))) eqn:Ein.
    - apply archives_added_names; [exact Hall |]. apply str_in_In. exact Ein.
    - apply (archives_added_name _ _ (url chap) (path_join lib folder) _ flag);
        [exact Hall |].
      rewrite Hq. apply in_map_iff. exists chap. split; [reflexivity |].
      apply new_chapters_In. split; [exact Hc | apply str_in_false, Ein]. }
  rewrite Hnil in Hret, Hqueue. split; [exact Hqueue |].
  rewrite Hret, Hx. destruct (new_chapters found_chapters (dir_after r1));
    reflexivity.
Qed.

(** A first run over an empty directory queues the one chapter there is;
    the second run, with nothing changed, queues the same download and no
    other. *)
Lemma missing_chapters_delta_witness :
  let run := @process_series ascii_only (py "S") [py "http://h/s"]
               (py "/downloads/manga") false one_chapter_world in
  let r1 := run None None in
  let r2 := run (Some (dir_after r1)) (cache_after r1) in
  (returned r1 = Ok (Running 1)
   /\ queued r1 = [Download (py "http://h/c1") (py "/downloads/manga/S")
                     (py "Chapter 0001") false])
  /\ returned r2 = returned r1
  /\ queued r2 = queued r1.
Proof.
  split; [vm_compute; split; reflexivity |].
  pose proof (@missing_chapters_delta ascii_only (py "S") [py "http://h/s"]
                (py "/downloads/manga") false one_chapter_world None None)
    as Hdelta.
  cbv zeta in Hdelta.
  destruct Hdelta as (_ & _ & _ & _ & _ & _ & _ & H1 & H2 & _).
  split; [exact H1 | exact H2].
Defined.

(** ** The download task *)






(** ** The metadata document *)

Lemma process_series_keeps_series_json `{PyRuntime} (folder : pystr)
    (urls : list pystr) (lib : pystr) (flag : bool) (w : world)
    (d : series_dir) (cache : option (list pystr)) (doc : document) :
  series_json d = Some doc ->
  dir_after (process_series folder urls lib flag w (Some d) cache) = d.
Proof.
  intros Hdoc. unfold process_series. simpl.
  destruct (sites_config w) as [sites |]; [| reflexivity].
  destruct (discover flag sites w urls nothing_found) as [f [e |]];
    [reflexivity |].
  destruct (negb (nonempty (unique_chapters (all_discovered_chapters f))));
    [reflexivity |].
  rewrite (write_series_json_present _ _ _ _ _ _ _ _ doc Hdoc).
  destruct (negb (nonempty (new_chapters _ d))); reflexivity.
Qed.

Lemma download_keeps_series_json `{PyRuntime} (retries : nat)
    (u label : pystr) (flag : bool) (fw : fetch) (d : series_dir) :
  is_chapter_label label ->
  series_json (snd (fst (download_single_url retries u label flag fw d)))
  = series_json d.
Proof.
  intros Hl. unfold download_single_url, remove_working_directory.
  rewrite (labelled_subdirectory label Hl).
  destruct (download_body flag fw) as [[|] |];
    [reflexivity | reflexivity |].
  destruct (packaging_failed flag fw && zip_left fw); reflexivity.
Qed.

Lemma refresh_cover_keeps_series_json (source_url : pystr) (flag : bool)
    (w : world) (d : option series_dir) :
  series_json (snd (refresh_cover_image source_url flag w d))
  = series_json (makedirs d).
Proof.
  unfold refresh_cover_image.
  destruct (sites_config w) as [sites |]; [| reflexivity].
  destruct (site_for sites source_url); [| reflexivity].
  destruct flag; [| reflexivity].
  destruct (flaresolverr (answer_for w source_url)); [| reflexivity].
  destruct (truthy (scraped_cover w source_url)); [| reflexivity].
  destruct (cover_download w (scraped_cover w source_url)); reflexivity.
Qed.

(** The address of the cover decides the image of the document and
    nothing else of it. *)
Lemma filtered_metadata_cover `{PyRuntime} (first_meta : json)
    (scraped : list (pystr * json)) (folder : pystr) (cover_url : json)
    (chapters : list chapter) :
  filtered_metadata first_meta scraped folder cover_url chapters
  = match filtered_metadata first_meta scraped folder JNull chapters with
    | Ok doc =>
        Ok {| publisher := publisher doc; display_name := display_name doc;
              year := year doc; description_text := description_text doc;
              description_formatted := description_formatted doc;
              comic_image := if truthy cover_url then py "cover.jpg" else [];
              total_issues := length chapters; status := status doc |}
    | Raise e => Raise e
    end.
Proof.
  unfold filtered_metadata. cbv zeta.
  destruct (int_of_str _); [| reflexivity].
  destruct (dict_get_default (py "description") _ _); reflexivity.
Qed.

(** The block that writes [series.json] over a directory without one,
    when there is a first address to read or no site to read it for. *)
Lemma write_series_json_absent `{PyRuntime} (folder : pystr)
    (urls : list pystr) (flag : bool) (sites : list site) (w : world)
    (f : found) (chapters : list chapter) (d : series_dir) :
  series_json d = None -> urls <> [] \/ sites = [] ->
  exists cover_url d1 pr,
    series_json d1 = None
    /\ write_series_json folder urls flag sites w f chapters d
       = match filtered_metadata (first_chapter_meta f)
                 (scraped_html_metadata f) folder cover_url chapters with
         | Ok doc =>
             ({| series_json := Some doc; cover_jpg := cover_jpg d1;
                 files := files d1 |}, None, pr)
         | Raise e => (d1, Some e, pr)
         end.
Proof.
  intros E Hu. unfold write_series_json. rewrite E.
  destruct urls as [|first_url rest], sites as [|site0 sites];
    try (destruct Hu as [Hu | Hu]; [elim Hu; reflexivity | discriminate Hu]).
  all: match goal with
       | |- context [if truthy ?c then _ else _] =>
           exists c; destruct (truthy c) eqn:Et;
           [destruct (cover_download w c) eqn:Ec |]
       end.
  all: eexists _, _; (split; [| destruct (filtered_metadata _ _ _ _ _);
                                reflexivity]).
  all: first [exact E | reflexivity].
Qed.

(** C8. A run of [process_series] over a directory that has a
    [series.json] leaves the document as it is, and so do the downloads
    the run queues and a refresh of the cover;
    [refresh_series_metadata] removes the document and the cached chapter
    list and queues the discovery.  That discovery, when its sources are
    read without an exception and give a chapter, caches the chapter list
    again; it writes the document again, with the number of the chapters
    found, and returns, when the year and the description the sources give
    can be made into a document, and it raises and leaves the directory
    without a document when they cannot. *)
Theorem series_json_written_once `{PyRuntime} (folder : pystr)
    (urls : list pystr) (lib : pystr) (flag : bool) (w : world)
    (d : series_dir) (cache : option (list pystr)) (doc : document) :
  series_json d = Some doc ->
  let r := process_series folder urls lib flag w (Some d) cache in
  let refreshed := refresh_series_metadata folder urls lib flag (Some d) cache in
  dir_after r = d
  /\ series_json (dir_after r) = Some doc
  /\ (forall j, In j (queued r) ->
        exists u p label fl,
          j = Download u p label fl
          /\ forall retries fw d0,
               series_json
                 (snd (fst (download_single_url retries u label fl fw d0)))
               = series_json d0)
  /\ (forall source_url fl w',
        series_json (snd (refresh_cover_image source_url fl w' (Some d)))
        = Some doc)
  /\ fst (fst refreshed)
     = Some {| series_json := None; cover_jpg := cover_jpg d; files := files d |}
  /\ snd (fst refreshed) = None
  /\ snd refreshed = [Discover folder urls lib flag]
  /\ (forall w' x,
        let r' := process_series folder urls lib flag w'
                    (fst (fst refreshed)) (snd (fst refreshed)) in
        returned r' = Ok x -> x <> Failed_config -> x <> Failed_no_chapters ->
        (exists doc', series_json (dir_after r') = Some doc')
        /\ exists chapter_names, cache_after r' = Some chapter_names)
  /\ (forall w' sites f,
        let r' := process_series folder urls lib flag w'
                    (fst (fst refreshed)) (snd (fst refreshed)) in
        let chapters := unique_chapters (all_discovered_chapters f) in
        sites_config w' = Some sites ->
        discover flag sites w' urls nothing_found = (f, None) ->
        chapters <> [] -> urls <> [] \/ sites = [] ->
        cache_after r' = Some (List.map name chapters)
        /\ (forall doc0,
              filtered_metadata (first_chapter_meta f)
                (scraped_html_metadata f) folder JNull chapters = Ok doc0 ->
              exists cover_url doc',
                filtered_metadata (first_chapter_meta f)
                  (scraped_html_metadata f) folder cover_url chapters = Ok doc'
                /\ series_json (dir_after r') = Some doc'
                /\ total_issues doc' = length chapters
                /\ returned r' = Ok (match new_chapters chapters (dir_after r')
                                     with
                                     | [] => Success_nothing_new
                                     | new => Running (length new)
                                     end))
        /\ (forall e,
              filtered_metadata (first_chapter_meta f)
                (scraped_html_metadata f) folder JNull chapters = Raise e ->
              returned r' = Raise e /\ series_json (dir_after r') = None)).
Proof.
  intros Hdoc r refreshed. subst r refreshed.
  split; [apply (process_series_keeps_series_json _ _ _ _ _ _ _ doc Hdoc) |].
  split; [rewrite (process_series_keeps_series_json _ _ _ _ _ _ _ doc Hdoc);
          exact Hdoc |].
  split.
  { intros j Hj. apply process_series_queues_labels in Hj as (chap & -> & Hl).
    do 4 eexists. split; [reflexivity |]. intros retries fw d0.
    apply download_keeps_series_json, Hl. }
  split; [intros source_url fl w';
          rewrite refresh_cover_keeps_series_json; exact Hdoc |].
  split; [reflexivity |]. split; [reflexivity |]. split; [reflexivity |].
  split.
  { intros w' x r' Hr' Hx1 Hx2.
    pose proof (process_series_returns _ _ _ _ _ _ _ _ Hr') as Hrun.
    fold r' in Hrun.
    destruct Hrun as [(_ & Hx & _) | (sites & f & Es & Ed & Hrun)];
      [contradiction |].
    destruct Hrun as [(_ & Hx & _) | (pr & Hne & Ew & Hcache & _)];
      [contradiction |].
    split; [eapply write_series_json_written; exact Ew | eauto]. }
  intros w' sites f r' chapters Es Ed Hne Hu.
  cbn [refresh_series_metadata fst snd] in r'.
  set (d0 := {| series_json := None; cover_jpg := cover_jpg d;
                files := files d |}) in *.
  destruct (write_series_json_absent folder urls flag sites w' f chapters d0
              eq_refl Hu) as (cover_url & d1 & pr & Hd1 & Ew).
  rewrite filtered_metadata_cover in Ew.
  destruct (filtered_metadata (first_chapter_meta f) (scraped_html_metadata f)
              folder JNull chapters) as [doc0 | e0] eqn:Ef.
  - destruct (process_series_runs folder urls lib flag w' (Some d0) None
                sites f _ pr Es Ed Hne Ew) as (Hret & Hq & Hdir).
    fold r' in Hret, Hq, Hdir. fold chapters in Hret.
    split.
    { subst r'. unfold process_series. rewrite Es, Ed. fold chapters.
      destruct chapters as [|c0 cs] eqn:Ec; [contradiction |].
      cbn [nonempty negb makedirs]. rewrite Ew.
      destruct (negb (nonempty (new_chapters (c0 :: cs) _))); reflexivity. }
    split; [| discriminate].
    intros doc1 E1. apply Ok_inj in E1. subst doc1.
    eexists cover_url, _. rewrite filtered_metadata_cover, Ef.
    split; [reflexivity |]. rewrite Hdir. cbn [series_json total_issues].
    split; [reflexivity |]. split; [reflexivity |]. exact Hret.
  - pose proof (process_series_write_raises folder urls lib flag w' (Some d0)
                  None sites f d1 e0 pr Es Ed Hne Ew) as Hr.
    fold r' in Hr. rewrite Hr. cbn [cache_after returned dir_after].
    split; [reflexivity |]. split; [discriminate |].
    intros e E1. injection E1 as ->. split; [reflexivity | exact Hd1].
Qed.

(** A directory with a document that counts seven issues, over a source
    with one chapter: a run leaves the directory as it was; after
    [refresh_series_metadata] the run writes a document that counts one
    issue and caches the label of the chapter. *)
Lemma series_json_written_once_witness :
  let d := {| series_json :=
                Some {| publisher := JStr (py "Unknown");
                        display_name := JStr (py "S");
                        year := 0;
                        description_text := [];
                        description_formatted := [];
                        comic_image := [];
                        total_issues := 7;
                        status := py "Ended" |};
              cover_jpg := None;
              files := [py "Chapter 0001.cbz"] |} in
  let run := @process_series ascii_only (py "S") [py "http://h/s"]
               (py "/downloads/manga") false one_chapter_world in
  let refreshed :=
    refresh_series_metadata (py "S") [py "http://h/s"] (py "/downloads/manga")
      false (Some d) (Some [py "Chapter 0001"]) in
  let r' := run (fst (fst refreshed)) (snd (fst refreshed)) in
  dir_after (run (Some d) (Some [py "Chapter 0001"])) = d
  /\ cache_after r' = Some [py "Chapter 0001"]
  /\ exists doc',
       series_json (dir_after r') = Some doc'
       /\ total_issues doc' = 1%nat
       /\ returned r' = Ok Success_nothing_new.
Proof.
  intros d run refreshed r'.
  pose proof (@series_json_written_once ascii_only (py "S") [py "http://h/s"]
                (py "/downloads/manga") false one_chapter_world d
                (Some [py "Chapter 0001"]) _ eq_refl) as Honce.
  cbv zeta in Honce.
  destruct Honce as (Hdir & _ & _ & _ & _ & _ & _ & _ & Hregen).
  split; [exact Hdir |].
  destruct (Hregen one_chapter_world [] _ eq_refl eq_refl)
    as (Hcache & Hdoc & _).
  - vm_compute. discriminate.
  - left. discriminate.
  - split; [exact Hcache |].
    destruct (Hdoc _ eq_refl) as (cover_url & doc' & _ & Hjson & Hn & Hret).
    exists doc'. split; [exact Hjson |]. split; [exact Hn | exact Hret].
Defined.

(** ** The scheduler *)

Lemma libraries_get_nonempty (lib destination_path : pystr) :
  libraries_get lib = Some destination_path -> nonempty destination_path = true.
Proof.
  unfold libraries_get, LIBRARIES. cbn [List.find fst snd].
  repeat match goal with
         | |- context [str_eqb ?a lib] => destruct (str_eqb a lib)
         end; cbn [List.find fst snd]; intros [= <-]; reflexivity.
Qed.

Lemma dict_has_get (k : pystr) (kv : list (pystr * json)) :
  dict_has k kv = false -> dict_get k kv = JNull.
Proof.
  unfold dict_has, dict_get. destruct (List.find _ kv); [discriminate |].
  reflexivity.
Qed.

Lemma check_member_due (pool : pystr) (m : member)
    (update_tasks : list job) (done : list effect) :
  stops pool m = false ->
  check_member pool m (update_tasks, done)
  = Ok (update_tasks ++ due pool m,
        done ++ (if warned pool m then [Print (SkippingMalformed m)] else [])).
Proof.
  destruct m as [raw | raw e | v | kv]; cbn [stops].
  - intros _. simpl. rewrite app_nil_r. reflexivity.
  - destruct e; try discriminate. intros _. simpl. rewrite app_nil_r.
    reflexivity.
  - discriminate.
  - unfold check_member, due, warned.
    destruct (in_pool pool kv); cbn [andb];
      [| intros _; rewrite !app_nil_r; reflexivity].
    destruct (dict_has (py "library") kv) eqn:Eh; cbn [negb].
    + destruct (dict_get (py "library") kv) as [| | | |lib| |];
        try discriminate; intros _; cbn [libraries_lookup];
        rewrite ?app_nil_r; try reflexivity.
      pose proof (libraries_get_nonempty lib) as Hne.
      destruct (libraries_get lib) as [destination_path |];
        rewrite ?app_nil_r; [| reflexivity].
      rewrite (Hne _ eq_refl), andb_true_r.
      destruct (_ && _); rewrite ?app_nil_r; reflexivity.
    + intros _. rewrite (dict_has_get _ _ Eh), app_nil_r. reflexivity.
Qed.

Lemma check_member_stops (pool : pystr) (m : member)
    (st : list job * list effect) :
  stops pool m = true -> exists e, check_member pool m st = Raise e.
Proof.
  destruct st as [update_tasks done].
  destruct m as [raw | raw e | v | kv]; cbn [stops]; [discriminate | | |].
  - destruct e; try discriminate; intros _; eexists; reflexivity.
  - intros _. eexists. reflexivity.
  - unfold check_member. intros Hs. apply andb_true_iff in Hs as [-> Hl].
    assert (Hh : dict_has (py "library") kv = true).
    { destruct (dict_has (py "library") kv) eqn:Eh; [reflexivity |].
      rewrite (dict_has_get _ _ Eh) in Hl. discriminate Hl. }
    rewrite Hh.
    destruct (dict_get (py "library") kv); try discriminate Hl;
      eexists; reflexivity.
Qed.

#[local] Arguments check_member : simpl never.
#[local] Arguments due : simpl never.
#[local] Arguments warned : simpl never.
#[local] Arguments stops : simpl never.

Lemma check_members_due (pool : pystr) (members : list member)
    (update_tasks : list job) (done : list effect) :
  existsb (stops pool) members = false ->
  check_members pool members (update_tasks, done)
  = (update_tasks ++ flat_map (due pool) members,
     done ++ List.map (fun m => Print (SkippingMalformed m))
               (List.filter (warned pool) members),
     None).
Proof.
  revert update_tasks done.
  induction members as [|m r IH]; intros update_tasks done Hm; simpl.
  - rewrite !app_nil_r. reflexivity.
  - simpl in Hm. apply orb_false_iff in Hm as [Hm Hr].
    rewrite (check_member_due _ _ _ _ Hm), (IH _ _ Hr), <- !app_assoc.
    destruct (warned pool m); reflexivity.
Qed.

Lemma check_member_prints (pool : pystr) (m : member)
    (tasks tasks' : list job) (done done' : list effect) :
  check_member pool m (tasks, done) = Ok (tasks', done') ->
  exists prints, done' = done ++ List.map Print prints.
Proof.
  intros E. destruct (stops pool m) eqn:Hs.
  - destruct (check_member_stops pool m (tasks, done) Hs) as [e E'].
    congruence.
  - rewrite (check_member_due _ _ _ _ Hs) in E. injection E as _ <-.
    destruct (warned pool m).
    + exists [SkippingMalformed m]. reflexivity.
    + exists []. reflexivity.
Qed.

Lemma check_members_prints (pool : pystr) (members : list member)
    (tasks tasks' : list job) (done done' : list effect) (e : option exn) :
  check_members pool members (tasks, done) = (tasks', done', e) ->
  exists prints, done' = done ++ List.map Print prints.
Proof.
  revert tasks done. induction members as [|m r IH]; intros tasks done;
    cbn [check_members].
  - intros [= _ <- _]. exists []. rewrite app_nil_r. reflexivity.
  - destruct (check_member pool m (tasks, done)) as [[tasks1 done1] |] eqn:E.
    + intros Hr. destruct (IH _ _ Hr) as [p2 ->].
      destruct (check_member_prints _ _ _ _ _ _ E) as [p1 ->].
      exists (p1 ++ p2). rewrite List.map_app, app_assoc. reflexivity.
    + intros [= _ <- _]. exists []. rewrite app_nil_r. reflexivity.
Qed.

Lemma check_members_stops (pool : pystr) (members : list member)
    (st : list job * list effect) :
  existsb (stops pool) members = true ->
  exists st' e, check_members pool members st = (st', Some e).
Proof.
  revert st. induction members as [|m r IH]; intros st; [discriminate |].
  cbn [existsb check_members]. intros Hs.
  destruct (check_member pool m st) as [st1 |] eqn:E; [| eauto].
  apply IH. destruct (stops pool m) eqn:Hm; [| exact Hs].
  destruct (check_member_stops pool m st Hm) as [e E']. congruence.
Qed.

Lemma fanned_out_app (a b : list effect) :
  fanned_out (a ++ b) = fanned_out a ++ fanned_out b.
Proof. unfold fanned_out. apply flat_map_app. Qed.

Lemma fanned_out_prints (prints : list event) :
  fanned_out (List.map Print prints) = [].
Proof. induction prints as [|p r IH]; [reflexivity | exact IH]. Qed.

(** A tick that a member stops: nothing is dispatched, and the error line
    is the last thing printed. *)
Lemma stopped_tick (pool : pystr) (now : Z) (members : list member) :
  existsb (stops pool) members = true ->
  let trace := check_for_updates_by_frequency pool now members in
  fanned_out trace = []
  /\ head trace = Some (RedisSet (last_run_key pool) now)
  /\ List.last trace (Print (RunningCheck pool)) = Print (CheckError pool).
Proof.
  intros Hs trace. subst trace. unfold check_for_updates_by_frequency.
  destruct members as [|m0 r0] eqn:Em; [discriminate |].
  cbn [nonempty negb]. rewrite <- Em in *. clear Em.
  destruct (check_members_stops pool members
              ([], [RedisSet (last_run_key pool) now;
                    Print (RunningCheck pool)]) Hs)
    as ([tasks done] & e & E).
  rewrite E. apply check_members_prints in E. destruct E as [prints ->].
  split; [| split].
  - rewrite !fanned_out_app, fanned_out_prints. reflexivity.
  - reflexivity.
  - apply last_last.
Qed.




(** ** Failures during discovery *)

(** When [sites_config.json] cannot be loaded the call returns "Failed",
    and leaves the cache alone and the queue empty. *)
Lemma config_failure_is_fatal `{PyRuntime} (folder : pystr)
    (urls : list pystr) (lib : pystr) (flag : bool) (w : world)
    (d : option series_dir) (cache : option (list pystr)) :
  sites_config w = None ->
  let r := process_series folder urls lib flag w d cache in
  returned r = Ok Failed_config /\ reply_status Failed_config = py "Failed"
  /\ dir_after r = makedirs d /\ cache_after r = cache /\ queued r = [].
Proof.
  intros E. unfold process_series. rewrite E. repeat split.
Qed.

(** A source for which gallery-dl exits with an error is reported and
    passed over: what was found before stays, and the loop goes on. *)
Lemma failed_exit_is_skipped `{PyRuntime} (flag : bool) (sites : list site)
    (w : world) (u : pystr) (f : found) :
  (flag = true -> flaresolverr (answer_for w u) <> None) ->
  returncode (answer_for w u) <> 0%Z ->
  exists f',
    discover_source flag sites w u f = Ok f'
    /\ all_discovered_chapters f' = all_discovered_chapters f
    /\ first_chapter_meta f' = first_chapter_meta f
    /\ printed f' = printed f ++ [Discovering u; DiscoveryFailed u].
Proof.
  intros Hs Hrc. unfold discover_source.
  apply Z.eqb_neq in Hrc. rewrite Hrc. simpl.
  destruct flag.
  - destruct (flaresolverr (answer_for w u)); [| elim Hs; reflexivity].
    eexists. split; [reflexivity |]. simpl. rewrite <- app_assoc. auto.
  - eexists. split; [reflexivity |]. simpl. rewrite <- app_assoc. auto.
Qed.

(** Output that is not JSON, as a whole or line by line, gives no chapter
    and no exception. *)
Lemma unreadable_output_is_empty `{PyRuntime} (out : dump) :
  whole out = Undecodable -> Forall (fun l => l = Undecodable) (lines out) ->
  extract_chapters_from_json out = Ok ([], JNull).
Proof.
  intros Ew Hl. unfold extract_chapters_from_json. rewrite Ew.
  induction Hl as [|l r -> _ IH]; simpl; [reflexivity | exact IH].
Qed.

(** The call returns "Failed" for want of chapters only when the sources
    gave none. *)
Lemma no_chapters_failure `{PyRuntime} (folder : pystr)
    (urls : list pystr) (lib : pystr) (flag : bool) (w : world)
    (d : option series_dir) (cache : option (list pystr)) :
  returned (process_series folder urls lib flag w d cache)
  = Ok Failed_no_chapters ->
  exists sites f,
    sites_config w = Some sites
    /\ discover flag sites w urls nothing_found = (f, None)
    /\ all_discovered_chapters f = [].
Proof.
  intros Hr. apply process_series_returns in Hr.
  destruct Hr as [(_ & [=] & _) | (sites & f & Es & Ed & Hr)].
  exists sites, f. split; [exact Es | split; [exact Ed |]].
  destruct Hr as [(Hc & _) | (pr & _ & _ & _ & _ & Hx)].
  - destruct (all_discovered_chapters f) as [|c0 cs] eqn:E; [reflexivity |].
    exfalso.
    pose proof (sorted_by_perm name
                  (final_chapters (unique_by_url (c0 :: cs)))) as Hp.
    fold (unique_chapters (c0 :: cs)) in Hp. rewrite Hc in Hp.
    apply Permutation_nil in Hp.
    pose proof (unique_by_url_urls (c0 :: cs)) as Hu.
    rewrite <- (renamed_urls _ []), <- final_chapters_renamed, Hp in Hu.
    discriminate.
  - destruct (new_chapters _ _); discriminate.
Qed.

(** C2, where the code departs from it: with the anti-bot session
    enabled, a source for which no session can be had ends the whole call
    with the exception; the second source, which has a chapter, is never
    read.  Without the first source the same call queues that chapter. *)
Theorem session_failure_aborts_discovery :
  let run := fun urls =>
    @process_series ascii_only (py "S") urls (py "/downloads/manga") true
      first_source_blocked None None in
  returned (run [py "http://h/s1"; py "http://h/s2"]) = Raise Exception
  /\ queued (run [py "http://h/s1"; py "http://h/s2"]) = []
  /\ cache_after (run [py "http://h/s1"; py "http://h/s2"]) = None
  /\ log (run [py "http://h/s1"; py "http://h/s2"])
     = [Discovering (py "http://h/s1")]
  /\ returned (run [py "http://h/s2"]) = Ok (Running 1)
  /\ queued (run [py "http://h/s2"])
     = [Download (py "http://k/c1") (py "/downloads/manga/S")
          (py "Chapter 0001") true].
Proof.
  vm_compute. repeat split.
Qed.

(** ** The watch registry *)

Lemma find_entry_Some (folder : pystr) (members : list entry) (e : entry) :
  find_entry folder members = Some e ->
  In e members /\ series_folder_name e = folder.
Proof.
  unfold find_entry. intros Hf. apply find_some in Hf as [Hin E].
  apply str_eqb_eq in E. auto.
Qed.

Lemma sadd_In (e x : entry) (members : list entry) :
  In x (sadd e members) <-> x = e \/ In x members.
Proof.
  unfold sadd. destruct (bool_decide_reflect (e ∈ members)) as [Hin | Hin].
  - apply list_elem_of_In in Hin. split; [auto |]. intros [-> | Hx]; auto.
  - rewrite in_app_iff. simpl. intuition.
Qed.

Lemma srem_In (e x : entry) (members : list entry) :
  In x (List.filter (fun m => negb (bool_decide (m = e))) members)
  <-> In x members /\ x <> e.
Proof.
  rewrite List.filter_In, negb_true_iff.
  destruct (bool_decide_reflect (x = e)); intuition congruence.
Qed.

#[local] Arguments sadd : simpl never.

(** Adding an address a series already has changes no member of the set;
    adding a new one puts it in and sorts the addresses. *)
Lemma add_source_merges (folder u : pystr) (members : list entry) (e : entry) :
  find_entry folder members = Some e ->
  exists members',
    add_source_to_series folder u members = Ok members'
    /\ (In u (series_urls e) ->
        forall x, In x members' <-> In x members)
    /\ (~ In u (series_urls e) ->
        forall x, In x members'
                  <-> x = with_urls e (sorted (series_urls e ++ [u]))
                      \/ (In x members /\ x <> e)).
Proof.
  intros Hf. unfold add_source_to_series. rewrite Hf.
  apply find_entry_Some in Hf as [Hin _].
  eexists. split; [reflexivity |]. split; intros Hu x.
  - apply str_in_In in Hu. rewrite Hu. simpl.
    rewrite sadd_In, srem_In. destruct (decide (x = e)) as [-> | Hx]; tauto.
  - apply str_in_false in Hu. rewrite Hu. simpl.
    rewrite sadd_In, srem_In. reflexivity.
Qed.

(** Removing the only address of a series removes the series; removing
    one of several keeps it, with the others in their order. *)
Lemma remove_source_removes (folder u : pystr) (members : list entry)
    (e : entry) :
  find_entry folder members = Some e -> In u (series_urls e) ->
  exists members',
    remove_source_from_series folder u members = Ok members'
    /\ (series_urls e = [u] ->
        forall x, In x members' <-> In x members /\ x <> e)
    /\ (list_remove u (series_urls e) <> [] ->
        forall x, In x members'
                  <-> x = with_urls e (list_remove u (series_urls e))
                      \/ (In x members /\ x <> e)).
Proof.
  intros Hf Hu. unfold remove_source_from_series. rewrite Hf.
  apply str_in_In in Hu. rewrite Hu. simpl.
  destruct (list_remove u (series_urls e)) as [|u0 rest] eqn:Er; simpl.
  - eexists. split; [reflexivity |]. split; [| intros []; reflexivity].
    intros _ x. apply srem_In.
  - eexists. split; [reflexivity |]. split.
    + intros E1. rewrite E1 in Er. simpl in Er.
      rewrite str_eqb_refl in Er. discriminate.
    + intros _ x. rewrite sadd_In, srem_In. reflexivity.
Qed.

Lemma str_leb_trans (a b c : pystr) :
  str_leb a b = true -> str_leb b c = true -> str_leb a c = true.
Proof.
  revert b c; induction a as [|x a IH]; intros [|y b] [|z c]; simpl;
    try discriminate; try reflexivity.
  rewrite !orb_true_iff, !andb_true_iff, !N.ltb_lt, !N.eqb_eq.
  intros [H1 | [-> H1]] [H2 | [-> H2]]; try (left; lia).
  right. split; [reflexivity | eapply IH; eassumption].
Qed.

Lemma list_remove_sorted (u : pystr) (l : list pystr) :
  Sorted str_le l -> Sorted str_le (list_remove u l).
Proof.
  intros Hs. apply Sorted_StronglySorted in Hs;
    [| intros a b c; apply str_leb_trans].
  apply StronglySorted_Sorted.
  induction Hs as [|x l Hs IH Hx]; simpl; [constructor |].
  destruct (str_eqb x u); [exact Hs |]. constructor; [exact IH |].
  apply List.Forall_forall. intros y Hy.
  rewrite List.Forall_forall in Hx. apply Hx.
  clear -Hy. induction l as [|z l IH]; simpl in *; [contradiction |].
  destruct (str_eqb z u); [right; exact Hy |].
  destruct Hy as [-> | Hy]; [left; reflexivity | right; auto].
Qed.

Lemma sorted_nonempty (l : list pystr) : l <> [] -> sorted l <> [].
Proof.
  intros Hl E. apply Hl. apply Permutation_nil.
  rewrite <- E. apply sorted_by_perm.
Qed.

Lemma has_sources_sadd (e : entry) (members : list entry) :
  series_urls e <> [] -> has_sources members -> has_sources (sadd e members).
Proof.
  intros He Hm. apply List.Forall_forall. intros x Hx.
  apply sadd_In in Hx as [-> | Hx]; [exact He |].
  unfold has_sources in Hm. rewrite List.Forall_forall in Hm. auto.
Qed.

Lemma has_sources_srem (e : entry) (members : list entry) :
  has_sources members -> has_sources (fst (srem e members)).
Proof.
  intros Hm. apply List.Forall_forall. intros x Hx.
  apply srem_In in Hx as [Hx _].
  unfold has_sources in Hm. rewrite List.Forall_forall in Hm. auto.
Qed.

(** The operations that keep the invariant: adding and removing an
    address, removing a series, the bulk import, and the download endpoint
    when it is given an address. *)
Lemma add_source_keeps_sources (folder u : pystr) (members members' : list entry) :
  has_sources members ->
  add_source_to_series folder u members = Ok members' -> has_sources members'.
Proof.
  intros Hm. unfold add_source_to_series.
  destruct (find_entry folder members) as [e |] eqn:Ef; [| discriminate].
  intros [= <-]. apply has_sources_sadd; [| apply has_sources_srem, Hm].
  apply find_entry_Some in Ef as [Hin _].
  unfold has_sources in Hm. rewrite List.Forall_forall in Hm.
  destruct (negb (str_in u (series_urls e))); [| auto]. simpl.
  apply sorted_nonempty. destruct (series_urls e); discriminate.
Qed.

Lemma remove_source_keeps_sources (folder u : pystr)
    (members members' : list entry) :
  has_sources members ->
  remove_source_from_series folder u members = Ok members' ->
  has_sources members'.
Proof.
  intros Hm. unfold remove_source_from_series.
  destruct (find_entry folder members) as [e |]; [| discriminate].
  destruct (negb (str_in u (series_urls e))); [discriminate |].
  destruct (nonempty (series_urls (with_urls e (list_remove u (series_urls e)))))
    eqn:En; intros [= <-].
  - apply has_sources_sadd; [| apply has_sources_srem, Hm].
    intros E. rewrite E in En. discriminate.
  - apply has_sources_srem, Hm.
Qed.

Lemma remove_watched_url_keeps_sources (folder : pystr)
    (members members' : list entry) :
  has_sources members ->
  remove_watched_url folder members = Ok members' -> has_sources members'.
Proof.
  intros Hm. unfold remove_watched_url.
  destruct (find_entry folder members) as [e |]; [| discriminate].
  pose proof (has_sources_srem e members Hm) as Hs.
  destruct (srem e members) as [kept removed]. simpl in Hs.
  destruct (0 <? removed)%nat; [| discriminate]. intros [= <-]. exact Hs.
Qed.

Lemma create_download_job_keeps_sources `{PyRuntime} (source_urls : list pystr)
    (req_library : pystr) (req_folder_name : option pystr) (title : json)
    (flag : bool) (req_frequency : pystr) (w : world) (uuid8 : pystr)
    (members members' : list entry) (jobs : list job) (folder : pystr) :
  source_urls <> [] -> has_sources members ->
  create_download_job source_urls req_library req_folder_name title flag
    req_frequency w uuid8 members = Ok (members', jobs, folder) ->
  has_sources members'.
Proof.
  intros Hs Hm. unfold create_download_job.
  destruct (libraries_get req_library) as [destination_path |]; [| discriminate].
  match goal with
  | |- context [match ?found with Some _ => _ | None => _ end = _] =>
      destruct found as [e |]
  end.
  - intros [= <- _ _]. apply has_sources_sadd; [| apply has_sources_srem, Hm].
    simpl. apply sorted_nonempty. intros E.
    destruct source_urls as [|u0 r]; [contradiction |].
    assert (Hin : In u0 (distinct (series_urls e ++ u0 :: r))).
    { apply distinct_In, in_or_app. right. left. reflexivity. }
    rewrite E in Hin. contradiction.
  - match goal with
    | |- context [match ?folder with Ok _ => _ | Raise _ => _ end = _] =>
        destruct folder as [name |]; [| discriminate]
    end.
    intros [= <- _ _]. apply has_sources_sadd; [| exact Hm].
    simpl. apply sorted_nonempty, Hs.
Qed.

Lemma bulk_add_url_keeps_sources `{PyRuntime} (req_library req_frequency : pystr)
    (sites : list site) (w : world) (snapshot : list entry) (st : bulk)
    (u : pystr) :
  has_sources (redis_members st) /\ has_sources (watched_entries st) ->
  has_sources (redis_members (bulk_add_url req_library req_frequency sites w
                                snapshot st u))
  /\ has_sources (watched_entries (bulk_add_url req_library req_frequency
                                     sites w snapshot st u)).
Proof.
  intros [Hr Hw]. unfold bulk_add_url.
  destruct (negb (nonempty u) || negb (nonempty (strip u))); [auto |].
  destruct (scraped_title w sites u) as [title |]; [| auto].
  destruct (negb (truthy title)); [auto |].
  destruct (find_entry (sanitize_filename title) (watched_entries st))
    as [e |] eqn:Ef.
  - destruct (negb (str_in u (series_urls e))); [| auto].
    destruct (List.find _ snapshot) as [raw |]; [| auto]. simpl. split.
    + apply has_sources_sadd; [| apply has_sources_srem, Hr].
      simpl. apply sorted_nonempty. destruct (series_urls e); discriminate.
    + clear -Hw. induction Hw as [|x l Hx Hl IH]; simpl; [constructor |].
      destruct (str_eqb (series_folder_name x) (sanitize_filename title));
        constructor; auto.
      simpl. apply sorted_nonempty. destruct (series_urls x); discriminate.
  - simpl. split; [| exact Hw]. apply has_sources_sadd; [| exact Hr].
    simpl. discriminate.
Qed.

Lemma bulk_add_task_keeps_sources `{PyRuntime} (urls : list pystr)
    (req_library req_frequency : pystr) (w : world) (members : list entry) :
  has_sources members ->
  has_sources (fst (bulk_add_task urls req_library req_frequency w members)).
Proof.
  intros Hm. unfold bulk_add_task.
  destruct (sites_config w) as [sites |]; [| exact Hm]. simpl.
  assert (Hst : has_sources (redis_members
                  {| redis_members := members; watched_entries := members;
                     bulk_queued := [] |})
                /\ has_sources (watched_entries
                  {| redis_members := members; watched_entries := members;
                     bulk_queued := [] |})) by (split; exact Hm).
  revert Hst. generalize {| redis_members := members;
                            watched_entries := members; bulk_queued := [] |}.
  induction urls as [|u r IH]; intros st Hst; simpl; [apply Hst |].
  apply IH. apply bulk_add_url_keeps_sources. exact Hst.
Qed.

(** The bulk endpoint refuses an empty list of addresses. *)
Lemma bulk_add_rejects_empty (req_library req_frequency : pystr) :
  bulk_add [] req_library req_frequency = Raise (HTTPException 400).
Proof. reflexivity. Qed.

(** C6, where the code departs from it: the download endpoint, given a
    title and an empty list of addresses, stores a watch entry whose
    addresses are empty (and queues a discovery over no address). *)
Theorem empty_sources_are_stored :
  let stored :=
    {| series_folder_name := py "X"; series_urls := [];
       library := py "manga"; use_flaresolverr := true;
       frequency := py "daily" |} in
  has_sources []
  /\ @create_download_job ascii_only [] (py "manga") None (JStr (py "X")) true
       (py "daily") one_chapter_world (py "0a1b2c3d") []
     = Ok ([stored], [Discover (py "X") [] (py "/downloads/manga") true],
           py "X")
  /\ ~ has_sources [stored].
Proof.
  split; [constructor |]. split; [vm_compute; reflexivity |].
  intros Hs. inversion Hs as [|e l He _]; subst. apply He. reflexivity.
Qed.

(** C7, where the code departs from it: a bulk import of two addresses
    of one series, the series not yet watched, stores two entries with the
    same folder name; and with the series already watched, it merges the
    first address and drops the second. *)
Theorem bulk_import_duplicates_entry :
  let entry_of := fun urls =>
    {| series_folder_name := py "T"; series_urls := urls;
       library := py "manga"; use_flaresolverr := true;
       frequency := py "daily" |} in
  fst (@bulk_add_task ascii_only [py "http://h.org/a"; py "http://h.org/b"]
         (py "manga") (py "daily") same_title_world [])
  = [entry_of [py "http://h.org/a"]; entry_of [py "http://h.org/b"]]
  /\ fst (@bulk_add_task ascii_only [py "http://h.org/a"; py "http://h.org/b"]
            (py "manga") (py "daily") same_title_world
            [entry_of [py "http://h.org/0"]])
     = [entry_of [py "http://h.org/0"; py "http://h.org/a"]].
Proof.
  vm_compute. split; reflexivity.
Qed.

(** * Further properties *)

(** ** Folder names are stable under [sanitize_filename] *)

Lemma dropwhile_id {A} (p : A -> bool) (l : list A) :
  (forall c, head l = Some c -> p c = false) -> dropwhile p l = l.
Proof.
  destruct l as [|x r]; [reflexivity |]. intros Hx. simpl.
  rewrite (Hx x eq_refl). reflexivity.
Qed.

Lemma rstrip_by_id (p : N -> bool) (s : pystr) :
  (forall c, last s = Some c -> p c = false) -> rstrip_by p s = s.
Proof.
  intros Hs. unfold rstrip_by. rewrite dropwhile_id; [apply rev_involutive |].
  intros c Hc. apply Hs. rewrite <- (rev_involutive s), last_rev_head.
  exact Hc.
Qed.

Lemma strip_idempotent `{PyRuntime} (s : pystr) : strip (strip s) = strip s.
Proof.
  assert (Hl : lstrip_by isspace (strip s) = strip s).
  { apply dropwhile_id. intros c Hc. apply (strip_ends s). left. exact Hc. }
  unfold strip at 1. rewrite Hl. apply rstrip_by_id.
  intros c Hc. apply (strip_ends s). right. exact Hc.
Qed.

Lemma filter_all {A} (f : A -> bool) (l : list A) :
  (forall x, In x l -> f x = true) -> List.filter f l = l.
Proof.
  induction l as [|x r IH]; intros Hl; simpl; [reflexivity |].
  rewrite (Hl x (or_introl eq_refl)), IH; [reflexivity |].
  intros y Hy. apply Hl. right. exact Hy.
Qed.

(** X1.  [sanitize_filename] is idempotent: a name it has returned is
    returned unchanged.  The folder name stored for a series is therefore
    the name under which a later request with the same title looks it up. *)
Theorem sanitize_filename_idempotent `{PyRuntime} (v : json) :
  sanitize_filename (JStr (sanitize_filename v)) = sanitize_filename v.
Proof.
  destruct v as [| | | |s| |]; try reflexivity.
  change (strip (List.filter safe_char (sanitize_filename (JStr s)))
          = sanitize_filename (JStr s)).
  rewrite filter_all.
  - apply strip_idempotent.
  - intros c Hc. apply sanitize_filename_chars in Hc. apply Hc.
Qed.

(** ** The extractor on every shape of output *)

(** X2.  Whenever the extractor returns, every chapter it returns has a
    non-empty address and a label that starts with "Chapter "; the metadata
    it returns is [None] or a dict, and is a dict with at least one key as
    soon as one chapter is returned.  This covers the outputs in which
    every url that is truthy is a string: at a record whose url is truthy
    and not a string the code appends a chapter with that url, and the
    extractor of this development ends with [UntypedUrl] instead of
    returning. *)
Theorem extracted_chapters_are_usable `{PyRuntime} (out : dump)
    (chapters : list chapter) (first_meta : json) :
  extract_chapters_from_json out = Ok (chapters, first_meta) ->
  Forall (fun c => url c <> [] /\ is_chapter_label (name c)) chapters
  /\ (first_meta = JNull \/ exists kv, first_meta = JDict kv)
  /\ (chapters <> [] -> exists kv, first_meta = JDict kv /\ kv <> []).
Proof.
  intros E. apply extract_chapters_extracted in E.
  destruct E as (Hall & Hmeta & Htruthy). simpl in *.
  split; [exact Hall | split; [exact Hmeta |]].
  intros Hne. specialize (Htruthy Hne).
  destruct Hmeta as [-> | [kv ->]]; [discriminate |].
  exists kv. split; [reflexivity |]. intros ->. discriminate.
Qed.

Lemma extracted_chapters_are_usable_witness :
  Forall (fun c => url c <> [] /\ is_chapter_label (name c))
    [ {| url := py "http://h/c1"; name := py "Chapter 0001" |} ]
  /\ (JDict [ (py "url", JStr (py "http://h/c1")); (py "chapter", JInt 1) ]
      = JNull
      \/ exists kv,
           JDict [ (py "url", JStr (py "http://h/c1")); (py "chapter", JInt 1) ]
           = JDict kv)
  /\ ([ {| url := py "http://h/c1"; name := py "Chapter 0001" |} ] <> [] ->
      exists kv,
        JDict [ (py "url", JStr (py "http://h/c1")); (py "chapter", JInt 1) ]
        = JDict kv /\ kv <> []).
Proof.
  apply (@extracted_chapters_are_usable ascii_only
           (stdout (answer_for one_chapter_world []))).
  vm_compute. reflexivity.
Defined.

Lemma for_each_ext {A B S} (f : A -> S -> result S) (g : B -> S -> result S)
    (a : A -> B) (l : list A) (st : S) :
  (forall x st, f x st = g (a x) st) ->
  for_each f l st = for_each g (List.map a l) st.
Proof.
  intros Hfg. revert st. induction l as [|x r IH]; intros st; [reflexivity |].
  cbn [List.map for_each]. rewrite Hfg.
  destruct (g (a x) st); [apply IH | reflexivity].
Qed.

Lemma for_each_map {A B S} (f : B -> S -> result S) (a : A -> B)
    (l : list A) (st : S) :
  for_each f (List.map a l) st = for_each (fun x => f (a x)) l st.
Proof.
  revert st. induction l as [|x r IH]; intros st; [reflexivity |].
  cbn [List.map for_each]. destruct (f (a x) st); [apply IH | reflexivity].
Qed.

Lemma for_each_messages `{PyRuntime}
    (ms : list (json * json * list (pystr * json)))
    (st : list chapter * json) :
  for_each process_sublist (List.map message ms) st
  = for_each process_chapter_data (List.map record_of ms) st.
Proof.
  rewrite for_each_map. apply for_each_ext. intros [[kind u] record] s.
  reflexivity.
Qed.

Lemma lines_messages `{PyRuntime}
    (ms : list (json * json * list (pystr * json)))
    (st : list chapter * json) :
  for_each process_line (List.map (fun m => Loaded (message m)) ms) st
  = for_each process_chapter_data (List.map record_of ms) st.
Proof.
  rewrite for_each_map. apply for_each_ext. intros [[kind u] record] s.
  reflexivity.
Qed.

(** X3.  The formats gallery-dl prints are read alike.  For the same
    messages [[kind, url, record]], the extractor gives the same result
    (the same chapters and metadata, or the same early end) from the one
    JSON list of the messages, from two or more messages printed one a line
    (a text [json.loads] cannot decode as a whole), from the list of the
    records with their address written in, and from an object that holds
    these records under "entries": in each case the records are read in
    order with the address of the message as their "url".  One message
    alone on its line is different: [json.loads] reads the text as a whole,
    as a list, and when the kind of the message is neither a list nor an
    object the extractor returns no chapter and no metadata. *)
Theorem formats_are_read_alike `{PyRuntime}
    (ms : list (json * json * list (pystr * json)))
    (ls : list loaded) :
  let read :=
    for_each process_chapter_data (List.map record_of ms) ([], JNull) in
  extract_chapters_from_json
    {| whole := Loaded (JList (List.map message ms)); lines := ls |} = read
  /\ ((2 <= length ms)%nat ->
      extract_chapters_from_json
        {| whole := Undecodable;
           lines := List.map (fun m => Loaded (message m)) ms |} = read)
  /\ extract_chapters_from_json
       {| whole := Loaded (JList (List.map record_of ms)); lines := ls |} = read
  /\ extract_chapters_from_json
       {| whole := Loaded (JDict [(py "entries", JList (List.map record_of ms))]);
          lines := ls |} = read
  /\ (forall m,
        match fst (fst m) with JList _ | JDict _ => False | _ => True end ->
        extract_chapters_from_json
          {| whole := Loaded (message m); lines := [Loaded (message m)] |}
        = Ok ([], JNull)).
Proof.
  intros read. subst read. unfold extract_chapters_from_json.
  cbn [whole lines]. split; [| split; [| split; [| split]]].
  - destruct ms as [|m ms]; [reflexivity |].
    change (List.map message (m :: ms))
      with (JList [fst (fst m); snd (fst m); JDict (snd m)]
            :: List.map message ms).
    cbv iota beta.
    change (JList [fst (fst m); snd (fst m); JDict (snd m)]
            :: List.map message ms)
      with (List.map message (m :: ms)).
    apply for_each_messages.
  - intros _. apply lines_messages.
  - destruct ms as [|m ms]; reflexivity.
  - reflexivity.
  - intros [[kind u] record]. cbn [fst snd message].
    destruct kind; intros Hk; solve [reflexivity | destruct Hk].
Qed.

Lemma for_each_Raise {A S} (body : A -> S -> result S) (l : list A) (st : S)
    (e : exn) :
  for_each body l st = Raise e ->
  exists x st0, In x l /\ body x st0 = Raise e.
Proof.
  revert st. induction l as [|x r IH]; intros st; simpl; [discriminate |].
  destruct (body x st) as [st1 |] eqn:E.
  - intros Er. destruct (IH _ Er) as (y & st0 & Hy & Hc). exists y, st0. auto.
  - intros [= <-]. exists x, st. auto.
Qed.

Lemma process_chapter_data_Raise `{PyRuntime} (data : json)
    (st : list chapter * json) (e : exn) :
  process_chapter_data data st = Raise e ->
  e = UntypedUrl
  /\ exists kv, data = JDict kv /\ truthy (dict_get (py "url") kv) = true
                /\ forall s, dict_get (py "url") kv <> JStr s.
Proof.
  destruct data as [| | | | | |kv]; try discriminate.
  destruct st as [chapters first_meta]. unfold process_chapter_data. cbv zeta.
  destruct (truthy (dict_get (py "url") kv)) eqn:Eu;
    [| destruct (chapter_num_raw kv); discriminate].
  destruct (dict_get (py "url") kv) as [| | | |chapter_url| |] eqn:Ed;
    destruct (chapter_num_raw kv); try discriminate; intros [= <-];
    (split; [reflexivity |]); exists kv; rewrite Ed;
    (split; [reflexivity | split; [exact Eu | discriminate]]).
Qed.

(** X4.  The extractor raises in these cases only: [json.loads] raises
    something other than [JSONDecodeError] on the whole text
    ([RecursionError], [ValueError]), which nothing catches; the whole text
    is undecodable and [json.loads] raises, on one of the lines, something
    other than [JSONDecodeError] and [TypeError]; the text is a JSON list
    whose first element is a list and which holds, after it, a number,
    boolean or null ([len] raises [TypeError]) or an object of more than two
    keys (reading its element 2 raises [KeyError]).  On every other output,
    readable or not, it returns.  ([UntypedUrl], the fourth case, is where
    this development stops and the code goes on: a record whose url is
    truthy and not a string.) *)
Theorem extractor_raises_in_these_cases_only `{PyRuntime} (out : dump)
    (e : exn) :
  extract_chapters_from_json out = Raise e ->
  whole out = Fails e
  \/ (whole out = Undecodable /\ In (Fails e) (lines out) /\ e <> TypeError)
  \/ (exists first rest x,
        whole out = Loaded (JList (JList first :: rest)) /\ In x rest
        /\ match x with
           | JNull | JBool _ | JInt _ | JFloat _ => e = TypeError
           | JDict kv => e = KeyError /\ (2 < length kv)%nat
           | _ => False
           end)
  \/ e = UntypedUrl.
Proof.
  unfold extract_chapters_from_json.
  destruct (whole out) as [[| | | | |[|[| | | | |first|] rest]|kv]| |e0];
    try discriminate.
  - intros E. apply for_each_Raise in E. destruct E as (x & st0 & Hx & E).
    unfold process_sublist in E.
    destruct x as [| | | |s|items|kv]; simpl in E;
      try (injection E as <-; destruct Hx as [[=] | Hx];
           right; right; left; exists first, rest; eexists;
           split; [reflexivity | split; [exact Hx | reflexivity]]).
    + destruct (2 <? length s)%nat; discriminate.
    + destruct (2 <? length items)%nat; [| discriminate].
      destruct (message_record items); [| discriminate].
      apply process_chapter_data_Raise in E. right; right; right. apply E.
    + destruct (2 <? length kv)%nat eqn:El; [| discriminate].
      injection E as <-. destruct Hx as [[=] | Hx].
      right; right; left. exists first, rest, (JDict kv).
      split; [reflexivity | split; [exact Hx |]].
      split; [reflexivity | apply Nat.ltb_lt; exact El].
  - intros E. apply for_each_Raise in E. destruct E as (x & st0 & _ & E).
    apply process_chapter_data_Raise in E. right; right; right. apply E.
  - destruct (dict_get (py "entries") kv); intros E;
      try (apply process_chapter_data_Raise in E; right; right; right;
           apply E).
    apply for_each_Raise in E. destruct E as (x & st0 & _ & E).
    apply process_chapter_data_Raise in E. right; right; right. apply E.
  - intros E. apply for_each_Raise in E. destruct E as (x & st0 & Hx & E).
    unfold process_line in E.
    destruct x as [[| | | | |items|]| |e1];
      try (apply process_chapter_data_Raise in E; right; right; right;
           apply E); try discriminate.
    + destruct (message_record items);
        apply process_chapter_data_Raise in E; right; right; right; apply E.
    + right; left. split; [reflexivity |].
      destruct e1; try discriminate; injection E as <-;
        (split; [exact Hx | discriminate]).
  - intros [= <-]. left. reflexivity.
Qed.

Lemma extractor_raises_in_these_cases_only_witness :
  whole {| whole := Undecodable;
           lines := [Loaded (JInt 1); Fails RecursionError] |}
  = Fails RecursionError
  \/ (whole {| whole := Undecodable;
               lines := [Loaded (JInt 1); Fails RecursionError] |}
      = Undecodable
      /\ In (Fails RecursionError)
           (lines {| whole := Undecodable;
                     lines := [Loaded (JInt 1); Fails RecursionError] |})
      /\ RecursionError <> TypeError)
  \/ (exists first rest x,
        whole {| whole := Undecodable;
                 lines := [Loaded (JInt 1); Fails RecursionError] |}
        = Loaded (JList (JList first :: rest)) /\ In x rest
        /\ match x with
           | JNull | JBool _ | JInt _ | JFloat _ => RecursionError = TypeError
           | JDict kv => RecursionError = KeyError /\ (2 < length kv)%nat
           | _ => False
           end)
  \/ RecursionError = UntypedUrl.
Proof.
  apply (@extractor_raises_in_these_cases_only ascii_only
           {| whole := Undecodable;
              lines := [Loaded (JInt 1); Fails RecursionError] |}
           RecursionError).
  vm_compute. reflexivity.
Defined.

(** ** What a discovery collects *)

(** X5.  A discovery that reads all its sources has collected the chapters
    of each source in the order of the sources: those the extractor reads
    from what gallery-dl printed where it exited with 0, and none where it
    exited with another code; and it has printed one line for each source,
    followed by the failure line for a source that exited non-zero. *)
Theorem discovery_collects_in_order `{PyRuntime} (flag : bool)
    (sites : list site) (w : world) (urls : list pystr) (f : found) :
  discover flag sites w urls nothing_found = (f, None) ->
  all_discovered_chapters f = flat_map (source_chapters w) urls
  /\ printed f = flat_map (source_events w) urls.
Proof. intros E. apply discover_collects in E. exact E. Qed.

Lemma discovery_collects_in_order_witness :
  all_discovered_chapters
    (fst (@discover ascii_only false [] one_chapter_world
            [py "http://h/a"; py "http://h/b"] nothing_found))
  = flat_map (@source_chapters ascii_only one_chapter_world)
      [py "http://h/a"; py "http://h/b"]
  /\ printed
       (fst (@discover ascii_only false [] one_chapter_world
               [py "http://h/a"; py "http://h/b"] nothing_found))
     = flat_map (source_events one_chapter_world)
         [py "http://h/a"; py "http://h/b"].
Proof.
  apply (@discovery_collects_in_order ascii_only false [] one_chapter_world
           [py "http://h/a"; py "http://h/b"]).
  vm_compute. reflexivity.
Defined.

(** ** One chapter for each address *)

Lemma dict_set_In {V} (k : pystr) (v : V) (d : list (pystr * V))
    (p : pystr * V) :
  List.NoDup (List.map fst d) ->
  In p (dict_set k v d) <-> p = (k, v) \/ (In p d /\ fst p <> k).
Proof.
  induction d as [|[k' v'] d IH]; intros Hd.
  - simpl. split; [intros [<- | []]; auto | intros [-> | [[] _]]; auto].
  - inversion Hd as [|? ? Hk' Hd']; subst. cbn [dict_set].
    destruct (str_eqb k' k) eqn:E.
    + apply str_eqb_eq in E. subst k'. cbn [In]. split.
      * intros [<- | Hp]; [auto |]. right. split; [auto |].
        intros Hf. apply Hk'. rewrite <- Hf. apply in_map. exact Hp.
      * intros [-> | [[<- | Hp] Hf]]; [auto | | auto]. simpl in Hf.
        contradiction.
    + apply str_eqb_neq in E. cbn [In]. rewrite (IH Hd'). split.
      * intros [<- | [-> | [Hp Hf]]]; auto.
      * intros [-> | [[<- | Hp] Hf]]; auto.
Qed.

Lemma by_url_keys_nil (chapters : list chapter) :
  List.map fst (by_url chapters []) = distinct (List.map url chapters).
Proof.
  rewrite by_url_keys. simpl.
  induction (distinct (List.map url chapters)) as [|x l IH]; simpl; congruence.
Qed.

Lemma by_url_snoc (chapters : list chapter) (x : chapter)
    (d : list (pystr * chapter)) :
  by_url (chapters ++ [x]) d = dict_set (url x) x (by_url chapters d).
Proof. unfold by_url. rewrite fold_left_app. reflexivity. Qed.

Lemma unique_by_url_snoc (chapters : list chapter) (x c : chapter) :
  In c (unique_by_url (chapters ++ [x]))
  <-> c = x \/ (In c (unique_by_url chapters) /\ url c <> url x).
Proof.
  unfold unique_by_url. rewrite by_url_snoc, !in_map_iff.
  assert (Hkeys : List.NoDup (List.map fst (by_url chapters []))).
  { rewrite by_url_keys_nil. apply NoDup_ListNoDup, distinct_NoDup. }
  assert (Hval : forall p, In p (by_url chapters []) -> fst p = url (snd p)).
  { intros p Hp. destruct (by_url_values _ _ _ Hp) as [[] | [_ E]]. exact E. }
  split.
  - intros (p & <- & Hp). apply (dict_set_In _ _ _ _ Hkeys) in Hp.
    destruct Hp as [-> | [Hp Hf]]; [left; reflexivity |]. right.
    split; [exists p; auto |]. rewrite <- (Hval p Hp). exact Hf.
  - intros [-> | [(p & <- & Hp) Hf]].
    + exists (url x, x). split; [reflexivity |].
      apply (dict_set_In _ _ _ _ Hkeys). left. reflexivity.
    + exists p. split; [reflexivity |].
      apply (dict_set_In _ _ _ _ Hkeys). right. split; [exact Hp |].
      rewrite (Hval p Hp). exact Hf.
Qed.

(** X6.  When an address is discovered more than once, by one source or by
    several, the chapter kept for it is the one discovered last: a chapter
    is among the deduplicated ones exactly when no chapter discovered after
    it has its address.  The label of a chapter listed by two sources is
    therefore the label the later source gives it. *)
Theorem last_discovered_is_kept (chapters : list chapter) (c : chapter) :
  In c (unique_by_url chapters)
  <-> exists a b,
        chapters = a ++ c :: b /\ ~ In (url c) (List.map url b).
Proof.
  induction chapters as [|x l IH] using rev_ind.
  - split; [intros [] |]. intros (a & b & E & _).
    destruct a; discriminate.
  - rewrite unique_by_url_snoc, IH. split.
    + intros [-> | [(a & b & -> & Hb) Hx]].
      * exists l, []. split; [reflexivity | intros []].
      * exists a, (b ++ [x]). split; [rewrite <- app_assoc; reflexivity |].
        rewrite List.map_app, in_app_iff. simpl. intuition congruence.
    + intros (a & b & E & Hb).
      destruct b as [|y b _] using rev_ind.
      * apply app_inj_tail in E. destruct E as [_ ->]. left. reflexivity.
      * change (a ++ c :: b ++ [y]) with (a ++ (c :: b) ++ [y]) in E.
        rewrite app_assoc in E. apply app_inj_tail in E.
        destruct E as [-> ->]. right.
        rewrite List.map_app, in_app_iff in Hb. simpl in Hb. split.
        -- exists a, b. split; [reflexivity | tauto].
        -- intros Hu. apply Hb. right. left. symmetry. exact Hu.
Qed.

(** ** The downloads a run queues *)

Lemma process_series_queue `{PyRuntime} (folder : pystr) (urls : list pystr)
    (lib : pystr) (flag : bool) (w : world) (d : option series_dir)
    (cache : option (list pystr)) :
  let r := process_series folder urls lib flag w d cache in
  queued r = []
  \/ exists sites f,
       sites_config w = Some sites
       /\ discover flag sites w urls nothing_found = (f, None)
       /\ queued r
          = List.map (fun chap => Download (url chap) (path_join lib folder)
                                    (name chap) flag)
              (new_chapters (unique_chapters (all_discovered_chapters f))
                 (dir_after r)).
Proof.
  unfold process_series.
  destruct (sites_config w) as [sites |]; [| left; reflexivity].
  destruct (discover flag sites w urls nothing_found) as [f [e |]] eqn:Ed;
    [left; reflexivity |].
  destruct (unique_chapters (all_discovered_chapters f)) as [|c0 cs] eqn:Ec;
    cbn [nonempty negb]; [left; reflexivity |].
  destruct (write_series_json folder urls flag sites w f (c0 :: cs) (makedirs d))
    as [[d1 [e |]] pr] eqn:Ew; [left; reflexivity |].
  destruct (new_chapters (c0 :: cs) d1) as [|n0 ns] eqn:En;
    cbn [nonempty negb queued dir_after]; [left; reflexivity |].
  right. exists sites, f. rewrite Ec, En. auto.
Qed.

Lemma NoDup_map_filter {A B} (f : A -> B) (p : A -> bool) (l : list A) :
  List.NoDup (List.map f l) -> List.NoDup (List.map f (List.filter p l)).
Proof.
  induction l as [|x r IH]; simpl; intros Hl; [constructor |].
  inversion Hl as [|? ? Hx Hr]; subst.
  destruct (p x); simpl; [constructor |]; auto.
  intros Hin. apply Hx. apply in_map_iff in Hin.
  destruct Hin as (y & E & Hy). apply List.filter_In in Hy.
  apply in_map_iff. exists y. tauto.
Qed.

Lemma unique_chapters_urls (all_discovered : list chapter) :
  Permutation (List.map url (unique_chapters all_discovered))
    (distinct (List.map url all_discovered)).
Proof.
  unfold unique_chapters.
  rewrite (Permutation_map url (sorted_by_perm name _)).
  rewrite final_chapters_renamed, renamed_urls, unique_by_url_urls.
  reflexivity.
Qed.

Lemma source_chapters_urls `{PyRuntime} (w : world) (u : pystr) (c : chapter) :
  In c (source_chapters w u) -> url c <> [].
Proof.
  unfold source_chapters.
  destruct (returncode (answer_for w u) =? 0)%Z; [| intros []].
  destruct (extract_chapters_from_json _) as [[chs meta] |] eqn:E;
    [| intros []].
  apply extract_chapters_extracted in E. destruct E as (Hall & _).
  simpl in Hall. rewrite List.Forall_forall in Hall.
  intros Hc. apply (Hall c Hc).
Qed.

(** X7.  The downloads one run of [process_series] queues are for pairwise
    distinct addresses, so that no chapter is fetched twice by the jobs of
    one run; each address is non-empty and is an address some source of the
    series listed; and every job writes below the directory of the series.
    This holds for every run that meets no record whose url is truthy and
    not a string, whatever it returns or raises.  (At such a record the code
    goes on with that url, and raises [TypeError] at the deduplication when
    the url cannot be a key; this development stops there with
    [UntypedUrl].) *)
Theorem queued_downloads_are_distinct `{PyRuntime} (folder : pystr)
    (urls : list pystr) (lib : pystr) (flag : bool) (w : world)
    (d : option series_dir) (cache : option (list pystr)) :
  let r := process_series folder urls lib flag w d cache in
  returned r <> Raise UntypedUrl ->
  exists chapters,
    queued r
    = List.map (fun chap => Download (url chap) (path_join lib folder)
                              (name chap) flag) chapters
    /\ NoDup (List.map url chapters)
    /\ Forall (fun chap =>
                 url chap <> []
                 /\ In (url chap)
                      (List.map url (flat_map (source_chapters w) urls)))
         chapters.
Proof.
  intros r _. destruct (process_series_queue folder urls lib flag w d cache)
    as [Hq | (sites & f & Es & Ed & Hq)]; fold r in Hq.
  { exists []. rewrite Hq. split; [reflexivity |].
    split; constructor. }
  exists (new_chapters (unique_chapters (all_discovered_chapters f))
            (dir_after r)).
  split; [exact Hq |].
  destruct (discover_collects _ _ _ _ _ _ Ed) as [Hall _]. simpl in Hall.
  pose proof (unique_chapters_urls (all_discovered_chapters f)) as Hperm.
  split.
  - apply NoDup_ListNoDup. unfold new_chapters. apply NoDup_map_filter.
    apply NoDup_ListNoDup. rewrite Hperm. apply distinct_NoDup.
  - apply List.Forall_forall. intros chap Hc. apply new_chapters_In in Hc.
    destruct Hc as [Hc _].
    assert (Hu : In (url chap) (List.map url (all_discovered_chapters f))).
    { apply distinct_In. apply (Permutation_in _ Hperm).
      apply in_map. exact Hc. }
    rewrite Hall in Hu. split; [| exact Hu].
    apply in_map_iff in Hu. destruct Hu as (c0 & E & Hc0).
    rewrite <- E. apply in_flat_map in Hc0. destruct Hc0 as (u & _ & Hc0).
    eapply source_chapters_urls. exact Hc0.
Qed.

Lemma queued_downloads_are_distinct_witness :
  let r := @process_series ascii_only (py "S") [py "http://h/s"]
             (py "/downloads/manga") false one_chapter_world None None in
  exists chapters,
    queued r
    = List.map (fun chap => Download (url chap)
                              (path_join (py "/downloads/manga") (py "S"))
                              (name chap) false) chapters
    /\ NoDup (List.map url chapters)
    /\ Forall (fun chap =>
                 url chap <> []
                 /\ In (url chap)
                      (List.map url
                         (flat_map (@source_chapters ascii_only
                                      one_chapter_world) [py "http://h/s"])))
         chapters.
Proof.
  apply (@queued_downloads_are_distinct ascii_only (py "S") [py "http://h/s"]
           (py "/downloads/manga") false one_chapter_world None None).
  vm_compute. discriminate.
Defined.

(** ** The document written to [series.json] *)






(** ** The series directory across a delivery *)

Lemma remove_working_directory_files `{PyRuntime} (label : pystr)
    (d : series_dir) (f : pystr) :
  is_chapter_label label ->
  (In f (files (remove_working_directory label d))
   <-> In f (files d) /\ f <> sanitize_filename (JStr label))
  /\ series_json (remove_working_directory label d) = series_json d
  /\ cover_jpg (remove_working_directory label d) = cover_jpg d.
Proof.
  intros Hl. unfold remove_working_directory.
  rewrite (labelled_subdirectory label Hl).
  split; [apply without_file_In | split; reflexivity].
Qed.

Lemma download_single_url_worked_on `{PyRuntime} (retries : nat)
    (u label : pystr) (flag : bool) (fw : fetch) (d : series_dir) :
  is_chapter_label label ->
  let run := download_single_url retries u label flag fw d in
  worked_on label (is_completed (fst (fst run))) d (snd (fst run))
  /\ snd run = if is_completed (fst (fst run)) then [u] else [].
Proof.
  intros Hl run. subst run.
  pose proof (app_neq_self (sanitize_filename (JStr label)) (py ".cbz")) as Hc.
  pose proof (app_neq_self (sanitize_filename (JStr label)) (py ".zip")) as Hz.
  assert (Hcz : sanitize_filename (JStr label) ++ py ".cbz"
                <> sanitize_filename (JStr label) ++ py ".zip").
  { intros E. apply app_inv_head in E. discriminate E. }
  assert (Hrm : forall d0 f,
             In f (files (remove_working_directory label d0))
             <-> In f (files d0) /\ f <> sanitize_filename (JStr label)).
  { intros d0 f. apply remove_working_directory_files, Hl. }
  assert (Hkeep : forall d0,
             (forall f, f <> sanitize_filename (JStr label) ++ py ".zip" ->
                        (In f (files d0) <-> In f (files d))) ->
             (In (sanitize_filename (JStr label) ++ py ".zip") (files d) ->
              In (sanitize_filename (JStr label) ++ py ".zip") (files d0)) ->
             series_json d0 = series_json d -> cover_jpg d0 = cover_jpg d ->
             worked_on label false d (remove_working_directory label d0)).
  { intros d0 Hsame Hzip Hs Hcov. unfold worked_on.
    destruct (remove_working_directory_files label d0 [] Hl) as (_ & -> & ->).
    split; [exact Hs |]. split; [exact Hcov |].
    split; [intros f H1 H2 H3; rewrite Hrm, Hsame by exact H2; tauto |].
    split; [rewrite Hrm; tauto |].
    split; [rewrite Hrm, Hsame by exact Hcz; intros Hin; split;
            [exact Hin | apply Hc; discriminate] |].
    split; [rewrite Hrm, Hsame by exact Hcz; tauto |].
    rewrite Hrm. intros Hin. split; [apply Hzip, Hin | apply Hz; discriminate]. }
  unfold download_single_url.
  destruct (download_body flag fw) as [[|] | e]; cbn [fst snd is_completed].
  - split; [| reflexivity]. apply Hkeep; auto; reflexivity.
  - split; [| reflexivity]. fold (completed_download label d). unfold worked_on.
    destruct (completed_download_series_json label d Hl) as [-> ->].
    pose proof (fun f => completed_download_files label d f
                           (labelled_subdirectory label Hl)) as Hf.
    split; [reflexivity |]. split; [reflexivity |].
    split; [intros f H1 H2 H3; rewrite Hf; tauto |].
    split; [rewrite Hf; intros [E | (_ & E & _)];
            [symmetry in E; apply Hc in E; [exact E | discriminate]
            | apply E; reflexivity] |].
    split; [intros _; apply Hf; left; reflexivity |].
    split; [apply Hf; left; reflexivity |].
    rewrite Hf. intros [E | (_ & _ & E)];
      [symmetry in E; apply Hcz in E; exact E | apply E; reflexivity].
  - assert (Hnot : is_completed (self_retry retries e) = false).
    { unfold self_retry. destruct (max_retries <? retries + 1)%nat;
        reflexivity. }
    rewrite Hnot. split; [| reflexivity].
    destruct (packaging_failed flag fw && zip_left fw).
    + apply Hkeep; try reflexivity.
      * intros f Hf. rewrite with_file_In. tauto.
      * intros _. apply with_file_In. right. reflexivity.
    + apply Hkeep; auto; reflexivity.
Qed.

Lemma worked_on_after_retry `{PyRuntime} (label : pystr) (completed : bool)
    (d d1 d2 : series_dir) :
  worked_on label false d d1 -> worked_on label completed d1 d2 ->
  worked_on label completed d d2.
Proof.
  unfold worked_on.
  intros (Hs1 & Hc1 & Hf1 & Hn1 & Ha1 & Hb1 & Hz1)
         (Hs2 & Hc2 & Hf2 & Hn2 & Ha2 & Hlast).
  split; [congruence |]. split; [congruence |].
  split; [intros f H1 H2 H3; rewrite Hf2, Hf1 by assumption; reflexivity |].
  split; [exact Hn2 |]. split; [auto |].
  destruct completed; [exact Hlast |]. destruct Hlast as [Hb2 Hz2]. auto.
Qed.

Lemma deliver_worked_on `{PyRuntime} (fuel retries : nat) (u label : pystr)
    (flag : bool) (ws : nat -> fetch) (d : series_dir) (del : delivery) :
  is_chapter_label label ->
  deliver fuel retries u label flag ws d = Some del ->
  worked_on label (is_completed (ended del)) d (dir_left del)
  /\ notified del = if is_completed (ended del) then [u] else [].
Proof.
  intros Hl. revert retries d. induction fuel as [|fuel IH]; intros retries d;
    [discriminate |].
  cbn [deliver].
  pose proof (download_single_url_worked_on retries u label flag (ws retries)
                d Hl) as Hstep.
  cbv zeta in Hstep.
  destruct (download_single_url retries u label flag (ws retries) d)
    as [[e d1] sent].
  cbn [fst snd] in Hstep. destruct Hstep as [Hw Hsent].
  destruct e as [r | | e]; try (intros [= <-]; cbn; auto).
  intros E. destruct (IH _ _ E) as [Hw2 Hn2]. split; [| exact Hn2].
  eapply worked_on_after_retry; eassumption.
Qed.

(** X9.  However the delivery of the download of a chapter with a label
    of the extractor ends (completed, failed with an empty directory, or
    given up after the retries), the directory of the series keeps its
    [series.json], its cover and every entry besides the three the task
    works with: the working directory named like the chapter, taken to be a
    directory when an entry of that name is there at the start, the file of
    that name with [.zip] and the one with [.cbz].  The working directory is
    gone at the end, and an archive of the chapter that was there is still
    there.  When the delivery completed, the archive of the chapter is in
    the directory, no [.zip] of that name is left and one notification was
    sent for the address of the chapter.  When it did not, no notification
    was sent, no archive was made and no [.zip] of that name was removed. *)
Theorem delivery_keeps_the_series_directory `{PyRuntime} (fuel retries : nat)
    (u label : pystr) (flag : bool) (ws : nat -> fetch) (d : series_dir)
    (del : delivery) :
  is_chapter_label label ->
  deliver fuel retries u label flag ws d = Some del ->
  let safe_chapter_name := sanitize_filename (JStr label) in
  let zip := safe_chapter_name ++ py ".zip" in
  let cbz := safe_chapter_name ++ py ".cbz" in
  series_json (dir_left del) = series_json d
  /\ cover_jpg (dir_left del) = cover_jpg d
  /\ (forall f, f <> safe_chapter_name -> f <> zip -> f <> cbz ->
                (In f (files (dir_left del)) <-> In f (files d)))
  /\ ~ In safe_chapter_name (files (dir_left del))
  /\ (In cbz (files d) -> In cbz (files (dir_left del)))
  /\ (ended del = Done Completed ->
      In cbz (files (dir_left del)) /\ ~ In zip (files (dir_left del))
      /\ notified del = [u])
  /\ (ended del <> Done Completed ->
      notified del = []
      /\ (In cbz (files (dir_left del)) -> In cbz (files d))
      /\ (In zip (files d) -> In zip (files (dir_left del)))).
Proof.
  intros Hl E safe_chapter_name zip cbz.
  destruct (deliver_worked_on _ _ _ _ _ _ _ _ Hl E)
    as [(Hs & Hc & Hf & Hn & Ha & Hlast) Hsent].
  fold safe_chapter_name zip cbz in Hf, Hn, Ha, Hlast.
  split; [exact Hs |]. split; [exact Hc |]. split; [exact Hf |].
  split; [exact Hn |]. split; [exact Ha |].
  destruct (ended del) as [[|] | | e]; cbn [is_completed] in Hlast, Hsent;
    (split; [intros He; try discriminate He
            | intros He; try (elim He; reflexivity)]);
    tauto.
Qed.

(** A delivery that completes at the second execution, in a directory
    where an earlier one left its working directory and a [.zip]. *)
Lemma delivery_keeps_the_series_directory_witness :
  let d := {| series_json := None; cover_jpg := None;
              files := [py "Chapter 0001.cbz"; py "Chapter 0002";
                        py "Chapter 0002.zip"; py "notes.txt"] |} in
  let del := {| ended := Done Completed; executions := 2;
                dir_left :=
                  {| series_json := None; cover_jpg := None;
                     files := [py "Chapter 0001.cbz"; py "notes.txt";
                               py "Chapter 0002.cbz"] |};
                notified := [py "http://h/c2"] |} in
  let safe_chapter_name :=
    @sanitize_filename ascii_only (JStr (py "Chapter 0002")) in
  let zip := safe_chapter_name ++ py ".zip" in
  let cbz := safe_chapter_name ++ py ".cbz" in
  series_json (dir_left del) = series_json d
  /\ cover_jpg (dir_left del) = cover_jpg d
  /\ (forall f, f <> safe_chapter_name -> f <> zip -> f <> cbz ->
                (In f (files (dir_left del)) <-> In f (files d)))
  /\ ~ In safe_chapter_name (files (dir_left del))
  /\ (In cbz (files d) -> In cbz (files (dir_left del)))
  /\ (ended del = Done Completed ->
      In cbz (files (dir_left del)) /\ ~ In zip (files (dir_left del))
      /\ notified del = [py "http://h/c2"])
  /\ (ended del <> Done Completed ->
      notified del = []
      /\ (In cbz (files (dir_left del)) -> In cbz (files d))
      /\ (In zip (files d) -> In zip (files (dir_left del)))).
Proof.
  intros d del.
  apply (@delivery_keeps_the_series_directory ascii_only 4 0
           (py "http://h/c2") (py "Chapter 0002") false
           (fun i => {| direct_returncode := if (i <? 1)%nat then 1%Z else 0%Z;
                        direct_files := [py "001.jpg"];
                        flaresolverr_args := []; flaresolverr_returncode := 0;
                        flaresolverr_files := []; archive_written := true;
                        zip_left := false |})
           d del).
  - exists (py "0002"). reflexivity.
  - vm_compute. reflexivity.
Defined.

Lemma download_body_Completed (flag : bool) (fw : fetch)
    (working_files : list pystr) :
  fetch_chapter flag fw = Ok working_files -> working_files <> [] ->
  archive_written fw = true -> download_body flag fw = Ok Completed.
Proof.
  intros E Hne Ha. unfold download_body. rewrite E, Ha.
  destruct working_files; [contradiction | reflexivity].
Qed.

Lemma deliver_recovers `{PyRuntime} (k fuel retries : nat) (u label : pystr)
    (flag : bool) (ws : nat -> fetch) (d : series_dir) :
  (retries + k <= max_retries)%nat -> (k < fuel)%nat ->
  (forall i, (retries <= i < retries + k)%nat ->
             exists e, fetch_chapter flag (ws i) = Raise e) ->
  download_body flag (ws (retries + k)%nat) = Ok Completed ->
  exists del,
    deliver fuel retries u label flag ws d = Some del
    /\ ended del = Done Completed
    /\ executions del = S (retries + k)
    /\ notified del = [u].
Proof.
  revert fuel retries d.
  induction k as [|k IH]; intros fuel retries d Hmax Hfuel Hfail Hok;
    (destruct fuel as [|fuel]; [lia |]); cbn [deliver];
    unfold download_single_url.
  - rewrite Nat.add_0_r in Hok |- *. rewrite Hok.
    eexists. split; [reflexivity |]. cbn. auto.
  - destruct (Hfail retries) as [e Ee]; [lia |].
    unfold download_body at 1. rewrite Ee.
    assert (Er : self_retry retries e = Retry).
    { unfold self_retry.
      destruct (Nat.ltb_spec max_retries (retries + 1)); [lia | reflexivity]. }
    rewrite Er.
    edestruct (IH fuel (S retries)) as (del & E & He & Hx & Hn).
    + lia.
    + lia.
    + intros i Hi. apply Hfail. lia.
    + replace (S retries + k)%nat with (retries + S k)%nat by lia. exact Hok.
    + exists del. split; [exact E |]. split; [exact He |].
      split; [rewrite Hx; lia | exact Hn].
Qed.

(** X10.  A download recovers from passing failures.  If the fetch fails in
    the first [k] executions, for [k] up to the three retries, and in the
    next one it succeeds with files and the archive is written, then the
    delivery ends "Completed" after exactly [k + 1] executions and sends
    exactly one notification. *)
Theorem delivery_recovers_after_failures `{PyRuntime} (k : nat)
    (u label : pystr) (flag : bool) (ws : nat -> fetch) (d : series_dir)
    (working_files : list pystr) :
  (k <= max_retries)%nat ->
  (forall i, (i < k)%nat -> exists e, fetch_chapter flag (ws i) = Raise e) ->
  fetch_chapter flag (ws k) = Ok working_files ->
  working_files <> [] ->
  archive_written (ws k) = true ->
  exists del,
    deliver (S max_retries) 0 u label flag ws d = Some del
    /\ ended del = Done Completed
    /\ executions del = S k
    /\ notified del = [u].
Proof.
  intros Hk Hfail Hok Hne Ha.
  apply (deliver_recovers k (S max_retries) 0 u label flag ws d).
  - lia.
  - unfold max_retries in *. lia.
  - intros i Hi. apply Hfail. lia.
  - eapply download_body_Completed; eassumption.
Qed.

Lemma delivery_recovers_after_failures_witness :
  exists del,
    @deliver ascii_only (S max_retries) 0 (py "http://h/c2")
      (py "Chapter 0002") false
      (fun i => {| direct_returncode := if (i <? 2)%nat then 1%Z else 0%Z;
                   direct_files := [py "001.jpg"];
                   flaresolverr_args := []; flaresolverr_returncode := 0;
                   flaresolverr_files := []; archive_written := true;
                   zip_left := false |})
      empty_dir = Some del
    /\ ended del = Done Completed
    /\ executions del = 3%nat
    /\ notified del = [py "http://h/c2"].
Proof.
  apply (@delivery_recovers_after_failures ascii_only 2 (py "http://h/c2")
           (py "Chapter 0002") false _ empty_dir [py "001.jpg"]).
  - unfold max_retries. lia.
  - intros i Hi. exists Exception.
    destruct i as [|[|i]]; [reflexivity | reflexivity | lia].
  - reflexivity.
  - discriminate.
  - reflexivity.
Defined.

(** ** A tick over a member that is not an object *)

(** X11.  One member of the watched set that is JSON but not an object (a
    number, a string, a list) stops the whole tick: the time of the tick is
    written, the error line is the last thing printed, and no discovery is
    dispatched at all, not even for the well-formed series of the pool that
    were read before it. *)
Theorem non_object_member_stops_the_tick (pool : pystr) (now : Z)
    (members : list member) (value : json) :
  In (NotAnObject value) members ->
  let trace := check_for_updates_by_frequency pool now members in
  fanned_out trace = []
  /\ head trace = Some (RedisSet (last_run_key pool) now)
  /\ List.last trace (Print (RunningCheck pool)) = Print (CheckError pool).
Proof.
  intros Hin. apply stopped_tick. apply existsb_exists.
  exists (NotAnObject value). split; [exact Hin | reflexivity].
Qed.

Lemma non_object_member_stops_the_tick_witness :
  let trace :=
    check_for_updates_by_frequency (py "daily") 100
      (List.map member_of_entry three_watched ++ [NotAnObject (JInt 3)]) in
  fanned_out trace = []
  /\ head trace = Some (RedisSet (last_run_key (py "daily")) 100)
  /\ List.last trace (Print (RunningCheck (py "daily")))
     = Print (CheckError (py "daily")).
Proof.
  apply (non_object_member_stops_the_tick (py "daily") 100
           (List.map member_of_entry three_watched ++ [NotAnObject (JInt 3)])
           (JInt 3)).
  simpl. auto.
Defined.

(** ** The registry keeps one entry for each folder *)

Lemma find_entry_None (folder : pystr) (members : list entry) :
  find_entry folder members = None
  <-> ~ In folder (List.map series_folder_name members).
Proof.
  unfold find_entry. induction members as [|x r IH]; simpl; [tauto |].
  destruct (str_eqb (series_folder_name x) folder) eqn:E.
  - apply str_eqb_eq in E. split; [discriminate | tauto].
  - apply str_eqb_neq in E. rewrite IH. tauto.
Qed.

Lemma find_entry_last (folder : pystr) (members : list entry) (e : entry) :
  ~ In folder (List.map series_folder_name members) ->
  series_folder_name e = folder ->
  find_entry folder (members ++ [e]) = Some e.
Proof.
  unfold find_entry. intros Hl He.
  induction members as [|x r IH]; simpl in *.
  - rewrite He, str_eqb_refl. reflexivity.
  - destruct (str_eqb (series_folder_name x) folder) eqn:E.
    + apply str_eqb_eq in E. tauto.
    + apply IH. tauto.
Qed.

Lemma NoDup_map_In {A B} (f : A -> B) (l : list A) (x y : A) :
  List.NoDup (List.map f l) -> In x l -> In y l -> f x = f y -> x = y.
Proof.
  induction l as [|z r IH]; simpl; [intros _ [] |].
  intros Hl. inversion Hl as [|? ? Hz Hr]; subst.
  intros [-> | Hx] [-> | Hy] E; auto.
  - exfalso. apply Hz. rewrite E. apply in_map, Hy.
  - exfalso. apply Hz. rewrite <- E. apply in_map, Hx.
Qed.

Lemma unique_names_srem (e : entry) (members : list entry) :
  unique_names members -> unique_names (fst (srem e members)).
Proof.
  unfold unique_names. intros Hm. apply NoDup_ListNoDup, NoDup_map_filter.
  apply NoDup_ListNoDup, Hm.
Qed.

Lemma srem_name_gone (e : entry) (members : list entry) :
  unique_names members -> In e members ->
  ~ In (series_folder_name e)
      (List.map series_folder_name (fst (srem e members))).
Proof.
  intros Hm He Hin. apply in_map_iff in Hin. destruct Hin as (x & E & Hx).
  apply srem_In in Hx. destruct Hx as [Hx Hne]. apply Hne.
  apply (NoDup_map_In series_folder_name members); auto.
  apply NoDup_ListNoDup, Hm.
Qed.

Lemma sadd_fresh (e : entry) (members : list entry) :
  ~ In (series_folder_name e) (List.map series_folder_name members) ->
  sadd e members = members ++ [e].
Proof.
  intros He. unfold sadd.
  destruct (bool_decide_reflect (e ∈ members)) as [Hin | Hin];
    [| reflexivity].
  exfalso. apply He, in_map, list_elem_of_In, Hin.
Qed.

Lemma unique_names_snoc (e : entry) (members : list entry) :
  unique_names members ->
  ~ In (series_folder_name e) (List.map series_folder_name members) ->
  unique_names (members ++ [e]).
Proof.
  unfold unique_names. intros Hm He. apply NoDup_ListNoDup.
  rewrite List.map_app. simpl. apply NoDup_ListNoDup in Hm.
  apply List.NoDup_app; [exact Hm | repeat constructor; intros [] | ].
  intros x Hx [<- | []]. contradiction.
Qed.

(** Putting [e'] in the place of [e], which has its folder name: the set
    that results, as a list. *)
Lemma replaced (e e' : entry) (members : list entry) :
  unique_names members -> In e members ->
  series_folder_name e' = series_folder_name e ->
  sadd e' (fst (srem e members)) = fst (srem e members) ++ [e']
  /\ unique_names (sadd e' (fst (srem e members)))
  /\ find_entry (series_folder_name e) (sadd e' (fst (srem e members)))
     = Some e'
  /\ fst (srem e' (fst (srem e members) ++ [e'])) = fst (srem e members).
Proof.
  intros Hm He Hn.
  pose proof (srem_name_gone e members Hm He) as Hgone.
  rewrite <- Hn in Hgone.
  rewrite (sadd_fresh _ _ Hgone). split; [reflexivity |].
  split; [apply unique_names_snoc; [apply unique_names_srem, Hm | exact Hgone] |].
  split; [rewrite <- Hn; apply find_entry_last; [exact Hgone | reflexivity] |].
  cbn [srem fst]. rewrite List.filter_app. cbn [List.filter].
  rewrite (bool_decide_true (e' = e')) by reflexivity. cbn [negb].
  rewrite app_nil_r. apply filter_all. intros x Hx.
  apply negb_true_iff, bool_decide_eq_false. intros ->.
  apply Hgone, in_map, Hx.
Qed.

Lemma sorted_In (x : pystr) (l : list pystr) : In x (sorted l) <-> In x l.
Proof.
  split; apply Permutation_in; [| symmetry]; apply sorted_by_perm.
Qed.

(** X12.  Adding an address to a series of a registry with one entry for
    each folder name leaves one entry for each folder name; the entry then
    found under the name has the new address beside the old ones and is
    otherwise the old entry; the other entries are untouched; and the call
    is idempotent: made a second time, it leaves the very same registry. *)
Theorem add_source_is_idempotent (folder u : pystr)
    (members members' : list entry) :
  unique_names members ->
  add_source_to_series folder u members = Ok members' ->
  unique_names members'
  /\ (exists e e',
        find_entry folder members = Some e
        /\ find_entry folder members' = Some e'
        /\ covers e e'
        /\ (forall v, In v (series_urls e') <-> v = u \/ In v (series_urls e))
        /\ forall x, In x members' <-> x = e' \/ (In x members /\ x <> e))
  /\ add_source_to_series folder u members' = Ok members'.
Proof.
  intros Hm. unfold add_source_to_series at 1.
  destruct (find_entry folder members) as [e |] eqn:Ef; [| discriminate].
  destruct (find_entry_Some _ _ _ Ef) as [He Hname].
  set (e' := if negb (str_in u (series_urls e))
             then with_urls e (sorted (series_urls e ++ [u])) else e).
  intros E. apply Ok_inj in E. subst members'.
  assert (Hn : series_folder_name e' = series_folder_name e).
  { unfold e'. destruct (negb _); reflexivity. }
  assert (Hurls : forall v, In v (series_urls e')
                            <-> v = u \/ In v (series_urls e)).
  { intros v. unfold e'. destruct (str_in u (series_urls e)) eqn:Eu;
      cbn [negb with_urls series_urls].
    - apply str_in_In in Eu. split; [auto |]. intros [-> | Hv]; auto.
    - rewrite sorted_In, in_app_iff. simpl. intuition auto. }
  destruct (replaced e e' members Hm He Hn) as (Hlist & Huniq & Hfind & Hrem).
  rewrite Hname in Hfind.
  split; [exact Huniq |]. split.
  - exists e, e'. split; [reflexivity |]. split; [exact Hfind |].
    split; [| split; [exact Hurls |]].
    + unfold covers. split; [exact Hn |].
      split; [unfold e'; destruct (negb _); reflexivity |].
      split; [unfold e'; destruct (negb _); reflexivity |].
      split; [unfold e'; destruct (negb _); reflexivity |].
      intros v Hv. apply Hurls. auto.
    + intros x. rewrite sadd_In. cbn [srem fst]. rewrite srem_In.
      reflexivity.
  - unfold add_source_to_series. rewrite Hfind.
    assert (Hu : str_in u (series_urls e') = true).
    { apply str_in_In, Hurls. auto. }
    rewrite Hu. cbn [negb]. rewrite Hlist at 1. rewrite Hrem.
    reflexivity.
Qed.

Lemma add_source_is_idempotent_witness :
  exists members',
    add_source_to_series (py "A") (py "http://k/a") three_watched
    = Ok members'
    /\ unique_names members'
    /\ (exists e e',
          find_entry (py "A") three_watched = Some e
          /\ find_entry (py "A") members' = Some e'
          /\ covers e e'
          /\ (forall v, In v (series_urls e')
                        <-> v = py "http://k/a" \/ In v (series_urls e))
          /\ forall x, In x members'
                       <-> x = e' \/ (In x three_watched /\ x <> e))
    /\ add_source_to_series (py "A") (py "http://k/a") members' = Ok members'.
Proof.
  eexists. split; [reflexivity |].
  apply (add_source_is_idempotent (py "A") (py "http://k/a") three_watched).
  - apply NoDup_ListNoDup. vm_compute.
    repeat constructor; simpl; intuition discriminate.
  - reflexivity.
Defined.

(** X13.  Removing a series answers 404 exactly when no entry has the
    folder name, and otherwise succeeds: the answer 500 of the endpoint
    cannot occur, since the member it removes was read from the set.  On
    success exactly the first entry of that name is gone, and in a registry
    with one entry for each folder name the name is then unknown. *)
Theorem remove_series_answers_404_or_removes (folder : pystr)
    (members : list entry) :
  match remove_watched_url folder members with
  | Ok members' =>
      exists e,
        find_entry folder members = Some e
        /\ (forall x, In x members' <-> In x members /\ x <> e)
        /\ (unique_names members ->
            find_entry folder members' = None /\ unique_names members')
  | Raise err =>
      err = HTTPException 404 /\ find_entry folder members = None
  end.
Proof.
  unfold remove_watched_url.
  destruct (find_entry folder members) as [e |] eqn:Ef; [| auto].
  destruct (find_entry_Some _ _ _ Ef) as [He Hname].
  pose proof (srem_name_gone e members) as Hgone.
  pose proof (unique_names_srem e members) as Huniq.
  unfold srem in *. cbn [fst] in *.
  rewrite (bool_decide_true (e ∈ members)) by (apply list_elem_of_In, He).
  cbn [Nat.ltb Nat.leb].
  exists e. split; [reflexivity |]. split; [intros x; apply srem_In |].
  intros Hm. split; [| apply Huniq, Hm].
  apply find_entry_None. rewrite <- Hname. apply Hgone; assumption.
Qed.

Lemma sorted_by_Sorted {A} (key : A -> pystr) (l : list A) :
  Sorted (fun a b => str_le (key a) (key b)) (sorted_by key l).
Proof.
  induction l as [|x l IH]; simpl; [constructor |].
  revert IH. generalize (sorted_by key l). clear l. intros l Hl.
  induction l as [|y l IH]; simpl.
  - repeat constructor.
  - destruct (str_leb (key x) (key y)) eqn:E.
    + constructor; [exact Hl | constructor; exact E].
    + inversion Hl as [|? ? Hl' Hhd]; subst. constructor; [auto |].
      apply str_leb_total in E.
      destruct l as [|z l]; simpl; [constructor; exact E |].
      destruct (str_leb (key x) (key z)); constructor; [exact E |].
      inversion Hhd; assumption.
Qed.

Lemma sorted_Sorted (l : list pystr) : Sorted str_le (sorted l).
Proof. apply (sorted_by_Sorted (fun s => s)). Qed.

Lemma sorted_NoDup (l : list pystr) : NoDup l -> NoDup (sorted l).
Proof.
  intros Hl. unfold sorted. rewrite (sorted_by_perm (fun s => s) l). exact Hl.
Qed.

(** What [POST /api/download] does once it has found the entry of the
    series. *)
Lemma create_download_job_found `{PyRuntime} (source_urls : list pystr)
    (req_library : pystr) (req_folder_name : option pystr) (title : json)
    (flag : bool) (req_frequency : pystr) (w : world) (uuid8 : pystr)
    (members : list entry) (e : entry) (destination_path : pystr) :
  libraries_get req_library = Some destination_path ->
  match match req_folder_name with
        | Some folder =>
            if nonempty folder then find_entry folder members else None
        | None => None
        end with
  | Some e0 => Some e0
  | None => if truthy title then find_entry (sanitize_filename title) members
            else None
  end = Some e ->
  let merged := sorted (distinct (series_urls e ++ source_urls)) in
  let e' := {| series_folder_name := series_folder_name e;
               series_urls := merged;
               library := library e;
               use_flaresolverr := use_flaresolverr e;
               frequency := if nonempty req_frequency
                               && negb (str_eqb (frequency e) req_frequency)
                            then req_frequency else frequency e |} in
  create_download_job source_urls req_library req_folder_name title flag
    req_frequency w uuid8 members
  = Ok (sadd e' (fst (srem e members)),
        [RecordCheck (frequency e');
         Discover (series_folder_name e) merged destination_path flag],
        series_folder_name e).
Proof.
  intros Hlib Hfound. unfold create_download_job. rewrite Hlib, Hfound.
  reflexivity.
Qed.

(** X14.  A download request for a series that is already watched, found
    by the folder name of the request or else by its sanitized title,
    merges the addresses: the entry stored and the discovery queued carry
    the old and the new addresses, each once, in sorted order.  The entry
    keeps its folder name, library and anti-bot setting, takes the
    frequency of the request when it gives one, and the check of its pool is
    recorded before the discovery is queued. *)
Theorem download_request_merges_sources `{PyRuntime}
    (source_urls : list pystr) (req_library : pystr)
    (req_folder_name : option pystr) (title : json) (flag : bool)
    (req_frequency : pystr) (w : world) (uuid8 : pystr)
    (members : list entry) (e : entry) (destination_path : pystr) :
  libraries_get req_library = Some destination_path ->
  (exists folder, req_folder_name = Some folder /\ folder <> []
                  /\ find_entry folder members = Some e)
  \/ (match req_folder_name with
      | Some folder => folder = [] \/ find_entry folder members = None
      | None => True
      end
      /\ truthy title = true
      /\ find_entry (sanitize_filename title) members = Some e) ->
  exists merged e',
    create_download_job source_urls req_library req_folder_name title flag
      req_frequency w uuid8 members
    = Ok (sadd e' (fst (srem e members)),
          [RecordCheck (frequency e');
           Discover (series_folder_name e) merged destination_path flag],
          series_folder_name e)
    /\ series_urls e' = merged
    /\ series_folder_name e' = series_folder_name e
    /\ library e' = library e
    /\ use_flaresolverr e' = use_flaresolverr e
    /\ frequency e' = (if nonempty req_frequency then req_frequency
                       else frequency e)
    /\ Sorted str_le merged
    /\ NoDup merged
    /\ (forall u, In u merged <-> In u (series_urls e) \/ In u source_urls).
Proof.
  intros Hlib Hfound.
  eexists _, _. split.
  - apply create_download_job_found; [exact Hlib |].
    destruct Hfound as [(folder & -> & Hne & Hf) | (Hname & Ht & Hf)].
    + destruct folder; [contradiction |]. cbn [nonempty]. rewrite Hf.
      reflexivity.
    + rewrite Ht, Hf. destruct req_folder_name as [folder |]; [| reflexivity].
      destruct folder; [reflexivity |]. cbn [nonempty].
      destruct Hname as [Hn | ->]; [discriminate | reflexivity].
  - cbn [series_urls series_folder_name library use_flaresolverr frequency].
    repeat (split; [reflexivity |]).
    split.
    { destruct (nonempty req_frequency); [| reflexivity]. cbn [andb].
      destruct (str_eqb (frequency e) req_frequency) eqn:E; [| reflexivity].
      apply str_eqb_eq in E. exact E. }
    split; [apply sorted_Sorted |].
    split; [apply sorted_NoDup, distinct_NoDup |].
    intros u. rewrite sorted_In, distinct_In, in_app_iff. reflexivity.
Qed.

Lemma download_request_merges_sources_witness :
  exists merged e',
    @create_download_job ascii_only [py "http://k/a"; py "http://h/a"]
      (py "comics") (Some (py "A")) JNull false (py "weekly")
      one_chapter_world (py "0a1b2c3d") three_watched
    = Ok (sadd e' (fst (srem series_A three_watched)),
          [RecordCheck (frequency e');
           Discover (series_folder_name series_A) merged
             (py "/downloads/comics") false],
          series_folder_name series_A)
    /\ series_urls e' = merged
    /\ series_folder_name e' = series_folder_name series_A
    /\ library e' = library series_A
    /\ use_flaresolverr e' = use_flaresolverr series_A
    /\ frequency e' = (if nonempty (py "weekly") then py "weekly"
                       else frequency series_A)
    /\ Sorted str_le merged
    /\ NoDup merged
    /\ (forall u, In u merged
                  <-> In u (series_urls series_A)
                      \/ In u [py "http://k/a"; py "http://h/a"]).
Proof.
  apply (@download_request_merges_sources ascii_only
           [py "http://k/a"; py "http://h/a"] (py "comics") (Some (py "A"))
           JNull false (py "weekly") one_chapter_world (py "0a1b2c3d")
           three_watched series_A (py "/downloads/comics")).
  - reflexivity.
  - left. exists (py "A"). split; [reflexivity |].
    split; [discriminate | reflexivity].
Defined.

(** X15.  A download request that names a title keeps one entry for each
    folder name: in a registry with that property the set it leaves has it
    too; the entry then found under the folder name it answers holds every
    address of the request; and the discovery it queues is for that folder
    and for the addresses of that entry. *)
Theorem download_request_keeps_names_unique `{PyRuntime}
    (source_urls : list pystr) (req_library : pystr)
    (req_folder_name : option pystr) (title : json) (flag : bool)
    (req_frequency : pystr) (w : world) (uuid8 : pystr)
    (members members' : list entry) (jobs : list job) (folder : pystr) :
  unique_names members -> truthy title = true ->
  create_download_job source_urls req_library req_folder_name title flag
    req_frequency w uuid8 members = Ok (members', jobs, folder) ->
  unique_names members'
  /\ exists e' urls destination_path,
       find_entry folder members' = Some e'
       /\ incl source_urls (series_urls e')
       /\ libraries_get req_library = Some destination_path
       /\ In (Discover folder urls destination_path flag) jobs
       /\ Permutation urls (series_urls e').
Proof.
  intros Hm Ht.
  destruct (libraries_get req_library) as [destination_path |] eqn:Hlib;
    [| unfold create_download_job; rewrite Hlib; discriminate].
  destruct (match match req_folder_name with
                  | Some folder =>
                      if nonempty folder then find_entry folder members
                      else None
                  | None => None
                  end with
            | Some e0 => Some e0
            | None => if truthy title
                      then find_entry (sanitize_filename title) members
                      else None
            end) as [e |] eqn:Hfound.
  - rewrite (create_download_job_found _ _ _ _ _ _ _ _ _ e _ Hlib Hfound).
    intros E. apply Ok_inj in E. injection E as <- <- <-.
    assert (He : In e members).
    { destruct req_folder_name as [[|c name] |]; cbn [nonempty] in Hfound;
        try (destruct (find_entry (c :: name) members) eqn:Ef;
             [injection Hfound as ->; apply (find_entry_Some _ _ _ Ef) |]);
        rewrite Ht in Hfound; apply (find_entry_Some _ _ _ Hfound). }
    match goal with
    | |- context [sadd ?x _] => set (e' := x)
    end.
    destruct (replaced e e' members Hm He eq_refl)
      as (_ & Huniq & Hfind & _).
    split; [exact Huniq |].
    exists e', (series_urls e'), destination_path.
    split; [exact Hfind |]. split.
    { intros u Hu. cbn [e' series_urls].
      apply sorted_In, distinct_In, in_or_app. right. exact Hu. }
    split; [reflexivity |]. split; [right; left; reflexivity | reflexivity].
  - unfold create_download_job. rewrite Hlib, Hfound.
    assert (Hnone : find_entry (sanitize_filename title) members = None).
    { destruct (match req_folder_name with Some _ => _ | None => _ end);
        [discriminate |]. rewrite Ht in Hfound. exact Hfound. }
    apply find_entry_None in Hnone.
    pose proof (sorted_by_perm (fun s : pystr => s) source_urls) as Hperm.
    fold (sorted source_urls) in Hperm.
    remember (sorted source_urls) as stored eqn:Es. clear Es.
    assert (Etitle : forall alt : json,
               (if negb (truthy title) then alt else title) = title).
    { intros alt. rewrite Ht. reflexivity. }
    destruct source_urls as [|first_url rest]; rewrite ?Etitle, Ht;
      intros E; apply Ok_inj in E; injection E as <- <- <-.
    all: match goal with
         | |- context [sadd ?x _] => set (e' := x)
         end.
    all: rewrite (sadd_fresh e' members Hnone).
    all: split; [apply unique_names_snoc; assumption |].
    all: exists e'; eexists; exists destination_path.
    all: split; [apply find_entry_last; [exact Hnone | reflexivity] |].
    all: split; [intros u Hu; apply (Permutation_in _ (Permutation_sym Hperm));
                 exact Hu |].
    all: split; [reflexivity |].
    all: split; [left; reflexivity |].
    all: symmetry; exact Hperm.
Qed.

Lemma download_request_keeps_names_unique_witness :
  exists members' jobs folder,
    @create_download_job ascii_only [py "http://h/t"] (py "manga") None
      (JStr (py "T: a/b")) true (py "daily") one_chapter_world
      (py "0a1b2c3d") three_watched = Ok (members', jobs, folder)
    /\ unique_names members'
    /\ exists e' urls destination_path,
         find_entry folder members' = Some e'
         /\ incl [py "http://h/t"] (series_urls e')
         /\ libraries_get (py "manga") = Some destination_path
         /\ In (Discover folder urls destination_path true) jobs
         /\ Permutation urls (series_urls e').
Proof.
  eexists _, _, _. split; [reflexivity |].
  apply (@download_request_keeps_names_unique ascii_only [py "http://h/t"]
           (py "manga") None (JStr (py "T: a/b")) true (py "daily")
           one_chapter_world (py "0a1b2c3d") three_watched).
  - apply NoDup_ListNoDup. vm_compute.
    repeat constructor; simpl; intuition discriminate.
  - reflexivity.
  - reflexivity.
Defined.

(** ** Every entry keeps an address *)

(** X16.  Starting from a registry in which every entry has an address,
    every entry still has one after adding an address to a series, after
    removing an address from a series, after removing a series, after a
    bulk import, and after a download request that carries at least one
    address. *)
Theorem registry_operations_keep_sources `{PyRuntime} (members : list entry) :
  has_sources members ->
  (forall folder u members',
      add_source_to_series folder u members = Ok members' ->
      has_sources members')
  /\ (forall folder u members',
        remove_source_from_series folder u members = Ok members' ->
        has_sources members')
  /\ (forall folder members',
        remove_watched_url folder members = Ok members' ->
        has_sources members')
  /\ (forall urls req_library req_frequency w,
        has_sources
          (fst (bulk_add_task urls req_library req_frequency w members)))
  /\ (forall source_urls req_library req_folder_name title flag req_frequency
             w uuid8 members' jobs folder,
        source_urls <> [] ->
        create_download_job source_urls req_library req_folder_name title
          flag req_frequency w uuid8 members = Ok (members', jobs, folder) ->
        has_sources members').
Proof.
  intros Hm. split; [| split; [| split; [| split]]].
  - intros folder u members'. apply add_source_keeps_sources, Hm.
  - intros folder u members'. apply remove_source_keeps_sources, Hm.
  - intros folder members'. apply remove_watched_url_keeps_sources, Hm.
  - intros. apply bulk_add_task_keeps_sources, Hm.
  - intros ? ? ? ? ? ? ? ? ? ? ? Hs.
    apply create_download_job_keeps_sources; assumption.
Qed.

Lemma registry_operations_keep_sources_witness :
  (forall folder u members',
      add_source_to_series folder u three_watched = Ok members' ->
      has_sources members')
  /\ (forall folder u members',
        remove_source_from_series folder u three_watched = Ok members' ->
        has_sources members')
  /\ (forall folder members',
        remove_watched_url folder three_watched = Ok members' ->
        has_sources members')
  /\ (forall urls req_library req_frequency w,
        has_sources
          (fst (@bulk_add_task ascii_only urls req_library req_frequency w
                  three_watched)))
  /\ (forall source_urls req_library req_folder_name title flag req_frequency
             w uuid8 members' jobs folder,
        source_urls <> [] ->
        @create_download_job ascii_only source_urls req_library
          req_folder_name title flag req_frequency w uuid8 three_watched
        = Ok (members', jobs, folder) ->
        has_sources members').
Proof.
  apply (@registry_operations_keep_sources ascii_only three_watched).
  repeat constructor; discriminate.
Defined.

(** ** The bulk import *)

Lemma covers_refl (e : entry) : covers e e.
Proof. unfold covers. repeat split; try reflexivity. intros u Hu. exact Hu. Qed.

Lemma covers_trans (a b c : entry) : covers a b -> covers b c -> covers a c.
Proof.
  unfold covers. intros (E1 & E2 & E3 & E4 & Hi) (F1 & F2 & F3 & F4 & Hj).
  repeat split; try congruence. intros u Hu. auto.
Qed.

Lemma fold_left_invariant_In {A S} (P : S -> Prop) (step : S -> A -> S)
    (l : list A) (st : S) :
  (forall st x, In x l -> P st -> P (step st x)) ->
  P st -> P (fold_left step l st).
Proof.
  revert st. induction l as [|x r IH]; intros st Hstep Hst; simpl;
    [exact Hst |].
  apply IH; [intros; apply Hstep; [right |]; assumption |].
  apply Hstep; [left; reflexivity | exact Hst].
Qed.

Lemma bulk_add_url_importing `{PyRuntime} (urls : list pystr)
    (req_library req_frequency : pystr) (sites : list site) (w : world)
    (snapshot members : list entry) (st : bulk) (u : pystr) :
  In u urls ->
  importing urls req_library w members st ->
  importing urls req_library w members
    (bulk_add_url req_library req_frequency sites w snapshot st u).
Proof.
  intros Hu Hst. unfold bulk_add_url.
  destruct (nonempty u) eqn:En; cbn [negb orb]; [| exact Hst].
  destruct (nonempty (strip u)) eqn:Es; cbn [negb]; [| exact Hst].
  destruct (scraped_title w sites u) as [title |] eqn:Et; [| exact Hst].
  destruct (negb (truthy title)); [exact Hst |].
  destruct Hst as [Hcov Hjobs].
  destruct (find_entry (sanitize_filename title) (watched_entries st))
    as [e |] eqn:Ef.
  - destruct (negb (str_in u (series_urls e))); [| split; assumption].
    destruct (List.find _ snapshot) as [raw |] eqn:Eraw; [| split; assumption].
    apply find_some in Eraw. destruct Eraw as [_ Eraw].
    apply bool_decide_eq_true in Eraw. subst raw.
    split; [| exact Hjobs]. cbn [redis_members].
    intros x Hx. destruct (Hcov x Hx) as (x' & Hx' & Hc).
    destruct (decide (x' = e)) as [-> | Hne].
    + eexists. split; [apply sadd_In; left; reflexivity |].
      apply (covers_trans _ _ _ Hc). unfold covers. cbn.
      repeat split; try reflexivity.
      intros v Hv. apply sorted_In, in_or_app. left. exact Hv.
    + exists x'. split; [| exact Hc]. apply sadd_In. right.
      cbn [srem fst]. apply srem_In. auto.
  - split; cbn [redis_members bulk_queued].
    + intros x Hx. destruct (Hcov x Hx) as (x' & Hx' & Hc).
      exists x'. split; [apply sadd_In; right; exact Hx' | exact Hc].
    + destruct (libraries_get req_library) as [destination_path |] eqn:El;
        [| exact Hjobs].
      apply Forall_app. split; [exact Hjobs |]. constructor; [| constructor].
      exists u, destination_path. unfold scraped_title in Et.
      destruct (site_for sites u); [| discriminate].
      injection Et as <-. split; [reflexivity |].
      split; [exact Hu |]. split; [| reflexivity].
      intros E. rewrite E in Es. discriminate.
Qed.

(** X17.  A bulk import never drops a watched series: every entry of the
    registry is, after the import, still covered by an entry of the same
    folder name, library, anti-bot setting and frequency that holds at least
    its addresses.  Every job the import queues is the discovery of exactly
    one address of the request, an address that is not blank, under the
    sanitized title of its page, in the library of the request.  Without a
    readable site configuration the import changes and queues nothing. *)
Theorem bulk_import_keeps_every_series `{PyRuntime} (urls : list pystr)
    (req_library req_frequency : pystr) (w : world) (members : list entry) :
  let imported := bulk_add_task urls req_library req_frequency w members in
  (forall e, In e members ->
     exists e', In e' (fst imported) /\ covers e e')
  /\ Forall (fun j =>
               exists u destination_path,
                 j = Discover
                       (sanitize_filename
                          (dict_get (py "title")
                             (page_metadata (answer_for w u))))
                       [u] destination_path true
                 /\ In u urls /\ strip u <> []
                 /\ libraries_get req_library = Some destination_path)
       (snd imported)
  /\ (sites_config w = None -> imported = (members, [])).
Proof.
  intros imported. subst imported. unfold bulk_add_task.
  destruct (sites_config w) as [sites |].
  - cbn [fst snd]. split; [| split; [| discriminate]];
      apply (fold_left_invariant_In
               (importing urls req_library w members));
      try (intros st u Hu Hst; apply bulk_add_url_importing; assumption);
      (split; [intros e He; exists e; split; [exact He | apply covers_refl]
              | constructor]).
  - split; [| split; [constructor | reflexivity]].
    intros e He. exists e. split; [exact He | apply covers_refl].
Qed.

(** ** The title endpoint *)

(** X18.  The title endpoint answers the title scraped from the page, when
    the site configuration loads, a configured site matches the address and
    the page gives a title; in every other case it answers 500.  The 400
    ("no site configuration for this URL") and the 404 ("no title on the
    page") it raises never reach the client, because its own handler of
    [Exception] catches them.  When it answers a title, a download request
    for the same address that names no title and no folder adds the series
    under the sanitized form of that very title, and queues its discovery
    there. *)
Theorem title_endpoint_answers_title_or_500 `{PyRuntime} (request_url : pystr)
    (w : world) :
  match get_title_from_url request_url w with
  | Ok title =>
      truthy title = true
      /\ (exists sites_config_list,
            sites_config w = Some sites_config_list
            /\ scraped_title w sites_config_list request_url = Some title)
      /\ forall req_library destination_path flag req_frequency uuid8 members,
           libraries_get req_library = Some destination_path ->
           create_download_job [request_url] req_library None JNull flag
             req_frequency w uuid8 members
           = Ok (sadd {| series_folder_name := sanitize_filename title;
                         series_urls := [request_url];
                         library := req_library;
                         use_flaresolverr := flag;
                         frequency := req_frequency |} members,
                 [Discover (sanitize_filename title) [request_url]
                    destination_path flag],
                 sanitize_filename title)
  | Raise err =>
      err = HTTPException 500
      /\ err <> HTTPException 400 /\ err <> HTTPException 404
      /\ forall sites_config_list title,
           sites_config w = Some sites_config_list ->
           scraped_title w sites_config_list request_url = Some title ->
           truthy title = false
  end.
Proof.
  unfold get_title_from_url.
  destruct (sites_config w) as [sites |] eqn:Es.
  - destruct (scraped_title w sites request_url) as [scraped |] eqn:Ec.
    + destruct (truthy scraped) eqn:Et.
      * split; [exact Et |].
        split; [exists sites; split; [reflexivity | exact Ec] |].
        intros req_library destination_path flag req_frequency uuid8 members
          Hlib.
        unfold create_download_job. rewrite Hlib. cbn [truthy negb].
        rewrite Es, Ec, Et. cbv beta iota. rewrite Et. reflexivity.
      * repeat split; try discriminate.
        intros ? ? [= <-] E. rewrite Ec in E. injection E as <-. exact Et.
    + repeat split; try discriminate.
      intros ? ? [= <-] E. rewrite Ec in E. discriminate.
  - repeat split; discriminate.
Qed.

(** ** The schedule shown and the ticks *)

Lemma clock_after_app (a b : list effect) (c : clock) :
  clock_after (a ++ b) c = clock_after b (clock_after a c).
Proof. unfold clock_after. apply fold_left_app. Qed.

Lemma clock_after_prints (prints : list event) (c : clock) :
  clock_after (List.map Print prints) c = c.
Proof. induction prints as [|p r IH]; [reflexivity | exact IH]. Qed.

Lemma clock_after_tick (pool : pystr) (now : Z) (members : list member)
    (c : clock) :
  clock_after (check_for_updates_by_frequency pool now members) c
  = <[last_run_key pool := now]> c.
Proof.
  unfold check_for_updates_by_frequency.
  destruct (negb (nonempty members)); [reflexivity |].
  destruct (check_members pool members _) as [[tasks done] e] eqn:E.
  apply check_members_prints in E. destruct E as [prints ->].
  assert (Hdone : clock_after
                    ([RedisSet (last_run_key pool) now;
                      Print (RunningCheck pool)] ++ List.map Print prints) c
                  = <[last_run_key pool := now]> c).
  { rewrite clock_after_app, clock_after_prints. reflexivity. }
  destruct e as [e |]; [| destruct (nonempty tasks)].
  - rewrite clock_after_app, Hdone. reflexivity.
  - rewrite clock_after_app, Hdone. reflexivity.
  - exact Hdone.
Qed.

Lemma last_run_key_inj (a b : pystr) :
  last_run_key a = last_run_key b -> a = b.
Proof. unfold last_run_key. apply app_inv_head. Qed.

Lemma beat_schedule_intervals (pool : pystr) (period : Z) :
  In (pool, period) beat_schedule ->
  In (pool, seconds period) SCHEDULE_INTERVALS /\ nonempty pool = true.
Proof.
  unfold beat_schedule, SCHEDULE_INTERVALS.
  intros [E | [E | [E | [E | []]]]]; injection E as <- <-;
    (split; [| reflexivity]); cbn [In]; auto 6.
Qed.

(** X19.  The schedule the API shows follows the ticks.  For each of the
    four pools of the beat schedule, after a tick of the pool at a time
    [now], whatever the watched set holds, the next run shown for the pool
    is [now] plus the period at which the beat fires the pool; what is shown
    for the other pools is unchanged; the same is shown after
    [record_check_timestamp] for the pool at that time; and the pools shown
    are those of the beat schedule, in its order. *)
Theorem next_run_follows_the_tick (pool : pystr) (period now : Z)
    (members : list member) (c : clock) :
  In (pool, period) beat_schedule ->
  let ticked :=
    clock_after (check_for_updates_by_frequency pool now members) c in
  In (pool, Some (now + seconds period)%Z) (get_schedule_status ticked)
  /\ (forall other next,
        other <> pool ->
        In (other, next) (get_schedule_status ticked)
        <-> In (other, next) (get_schedule_status c))
  /\ get_schedule_status (clock_after (record_check_timestamp pool now) c)
     = get_schedule_status ticked
  /\ List.map fst (get_schedule_status ticked) = List.map fst beat_schedule.
Proof.
  intros Hpool ticked. subst ticked. rewrite clock_after_tick.
  destruct (beat_schedule_intervals _ _ Hpool) as [Hin Hne].
  split; [| split; [| split]].
  - unfold get_schedule_status. apply in_map_iff.
    exists (pool, seconds period). cbn [fst snd].
    rewrite lookup_insert_eq. auto.
  - intros other next Hother. unfold get_schedule_status.
    rewrite !in_map_iff.
    split; intros (p & E & Hp); exists p; (split; [| exact Hp]);
      injection E as E1 E2; subst other;
      rewrite lookup_insert_ne in *
        by (intros Hk; apply last_run_key_inj in Hk; congruence);
      rewrite E2; reflexivity.
  - unfold record_check_timestamp. rewrite Hne. reflexivity.
  - reflexivity.
Qed.

Lemma next_run_follows_the_tick_witness :
  let ticked :=
    clock_after
      (check_for_updates_by_frequency (py "daily") 1000
         (List.map member_of_entry three_watched)) ∅ in
  In (py "daily", Some (1000 + seconds 86400)%Z) (get_schedule_status ticked)
  /\ (forall other next,
        other <> py "daily" ->
        In (other, next) (get_schedule_status ticked)
        <-> In (other, next) (get_schedule_status ∅))
  /\ get_schedule_status
       (clock_after (record_check_timestamp (py "daily") 1000) ∅)
     = get_schedule_status ticked
  /\ List.map fst (get_schedule_status ticked) = List.map fst beat_schedule.
Proof.
  apply (next_run_follows_the_tick (py "daily") 86400 1000
           (List.map member_of_entry three_watched) ∅).
  simpl. auto.
Defined.

(** ** The list of watched series *)

Lemma watched_row_Ok `{PyRuntime} (s : shelf) (e : entry) (row : watched) :
  watched_row s e = Ok row ->
  watched_entry row = e
  /\ series_urls e <> []
  /\ missing_chapters_count row = length (missing_chapters_list row)
  /\ Sorted str_le (missing_chapters_list row).
Proof.
  unfold watched_row.
  destruct (series_urls e) as [|u0 us]; [discriminate |].
  assert (Hnone : forall row,
             Ok {| watched_entry := e; missing_chapters_count := 0;
                   missing_chapters_list := [] |} = Ok row ->
             watched_entry row = e /\ u0 :: us <> []
             /\ missing_chapters_count row = length (missing_chapters_list row)
             /\ Sorted str_le (missing_chapters_list row)).
  { intros row' E. apply Ok_inj in E. subst row'. cbn.
    repeat split; [discriminate | constructor]. }
  destruct (cached_chapters s (series_folder_name e)) as [names |];
    [| apply Hnone].
  destruct (libraries_get (library e)) as [library_path |]; [| discriminate].
  destruct (directory s _) as [d |]; [| apply Hnone].
  destruct (nonempty names); [| apply Hnone].
  intros E. apply Ok_inj in E. subst row. cbn.
  split; [reflexivity |]. split; [discriminate |].
  split; [| apply sorted_Sorted].
  symmetry. apply Permutation_length, sorted_by_perm.
Qed.

Lemma watched_row_answers `{PyRuntime} (s : shelf) (e : entry) :
  series_urls e <> [] ->
  cached_chapters s (series_folder_name e) = None
  \/ libraries_get (library e) <> None ->
  exists row, watched_row s e = Ok row.
Proof.
  intros Hu Hc. unfold watched_row.
  destruct (series_urls e) as [|u0 us]; [contradiction |].
  destruct (cached_chapters s (series_folder_name e)) as [names |];
    [| eauto].
  destruct (libraries_get (library e)) as [library_path |];
    [| destruct Hc as [Hc | Hc]; [discriminate | contradiction]].
  destruct (directory s _) as [d |]; [| eauto].
  destruct (nonempty names); eauto.
Qed.

Lemma get_watched_urls_In `{PyRuntime} (s : shelf) (members : list entry)
    (row : watched) :
  In row (get_watched_urls s members)
  <-> exists e, In e members /\ watched_row s e = Ok row.
Proof.
  unfold get_watched_urls. split.
  - intros Hin. apply (Permutation_in _ (sorted_by_perm _ _)) in Hin.
    apply in_flat_map in Hin. destruct Hin as (e & He & Hrow).
    exists e. split; [exact He |].
    destruct (watched_row s e) as [row' |]; [| destruct Hrow].
    destruct Hrow as [-> | []]. reflexivity.
  - intros (e & He & E).
    apply (Permutation_in _ (Permutation_sym (sorted_by_perm _ _))).
    apply in_flat_map. exists e. split; [exact He |]. rewrite E. left.
    reflexivity.
Qed.

(** X20.  The list of watched series is sorted by folder name.  Each of
    its rows is for an entry of the registry that has at least one address;
    its count of missing chapters is the length of its list of missing
    chapters, and that list is sorted.  An entry without addresses is
    never shown.  An entry with addresses is shown whenever no chapter list
    is cached for it or its library is one of the configured ones; and when
    every entry has an address and a configured library, the rows are the
    entries, one row each. *)
Theorem listing_shows_series_with_sources `{PyRuntime} (s : shelf)
    (members : list entry) :
  let rows := get_watched_urls s members in
  Sorted folder_le rows
  /\ (forall row, In row rows ->
        In (watched_entry row) members
        /\ series_urls (watched_entry row) <> []
        /\ missing_chapters_count row = length (missing_chapters_list row)
        /\ Sorted str_le (missing_chapters_list row))
  /\ (forall e, In e members -> series_urls e <> [] ->
        cached_chapters s (series_folder_name e) = None
        \/ libraries_get (library e) <> None ->
        exists row, In row rows /\ watched_entry row = e)
  /\ (Forall (fun e => series_urls e <> []
                       /\ libraries_get (library e) <> None) members ->
      Permutation (List.map watched_entry rows) members).
Proof.
  intros rows. subst rows. split; [| split; [| split]].
  - unfold get_watched_urls, folder_le. apply sorted_by_Sorted.
  - intros row Hrow. apply get_watched_urls_In in Hrow.
    destruct Hrow as (e & He & E). apply watched_row_Ok in E.
    destruct E as (-> & Hu & Hc & Hs). auto.
  - intros e He Hu Hc. destruct (watched_row_answers s e Hu Hc) as [row E].
    exists row. split; [apply get_watched_urls_In; eauto |].
    apply watched_row_Ok in E. apply E.
  - intros Hall. unfold get_watched_urls.
    rewrite (Permutation_map watched_entry (sorted_by_perm _ _)).
    induction Hall as [|e r [Hu Hl] _ IH]; [reflexivity |].
    cbn [flat_map]. rewrite List.map_app.
    destruct (watched_row_answers s e Hu (or_intror Hl)) as [row E].
    rewrite E. apply watched_row_Ok in E. destruct E as (Ee & _).
    cbn [List.map app]. rewrite Ee. constructor. exact IH.
Qed.

(** The row of a series whose cached chapter list is that of [chapters],
    over the directory [d']. *)
Lemma watched_row_after_discovery `{PyRuntime} (s : shelf) (e : entry)
    (lib : pystr) (chapters : list chapter) (d' : series_dir) :
  series_urls e <> [] -> libraries_get (library e) = Some lib ->
  chapters <> [] ->
  cached_chapters s (series_folder_name e) = Some (List.map name chapters) ->
  directory s (path_join lib (series_folder_name e)) = Some d' ->
  watched_row s e
  = Ok {| watched_entry := e;
          missing_chapters_count := length (new_chapters chapters d');
          missing_chapters_list :=
            sorted (List.map name (new_chapters chapters d')) |}.
Proof.
  intros Hu Hlib Hne Hcache Hdir. unfold watched_row.
  destruct (series_urls e); [contradiction |].
  rewrite Hcache, Hlib, Hdir.
  destruct chapters as [|c0 cs]; [contradiction |].
  change (nonempty (List.map name (c0 :: cs))) with true. cbv iota.
  rewrite missing_chapters_names, length_map. reflexivity.
Qed.

(** X21.  The list of watched series counts what the discovery queued.
    After a run of [process_series] that returns "Running" or "Success",
    read with the chapter list the run cached and the directory it left, the
    row of the series shows as many missing chapters as the run queued
    downloads, and lists the labels of those downloads in sorted order.  A
    run that finds chapters and raises in the block that writes
    [series.json] has cached the chapter list and queued nothing: the row
    then shows every chapter without an archive as missing, while no
    download is on the queue. *)
Theorem listing_counts_what_discovery_queued `{PyRuntime} (urls : list pystr)
    (lib : pystr) (flag : bool) (w : world) (d : option series_dir)
    (cache : option (list pystr)) (s : shelf) (e : entry) :
  let r := process_series (series_folder_name e) urls lib flag w d cache in
  series_urls e <> [] -> libraries_get (library e) = Some lib ->
  cached_chapters s (series_folder_name e) = cache_after r ->
  directory s (path_join lib (series_folder_name e)) = Some (dir_after r) ->
  (forall x,
      returned r = Ok x -> x <> Failed_config -> x <> Failed_no_chapters ->
      watched_row s e
      = Ok {| watched_entry := e;
              missing_chapters_count := length (queued r);
              missing_chapters_list :=
                sorted (List.map job_label (queued r)) |})
  /\ (forall sites f d1 e0 pr,
        let chapters := unique_chapters (all_discovered_chapters f) in
        sites_config w = Some sites ->
        discover flag sites w urls nothing_found = (f, None) ->
        chapters <> [] ->
        write_series_json (series_folder_name e) urls flag sites w f chapters
          (makedirs d) = (d1, Some e0, pr) ->
        returned r = Raise e0 /\ queued r = []
        /\ watched_row s e
           = Ok {| watched_entry := e;
                   missing_chapters_count :=
                     length (new_chapters chapters (makedirs d));
                   missing_chapters_list :=
                     sorted (List.map name
                               (new_chapters chapters (makedirs d))) |}).
Proof.
  intros r Hu Hlib Hcache Hdir. split.
  - intros x Hr Hx1 Hx2.
    pose proof (process_series_returns _ _ _ _ _ _ _ _ Hr) as Hrun.
    fold r in Hrun.
    destruct Hrun as [(_ & -> & _) | (sites & f & Es & Ed & Hrun)];
      [contradiction |].
    destruct Hrun as [(_ & -> & _) | (pr & Hne & _ & Hc & Hq & _)];
      [contradiction |].
    rewrite Hc in Hcache.
    rewrite (watched_row_after_discovery s e lib _ _ Hu Hlib Hne Hcache Hdir).
    rewrite Hq, length_map, List.map_map. reflexivity.
  - intros sites f d1 e0 pr chapters Es Ed Hne Ew.
    pose proof (process_series_write_raises (series_folder_name e) urls lib
                  flag w d cache sites f d1 e0 pr Es Ed Hne Ew) as Hr.
    fold r in Hr. rewrite Hr in Hcache, Hdir |- *.
    cbn [returned queued cache_after dir_after] in *.
    split; [reflexivity |]. split; [reflexivity |].
    rewrite (watched_row_after_discovery s e lib _ _ Hu Hlib Hne Hcache Hdir).
    rewrite (new_chapters_same_archives chapters d1 (makedirs d));
      [reflexivity |].
    intros a. rewrite (write_series_json_archives _ _ _ _ _ _ _ _ _ _ _ Ew).
    reflexivity.
Qed.

Lemma listing_counts_what_discovery_queued_witness :
  let r := @process_series ascii_only (series_folder_name series_A)
             [py "http://h/a"] (py "/downloads/manga") false
             one_chapter_world None None in
  returned r = Ok (Running 1)
  /\ @watched_row ascii_only
       {| cached_chapters := fun _ => cache_after r;
          directory := fun _ => Some (dir_after r) |} series_A
     = Ok {| watched_entry := series_A;
             missing_chapters_count := length (queued r);
             missing_chapters_list := sorted (List.map job_label (queued r)) |}.
Proof.
  intros r. split; [vm_compute; reflexivity |].
  refine (proj1 (@listing_counts_what_discovery_queued ascii_only
                   [py "http://h/a"] (py "/downloads/manga") false
                   one_chapter_world None None _ series_A _ _ _ _)
            (Running 1) _ _ _);
    try discriminate; vm_compute; reflexivity.
Defined.

(** X22.  Once the downloads queued by a run of [process_series] that
    returned "Running" or "Success" have all completed, the list of watched
    series shows no missing chapter for the series: read with the chapter
    list the run cached and the directory the downloads left, its row has
    the count 0 and an empty list.  This is for chapters whose sanitized
    label does not end in ".cbz": the working directory of a chapter so
    named would count as an archive while it is there. *)
Theorem listing_is_clear_after_downloads `{PyRuntime} (urls : list pystr)
    (lib : pystr) (flag : bool) (w : world) (d : option series_dir)
    (cache : option (list pystr)) (s : shelf) (e : entry) (x : reply) :
  let r := process_series (series_folder_name e) urls lib flag w d cache in
  returned r = Ok x -> x <> Failed_config -> x <> Failed_no_chapters ->
  Forall (fun label =>
            endswith (py ".cbz") (sanitize_filename (JStr label)) = false)
    (download_labels (queued r)) ->
  series_urls e <> [] -> libraries_get (library e) = Some lib ->
  cached_chapters s (series_folder_name e) = cache_after r ->
  directory s (path_join lib (series_folder_name e))
  = Some (archives_added (queued r) (dir_after r)) ->
  watched_row s e
  = Ok {| watched_entry := e; missing_chapters_count := 0;
          missing_chapters_list := [] |}.
Proof.
  intros r Hr Hx1 Hx2 Hcbz Hu Hlib Hcache Hdir.
  pose proof (process_series_returns _ _ _ _ _ _ _ _ Hr) as Hrun.
  fold r in Hrun.
  destruct Hrun as [(_ & -> & _) | (sites & f & Es & Ed & Hrun)];
    [contradiction |].
  destruct Hrun as [(_ & -> & _) | (pr & Hne & _ & Hc & Hq & _)];
    [contradiction |].
  rewrite Hc in Hcache.
  rewrite (watched_row_after_discovery s e lib _ _ Hu Hlib Hne Hcache Hdir).
  set (chapters := unique_chapters (all_discovered_chapters f)) in *.
  assert (Hall : Forall (fun label =>
                           is_chapter_label label
                           /\ endswith (py ".cbz")
                                (sanitize_filename (JStr label)) = false)
                   (download_labels (queued r))).
  { apply List.Forall_forall. intros label Hin. split.
    - unfold download_labels in Hin. apply in_flat_map in Hin.
      destruct Hin as (j & Hj & Hin).
      apply process_series_queues_labels in Hj as (chap & -> & Hl).
      destruct Hin as [<- | []]. exact Hl.
    - rewrite List.Forall_forall in Hcbz. apply Hcbz, Hin. }
  assert (Hnil : new_chapters chapters
                   (archives_added (queued r) (dir_after r)) = []).
  { apply new_chapters_nil. intros chap Hchap.
    destruct (str_in (sanitize_filename (JStr (name chap)))
                (downloaded_cbz_names (dir_after r))) eqn:Ein.
    - apply archives_added_names; [exact Hall |]. apply str_in_In. exact Ein.
    - apply (archives_added_name _ _ (url chap)
               (path_join lib (series_folder_name e)) _ flag);
        [exact Hall |].
      rewrite Hq. apply in_map_iff. exists chap. split; [reflexivity |].
      apply new_chapters_In. split; [exact Hchap | apply str_in_false, Ein]. }
  rewrite Hnil. reflexivity.
Qed.

Lemma listing_is_clear_after_downloads_witness :
  let r := @process_series ascii_only (series_folder_name series_A)
             [py "http://h/a"] (py "/downloads/manga") false
             one_chapter_world None None in
  @watched_row ascii_only
    {| cached_chapters := fun _ => cache_after r;
       directory := fun _ =>
         Some (@archives_added ascii_only (queued r) (dir_after r)) |}
    series_A
  = Ok {| watched_entry := series_A; missing_chapters_count := 0;
          missing_chapters_list := [] |}.
Proof.
  intros r.
  apply (@listing_is_clear_after_downloads ascii_only [py "http://h/a"]
           (py "/downloads/manga") false one_chapter_world None None _
           series_A (Running 1));
    try discriminate; try (vm_compute; reflexivity).
  vm_compute. repeat constructor.
Defined.

(** ** From a request to the next tick *)

Lemma fanned_out_warnings (l : list member) :
  fanned_out (List.map (fun m => Print (SkippingMalformed m)) l) = [].
Proof. induction l as [|m r IH]; [reflexivity | exact IH]. Qed.

Lemma tick_dispatches_due (pool : pystr) (now : Z) (members : list member) :
  existsb (stops pool) members = false ->
  fanned_out (check_for_updates_by_frequency pool now members)
  = flat_map (due pool) members.
Proof.
  intros Hm. unfold check_for_updates_by_frequency.
  destruct members as [|m0 r]; [reflexivity |].
  change (negb (nonempty (m0 :: r))) with false. cbv iota.
  rewrite (check_members_due _ _ _ _ Hm).
  change ([] ++ flat_map (due pool) (m0 :: r))
    with (flat_map (due pool) (m0 :: r)).
  destruct (flat_map (due pool) (m0 :: r)) as [|j0 js]; cbn [nonempty];
    rewrite !fanned_out_app, fanned_out_warnings; [reflexivity |].
  cbn. rewrite app_nil_r. reflexivity.
Qed.

(** What the scheduler reads in an entry the API wrote. *)
Lemma member_of_entry_get (e : entry) :
  exists kv,
    member_of_entry e = Object kv
    /\ dict_get_default (py "frequency") (JStr (py "daily")) kv
       = JStr (frequency e)
    /\ dict_has (py "library") kv = true
    /\ dict_get (py "library") kv = JStr (library e)
    /\ dict_get (py "series_urls") kv
       = JList (List.map JStr (series_urls e))
    /\ dict_get (py "series_folder_name") kv = JStr (series_folder_name e)
    /\ dict_get_default (py "use_flaresolverr") (JBool true) kv
       = JBool (use_flaresolverr e).
Proof. eexists. repeat split. Qed.

Lemma strings_map (l : list pystr) : strings (List.map JStr l) = Some l.
Proof.
  induction l as [|x r IH]; [reflexivity |]. cbn [List.map strings].
  rewrite IH. reflexivity.
Qed.

Lemma due_entry (pool : pystr) (e : entry) (destination_path : pystr) :
  frequency e = pool ->
  libraries_get (library e) = Some destination_path ->
  series_urls e <> [] -> series_folder_name e <> [] ->
  due pool (member_of_entry e)
  = [Discover (series_folder_name e) (series_urls e) destination_path
       (use_flaresolverr e)].
Proof.
  intros Hf Hl Hu Hn.
  destruct (member_of_entry_get e) as (kv & -> & E1 & _ & E3 & E4 & E5 & E6).
  unfold due, in_pool. rewrite E1, E3, E4, E5, E6. cbn [eq_str].
  rewrite Hf, str_eqb_refl, Hl. unfold discover_job. rewrite strings_map.
  destruct (series_urls e); [contradiction |].
  destruct (series_folder_name e); [contradiction |]. reflexivity.
Qed.

Lemma members_never_stop (pool : pystr) (members : list entry) :
  existsb (stops pool) (List.map member_of_entry members) = false.
Proof.
  induction members as [|e r IH]; [reflexivity |].
  cbn [List.map existsb]. rewrite IH, orb_false_r.
  destruct (member_of_entry_get e) as (kv & -> & _ & _ & E3 & _).
  unfold stops. rewrite E3. apply andb_false_r.
Qed.

(** X23.  A series added or extended by a download request is checked at
    the next tick of its pool.  For a request with at least one address and
    a title whose sanitized form is not empty, the registry the request
    leaves holds an entry under the folder name it answers, with every
    address of the request and, when the request gives a frequency, that
    frequency; and a tick of the pool of that entry dispatches the discovery
    of that folder over the addresses of the entry, provided the library of
    the entry is a configured one. *)
Theorem added_series_is_checked `{PyRuntime} (source_urls : list pystr)
    (req_library : pystr) (req_folder_name : option pystr) (title : json)
    (flag : bool) (req_frequency : pystr) (w : world) (uuid8 : pystr)
    (members members' : list entry) (jobs : list job) (folder : pystr) :
  source_urls <> [] -> truthy title = true ->
  sanitize_filename title <> [] ->
  create_download_job source_urls req_library req_folder_name title flag
    req_frequency w uuid8 members = Ok (members', jobs, folder) ->
  exists e',
    In e' members'
    /\ series_folder_name e' = folder /\ folder <> []
    /\ incl source_urls (series_urls e')
    /\ (req_frequency <> [] -> frequency e' = req_frequency)
    /\ forall now destination_path,
         libraries_get (library e') = Some destination_path ->
         In (Discover folder (series_urls e') destination_path
               (use_flaresolverr e'))
            (fanned_out
               (check_for_updates_by_frequency (frequency e') now
                  (List.map member_of_entry members'))).
Proof.
  intros Hs Ht Hsafe.
  assert (Htick : forall e' members',
             In e' members' -> series_folder_name e' <> [] ->
             incl source_urls (series_urls e') ->
             forall now destination_path,
               libraries_get (library e') = Some destination_path ->
               In (Discover (series_folder_name e') (series_urls e')
                     destination_path (use_flaresolverr e'))
                  (fanned_out
                     (check_for_updates_by_frequency (frequency e') now
                        (List.map member_of_entry members')))).
  { intros e' ms Hin Hn Hincl now destination_path Hl.
    rewrite tick_dispatches_due by apply members_never_stop.
    apply in_flat_map. exists (member_of_entry e').
    split; [apply in_map, Hin |].
    rewrite (due_entry _ e' destination_path); [left; reflexivity | | | |];
      auto.
    destruct source_urls as [|u0 us]; [contradiction |].
    intros E. specialize (Hincl u0 (or_introl eq_refl)). rewrite E in Hincl.
    destruct Hincl. }
  destruct (libraries_get req_library) as [destination_path |] eqn:Hlib;
    [| unfold create_download_job; rewrite Hlib; discriminate].
  destruct (match match req_folder_name with
                  | Some folder =>
                      if nonempty folder then find_entry folder members
                      else None
                  | None => None
                  end with
            | Some e0 => Some e0
            | None => if truthy title
                      then find_entry (sanitize_filename title) members
                      else None
            end) as [e |] eqn:Hfound.
  - rewrite (create_download_job_found _ _ _ _ _ _ _ _ _ e _ Hlib Hfound).
    intros E. apply Ok_inj in E. injection E as <- <- <-.
    assert (Hname : series_folder_name e <> []).
    { destruct req_folder_name as [[|c name] |]; cbn [nonempty] in Hfound;
        try (destruct (find_entry (c :: name) members) eqn:Ef;
             [injection Hfound as ->;
              destruct (find_entry_Some _ _ _ Ef) as [_ ->]; discriminate |]);
        rewrite Ht in Hfound;
        destruct (find_entry_Some _ _ _ Hfound) as [_ ->]; exact Hsafe. }
    match goal with
    | |- context [sadd ?x _] => set (e' := x)
    end.
    assert (Hincl : incl source_urls (series_urls e')).
    { intros u Hu. cbn [e' series_urls].
      apply sorted_In, distinct_In, in_or_app. right. exact Hu. }
    exists e'. split; [apply sadd_In; left; reflexivity |].
    split; [reflexivity |]. split; [exact Hname |]. split; [exact Hincl |].
    split.
    + intros Hf. cbn [e' frequency].
      destruct req_frequency; [contradiction |]. cbn [nonempty andb].
      destruct (str_eqb (frequency e) (n :: req_frequency)) eqn:E;
        [| reflexivity].
      apply str_eqb_eq in E. exact E.
    + apply (Htick e'); [apply sadd_In; left; reflexivity | exact Hname
                        | exact Hincl].
  - unfold create_download_job. rewrite Hlib, Hfound.
    pose proof (sorted_by_perm (fun s : pystr => s) source_urls) as Hperm.
    fold (sorted source_urls) in Hperm.
    remember (sorted source_urls) as stored eqn:Es. clear Es.
    assert (Etitle : forall alt : json,
               (if negb (truthy title) then alt else title) = title).
    { intros alt. rewrite Ht. reflexivity. }
    destruct source_urls as [|first_url rest]; [contradiction |].
    rewrite ?Etitle, Ht.
    intros E. apply Ok_inj in E. injection E as <- <- <-.
    match goal with
    | |- context [sadd ?x _] => set (e' := x)
    end.
    assert (Hincl : incl (first_url :: rest) (series_urls e')).
    { intros u Hu. apply (Permutation_in _ (Permutation_sym Hperm)).
      exact Hu. }
    exists e'. split; [apply sadd_In; left; reflexivity |].
    split; [reflexivity |]. split; [exact Hsafe |]. split; [exact Hincl |].
    split; [reflexivity |].
    apply (Htick e'); [apply sadd_In; left; reflexivity | exact Hsafe
                      | exact Hincl].
Qed.

Lemma added_series_is_checked_witness :
  exists members' jobs folder,
    @create_download_job ascii_only [py "http://h/t"] (py "manga") None
      (JStr (py "T: a/b")) true (py "weekly") one_chapter_world
      (py "0a1b2c3d") three_watched = Ok (members', jobs, folder)
    /\ exists e',
         In e' members'
         /\ series_folder_name e' = folder /\ folder <> []
         /\ incl [py "http://h/t"] (series_urls e')
         /\ (py "weekly" <> [] -> frequency e' = py "weekly")
         /\ forall now destination_path,
              libraries_get (library e') = Some destination_path ->
              In (Discover folder (series_urls e') destination_path
                    (use_flaresolverr e'))
                 (fanned_out
                    (check_for_updates_by_frequency (frequency e') now
                       (List.map member_of_entry members'))).
Proof.
  eexists _, _, _. split; [reflexivity |].
  eapply (@added_series_is_checked ascii_only [py "http://h/t"] (py "manga")
           None (JStr (py "T: a/b")) true (py "weekly") one_chapter_world
           (py "0a1b2c3d") three_watched).
  - discriminate.
  - reflexivity.
  - vm_compute. discriminate.
  - reflexivity.
Defined.

(** ** What a bulk import adds *)

Lemma append_source_In (folder u : pystr) (l : list entry) (x' : entry) :
  In x' (append_source folder u l) ->
  exists x, In x l
    /\ (x' = x \/ x' = with_urls x (sorted (series_urls x ++ [u]))).
Proof.
  induction l as [|y r IH]; [intros [] |]. cbn [append_source].
  destruct (str_eqb (series_folder_name y) folder).
  - intros [<- | Hx]; [exists y | exists x']; cbn [In]; auto.
  - intros [<- | Hx]; [exists y; cbn [In]; auto |].
    destruct (IH Hx) as (x & Hin & Hc). exists x. cbn [In]. auto.
Qed.

Lemma covers_more (e x : entry) (u : pystr) :
  covers e x -> covers e (with_urls x (sorted (series_urls x ++ [u]))).
Proof.
  intros Hc. apply (covers_trans _ _ _ Hc). unfold covers. cbn.
  repeat split; try reflexivity.
  intros v Hv. apply sorted_In, in_or_app. left. exact Hv.
Qed.

Lemma bulk_add_url_accounted `{PyRuntime} (req_library req_frequency : pystr)
    (destination_path : pystr) (sites : list site) (w : world)
    (snapshot members : list entry) (st : bulk) (u : pystr) :
  libraries_get req_library = Some destination_path ->
  accounted destination_path members st ->
  accounted destination_path members
    (bulk_add_url req_library req_frequency sites w snapshot st u).
Proof.
  intros Hlib Hst. unfold bulk_add_url.
  destruct (negb (nonempty u) || negb (nonempty (strip u))); [exact Hst |].
  destruct (scraped_title w sites u) as [title |]; [| exact Hst].
  destruct (negb (truthy title)); [exact Hst |].
  destruct Hst as [Hw Hr].
  destruct (find_entry (sanitize_filename title) (watched_entries st))
    as [e |] eqn:Ef.
  - destruct (negb (str_in u (series_urls e))); [| split; assumption].
    destruct (List.find _ snapshot) as [raw |]; [| split; assumption].
    apply find_entry_Some in Ef. destruct Ef as [He _].
    split; cbn [watched_entries redis_members bulk_queued].
    + intros x' Hx'. apply append_source_In in Hx'.
      destruct Hx' as (x & Hx & [-> | ->]);
        destruct (Hw x Hx) as (e0 & He0 & Hc); exists e0;
        (split; [exact He0 |]); [exact Hc | apply covers_more, Hc].
    + intros e' He'. apply sadd_In in He'. destruct He' as [-> | He'].
      * left. destruct (Hw e He) as (e0 & He0 & Hc). exists e0.
        split; [exact He0 | apply covers_more, Hc].
      * cbn [srem fst] in He'. apply srem_In in He'. apply Hr, He'.
  - rewrite Hlib. split; cbn [watched_entries redis_members bulk_queued];
      [exact Hw |].
    intros e' He'. apply sadd_In in He'. destruct He' as [-> | He'].
    + right. apply in_or_app. right. left. reflexivity.
    + destruct (Hr e' He') as [Hold | Hnew]; [left; exact Hold |].
      right. apply in_or_app. left. exact Hnew.
Qed.

(** X24.  A bulk import accepted by the endpoint (a non-empty list of
    addresses and a configured library) is passed to the task as it was
    sent, and the task adds no series without queueing its discovery: each
    entry of the registry after the import either continues a series that
    was watched before, with at least its addresses, or is a new series for
    which the discovery of its folder over its addresses, with the anti-bot
    session on, has been queued into the library of the request. *)
Theorem bulk_import_queues_every_new_series `{PyRuntime} (urls : list pystr)
    (req_library req_frequency : pystr) (w : world) (members : list entry)
    (accepted : list job) :
  bulk_add urls req_library req_frequency = Ok accepted ->
  accepted = [BulkAdd urls req_library req_frequency]
  /\ urls <> []
  /\ exists destination_path,
       libraries_get req_library = Some destination_path
       /\ forall e',
            In e' (fst (bulk_add_task urls req_library req_frequency w
                          members)) ->
            (exists e, In e members /\ covers e e')
            \/ In (Discover (series_folder_name e') (series_urls e')
                     destination_path true)
                 (snd (bulk_add_task urls req_library req_frequency w
                         members)).
Proof.
  unfold bulk_add.
  destruct (nonempty urls) eqn:En; cbn [negb]; [| discriminate].
  destruct (libraries_get req_library) as [destination_path |] eqn:Hlib;
    [| discriminate].
  intros E. apply Ok_inj in E. subst accepted.
  split; [reflexivity |]. split; [intros ->; discriminate En |].
  exists destination_path. split; [reflexivity |].
  unfold bulk_add_task. destruct (sites_config w) as [sites |].
  - cbn [fst snd].
    apply (fold_left_invariant (accounted destination_path members)
             (bulk_add_url req_library req_frequency sites w members) urls).
    + intros st u. apply bulk_add_url_accounted. exact Hlib.
    + split; intros x Hx; [| left]; exists x;
        (split; [exact Hx | apply covers_refl]).
  - intros e' He'. left. exists e'. split; [exact He' | apply covers_refl].
Qed.

Lemma bulk_import_queues_every_new_series_witness :
  [BulkAdd [py "http://h.org/a"] (py "manga") (py "daily")]
  = [BulkAdd [py "http://h.org/a"] (py "manga") (py "daily")]
  /\ [py "http://h.org/a"] <> []
  /\ exists destination_path,
       libraries_get (py "manga") = Some destination_path
       /\ forall e',
            In e' (fst (@bulk_add_task ascii_only [py "http://h.org/a"]
                          (py "manga") (py "daily") same_title_world
                          three_watched)) ->
            (exists e, In e three_watched /\ covers e e')
            \/ In (Discover (series_folder_name e') (series_urls e')
                     destination_path true)
                 (snd (@bulk_add_task ascii_only [py "http://h.org/a"]
                         (py "manga") (py "daily") same_title_world
                         three_watched)).
Proof.
  apply (@bulk_import_queues_every_new_series ascii_only
           [py "http://h.org/a"] (py "manga") (py "daily") same_title_world
           three_watched).
  reflexivity.
Defined.

(** ** Labels in the order of the chapters *)

Lemma plain_char_safe `{PyRuntime} (c : N) :
  plain_char c = true -> safe_char c = true /\ (c <> 32 -> isspace c = false).
Proof.
  intros Hplain.
  assert (Hc : (48 <= c <= 57 \/ 65 <= c <= 90 \/ 97 <= c <= 122)
               \/ c = 32 \/ c = 46 \/ c = 95 \/ c = 45).
  { revert Hplain. unfold plain_char, in_range. cbn [existsb].
    rewrite !orb_true_iff, !andb_true_iff, !N.leb_le, !N.eqb_eq.
    intros [[[Hc | Hc] | Hc] | [Hc | [Hc | [Hc | [Hc | Hc]]]]];
      try discriminate; auto 7. }
  assert (Hlt : (c <? 128) = true) by (apply N.ltb_lt; lia).
  split.
  - unfold safe_char, isalnum. rewrite Hlt. exact Hplain.
  - intros Hne. unfold isspace, in_range. rewrite Hlt.
    apply orb_false_iff. rewrite !andb_false_iff, !N.leb_gt. lia.
Qed.

Lemma sanitize_plain_name `{PyRuntime} (s : pystr) :
  plain_name s = true -> sanitize_filename (JStr s) = s.
Proof.
  unfold plain_name. rewrite !andb_true_iff. intros [[Hall Hhd] Hlast].
  rewrite forallb_forall in Hall.
  cbn [sanitize_filename].
  rewrite filter_all by (intros c Hc; apply plain_char_safe, Hall, Hc).
  unfold strip.
  assert (Hl : lstrip_by isspace s = s).
  { apply dropwhile_id. intros c Hc. destruct s as [|c0 r]; [discriminate |].
    injection Hc as ->. apply plain_char_safe; [apply Hall; left; reflexivity |].
    apply negb_true_iff, N.eqb_neq in Hhd. exact Hhd. }
  rewrite Hl. apply rstrip_by_id. intros c Hc.
  rewrite <- (rev_involutive s), last_rev_head in Hc.
  assert (Hin : In c s).
  { apply in_rev. destruct (rev s) as [|c0 r]; [discriminate |].
    injection Hc as ->. left. reflexivity. }
  apply plain_char_safe; [apply Hall, Hin |].
  destruct (rev s) as [|c0 r]; [discriminate |]. injection Hc as ->.
  apply negb_true_iff, N.eqb_neq in Hlast. exact Hlast.
Qed.

Lemma str_ltb_trans (a b c : pystr) :
  str_ltb a b = true -> str_ltb b c = true -> str_ltb a c = true.
Proof.
  unfold str_ltb. rewrite !andb_true_iff, !negb_true_iff.
  intros [Hab Hba] [Hbc Hcb]. split; [eapply str_leb_trans; eassumption |].
  destruct (str_leb c a) eqn:Hca; [| reflexivity].
  rewrite (str_leb_trans c a b Hca Hab) in Hcb. discriminate.
Qed.

Lemma labels_increase_next (steps : nat) (z k : Z) :
  labels_increase steps z = true -> (0 <= k < Z.of_nat steps)%Z ->
  str_ltb (numbered_label (z + k)) (numbered_label (z + k + 1)) = true
  /\ plain_name (numbered_label (z + k)) = true
  /\ plain_name (numbered_label (z + k + 1)) = true.
Proof.
  revert z k. induction steps as [|steps IH]; intros z k; [lia |].
  cbn [labels_increase]. rewrite !andb_true_iff.
  intros [[[H1 H2] H3] H4] Hk.
  destruct (Z.eq_dec k 0%Z) as [-> | Hne].
  - rewrite Z.add_0_r. auto.
  - replace (z + k)%Z with (z + 1 + (k - 1))%Z by lia.
    apply IH; [exact H4 | lia].
Qed.

Lemma numbered_labels_checked : labels_increase (Z.to_nat 9999) 0 = true.
Proof. vm_compute. reflexivity. Qed.

Lemma numbered_label_next (z : Z) :
  (0 <= z < 9999)%Z ->
  str_ltb (numbered_label z) (numbered_label (z + 1)) = true
  /\ plain_name (numbered_label z) = true
  /\ plain_name (numbered_label (z + 1)) = true.
Proof.
  intros Hz.
  exact (labels_increase_next (Z.to_nat 9999) 0 z numbered_labels_checked
           ltac:(lia)).
Qed.

Lemma numbered_labels_increase (n : Z) (steps : nat) :
  (0 <= n)%Z -> (n + Z.of_nat steps < 9999)%Z ->
  str_ltb (numbered_label n) (numbered_label (n + Z.of_nat steps + 1)) = true.
Proof.
  intros Hn. induction steps as [|steps IH]; intros Hm.
  - rewrite Z.add_0_r. destruct (numbered_label_next n) as (H1 & _);
      [lia | exact H1].
  - eapply str_ltb_trans; [apply IH; lia |].
    replace (n + Z.of_nat (S steps) + 1)%Z
      with (n + Z.of_nat steps + 1 + 1)%Z by lia.
    destruct (numbered_label_next (n + Z.of_nat steps + 1)) as (H1 & _);
      [lia | exact H1].
Qed.

(** X25.  Up to chapter 9999 the labels order the chapters by number.  For
    whole chapter numbers [n < m] below 10000, the label of [n] comes
    strictly before the label of [m] in the order [sorted] uses, so that
    the sorted list of chapters runs in the order of their numbers; each
    label is a file name [sanitize_filename] leaves as it is; and the
    archives of two such chapters have different names, so that neither
    overwrites the other. *)
Theorem labels_order_chapters_by_number `{PyRuntime} (n m : Z) :
  (0 <= n < m)%Z -> (m < 10000)%Z ->
  let a := chapter_name (py_str (JInt n)) in
  let b := chapter_name (py_str (JInt m)) in
  str_leb a b = true /\ str_leb b a = false /\ a <> b
  /\ sanitize_filename (JStr a) = a
  /\ sanitize_filename (JStr b) = b
  /\ sanitize_filename (JStr a) ++ py ".cbz"
     <> sanitize_filename (JStr b) ++ py ".cbz".
Proof.
  intros Hn Hm a b. subst a b. cbn [py_str].
  fold (numbered_label n). fold (numbered_label m).
  assert (Hlt : str_ltb (numbered_label n) (numbered_label m) = true).
  { replace m with (n + Z.of_nat (Z.to_nat (m - n - 1)) + 1)%Z by lia.
    apply numbered_labels_increase; lia. }
  unfold str_ltb in Hlt. apply andb_true_iff in Hlt.
  destruct Hlt as [Hab Hba]. apply negb_true_iff in Hba.
  assert (Hne : numbered_label n <> numbered_label m).
  { intros E. rewrite E in Hba. rewrite E in Hab. congruence. }
  destruct (numbered_label_next n) as (_ & Hpn & _); [lia |].
  destruct (numbered_label_next (m - 1)) as (_ & _ & Hpm); [lia |].
  replace (m - 1 + 1)%Z with m in Hpm by lia.
  rewrite (sanitize_plain_name _ Hpn), (sanitize_plain_name _ Hpm).
  repeat split; try assumption.
  intros E. apply app_inv_tail in E. contradiction.
Qed.

Lemma labels_order_chapters_by_number_witness :
  let a := chapter_name (@py_str ascii_only (JInt 2)) in
  let b := chapter_name (@py_str ascii_only (JInt 15)) in
  str_leb a b = true /\ str_leb b a = false /\ a <> b
  /\ @sanitize_filename ascii_only (JStr a) = a
  /\ @sanitize_filename ascii_only (JStr b) = b
  /\ @sanitize_filename ascii_only (JStr a) ++ py ".cbz"
     <> @sanitize_filename ascii_only (JStr b) ++ py ".cbz".
Proof.
  apply (@labels_order_chapters_by_number ascii_only 2 15); lia.
Defined.
